(** * megatools (JavaScript core): session blob, API engine, filesystem import

    A shallow embedding of [src/js/api.js] and [src/js/session.js].

    The two files run on Duktape 1.x and talk to a native facade [C]
    (crypto, base64, buffers, files, HTTP) that is not part of the two
    files.  The facade is a record of functions here, and every theorem
    names the contracts of it that it relies on.

    Conventions of the embedding:
    - a buffer is a list of bytes, a byte an integer; [==] and [!=] on two
      plain buffers compare contents; an empty buffer or string is falsy;
    - a native helper that is handed [undefined] where it takes a string or
      a buffer throws a [TypeError];
    - values that come from the server are read at the type the protocol
      gives them, numbers as integers; a value of another type is outside
      the embedding ([NotModelled]);
    - a read [o[k]] of an object or an array used as a map finds the own
      property [k]; where there is none and [k] names a member that the
      prototype of an object or of an array has in some edition of the
      language, the read finds that member or nothing, by the runtime,
      and is outside the embedding ([NotModelled]);
    - a difference of two numbers is exact while the numbers and the
      difference stay within 2^53 in magnitude, and outside the embedding
      beyond;
    - a deferred is followed up to its settlement: [Resolved], [Rejected],
      still [Pending], or [Thrown] when one of its callbacks threw (the
      code then neither resolved nor rejected it);
    - the HTTP transport is a script: the list of outcomes the successive
      requests will meet. *)

From Stdlib Require Import ZArith List String Ascii Bool Lia.
From stdpp Require Import gmap strings list fin_maps pretty.
Import ListNotations.

Set Warnings "-register-all".

Local Open Scope string_scope.
Local Open Scope Z_scope.
Disable Notation "x ++ y" : string_scope.

(** ** Buffers *)

Module Buf.

(** [Duktape.Buffer(str)]: the bytes of a string. *)
Definition of_string (s : string) : list Z :=
  map (fun c => Z.of_N (N_of_ascii c)) (list_ascii_of_string s).

(** [buf.toString()]. *)
Definition to_string (b : list Z) : string :=
  string_of_list_ascii (map (fun z => ascii_of_N (Z.to_N z)) b).

(** ToBoolean on a plain buffer: false for a zero-size buffer. *)
Definition truthy (b : list Z) : bool :=
  match b with [] => false | _ :: _ => true end.

(** [a == b] on two plain buffers: byte-wise comparison. *)
Definition eqb (a b : list Z) : bool := bool_decide (a = b).

(** Modelled from the spec: the native helper [C.slicebuf(buf, off, len)]
    (the bytes [off .. off+len) of [buf]); outside the buffer it yields
    what is there. *)
Definition slicebuf (b : list Z) (off len : nat) : list Z :=
  firstn len (skipn off b).

(** Modelled from the spec: [C.slicebuf(buf, off)], from [off] to the end. *)
Definition slicebuf_from (b : list Z) (off : nat) : list Z := skipn off b.

(** Modelled from the spec: [C.joinbuf(a, b)]. *)
Definition joinbuf (a b : list Z) : list Z := a ++ b.

End Buf.

(** ** JavaScript values, exceptions, deferreds *)

Module Js.

Inductive json :=
| JUndef
| JNull
| JBool (b : bool)
| JNum (z : Z)
| JStr (s : string)
| JArr (items : list json)
| JObj (fields : list (string * json)).

Inductive js_error :=
| TypeError (what : string)
| ReferenceError (ident : string)
| SyntaxError
| NotModelled (what : string).

Inductive result (A : Type) :=
| Ret (a : A)
| Throw (e : js_error).
Arguments Ret {A} a.
Arguments Throw {A} e.

Definition bind {A B} (r : result A) (f : A -> result B) : result B :=
  match r with Ret a => f a | Throw e => Throw e end.

Inductive outcome (A : Type) :=
| Resolved (a : A)
| Rejected (code : string) (msg : option string)
| Pending
| Thrown (e : js_error).
Arguments Resolved {A} a.
Arguments Rejected {A} code msg.
Arguments Pending {A}.
Arguments Thrown {A} e.

(** ToBoolean *)
Definition truthy (v : json) : bool :=
  match v with
  | JUndef | JNull => false
  | JBool b => b
  | JNum z => negb (Z.eqb z 0)
  | JStr s => negb (String.eqb s "")
  | JArr _ | JObj _ => true
  end.

Definition str_truthy (s : option string) : bool :=
  match s with Some t => negb (String.eqb t "") | None => false end.

Fixpoint assoc {A} (k : string) (l : list (string * A)) : option A :=
  match l with
  | [] => None
  | (k', v) :: rest => if String.eqb k k' then Some v else assoc k rest
  end.

(** [v.k]: reading a property of [undefined] or [null] throws; a property
    that is not there reads as [undefined]. *)
Definition prop (v : json) (k : string) : result json :=
  match v with
  | JUndef | JNull => Throw (TypeError ("cannot read property " +:+ k))
  | JObj fields =>
      Ret (match assoc k fields with Some x => x | None => JUndef end)
  | _ => Ret JUndef
  end.

(** Views at the protocol's types; [undefined] and [null] read as absent. *)
Definition opt_string (v : json) : result (option string) :=
  match v with
  | JUndef | JNull => Ret None
  | JStr s => Ret (Some s)
  | _ => Throw (NotModelled "string expected")
  end.

Definition opt_number (v : json) : result (option Z) :=
  match v with
  | JUndef | JNull => Ret None
  | JNum z => Ret (Some z)
  | _ => Throw (NotModelled "number expected")
  end.

Definition opt_array (v : json) : result (option (list json)) :=
  match v with
  | JUndef | JNull => Ret None
  | JArr l => Ret (Some l)
  | _ => Throw (NotModelled "array expected")
  end.

(** A native helper's string or buffer argument. *)
Definition required {A} (what : string) (v : option A) : result A :=
  match v with
  | Some a => Ret a
  | None => Throw (TypeError (what +:+ " is undefined"))
  end.

(** The names of the members of [Object.prototype] and [Array.prototype]:
    those of ES5.1 and its Annex B, the accessors and methods that
    engines added to them, and the additions of the later editions. *)
Definition prototype_names : list string :=
  [ "constructor"; "toString"; "toLocaleString"; "valueOf";
    "hasOwnProperty"; "isPrototypeOf"; "propertyIsEnumerable";
    "__proto__"; "__defineGetter__"; "__defineSetter__";
    "__lookupGetter__"; "__lookupSetter__"; "toSource"; "watch"; "unwatch";
    "length"; "concat"; "join"; "pop"; "push"; "reverse"; "shift"; "slice";
    "sort"; "splice"; "unshift"; "indexOf"; "lastIndexOf"; "every"; "some";
    "forEach"; "map"; "filter"; "reduce"; "reduceRight";
    "copyWithin"; "entries"; "fill"; "find"; "findIndex"; "keys"; "values";
    "includes"; "flat"; "flatMap"; "at"; "findLast"; "findLastIndex";
    "toReversed"; "toSorted"; "toSpliced"; "with"; "group"; "groupToMap" ].

Definition inherited (k : string) : bool :=
  existsb (String.eqb k) prototype_names.

(** [o[k]] on an object or an array used as a map from names: the own
    property [k], [undefined] ([Ret None]) where there is none and no
    prototype has a member of that name; a read that may find an
    inherited member is not modelled. *)
Definition get {A} (o : gmap string A) (k : string) : result (option A) :=
  match o !! k with
  | Some a => Ret (Some a)
  | None =>
      if inherited k then Throw (NotModelled ("inherited member " +:+ k))
      else Ret None
  end.


(** [s.indexOf(pat) >= 0], the meaning of [s.match(/pat/)] for a pattern
    without operators. *)
Fixpoint contains (pat s : string) : bool :=
  if String.prefix pat s then true
  else match s with
       | EmptyString => false
       | String _ rest => contains pat rest
       end.

Definition lower_ascii (c : ascii) : ascii :=
  let n := nat_of_ascii c in
  if ((65 <=? n) && (n <=? 90))%nat then ascii_of_nat (n + 32) else c.

(** [s.toLowerCase()] on ASCII text; a string with other letters is
    outside the embedding. *)
Fixpoint toLowerCase (s : string) : string :=
  match s with
  | EmptyString => EmptyString
  | String c rest => String (lower_ascii c) (toLowerCase rest)
  end.

(** The character class [[0-9a-zA-Z_-]]. *)
Definition is_handle_char (c : ascii) : bool :=
  let n := nat_of_ascii c in
  ((48 <=? n) && (n <=? 57) || (65 <=? n) && (n <=? 90)
   || (97 <=? n) && (n <=? 122) || (n =? 95) || (n =? 45))%nat.

End Js.
Export Js.

Notation "x <- r ;; k" := (Js.bind r (fun x => k))
  (at level 100, r at next level, right associativity).

(** ** What a session and a filesystem hold *)

Record node := {
  type : option Z;
  handle : option string;
  parent_handle : option string;
  su_handle : option string;
  user : option string;
  size : option Z;
  mtime : option Z;
  key_full : option (list Z);
  key : option (list Z);
  attrs : option json;
  name : json
}.

Record filesystem := {
  nodes : gmap string node;
  share_keys : gmap string (list Z)
}.

Record session_data := {
  d_user : json;
  d_uh : option string;
  d_pubk : option string;
  d_privk : option string;
  d_mk : option (list Z);
  d_sid : option string;
  d_sidParamName : option string;
  d_saved : option Z;
  d_isExportedFolder : bool
}.

(** ** The native facade [C] and the built-ins of the runtime *)

Record facade := {
  os : string;
  get_tmp_dir : string;
  writable : string -> bool;
  aes_key_from_password : string -> list Z;
  sha256_digest : list Z -> list Z;
  ub64enc : list Z -> string;
  ub64dec : string -> list Z;
  aes_enc : list Z -> list Z -> list Z;
  aes_dec : list Z -> list Z -> list Z;
  aes_enc_cbc : list Z -> list Z -> list Z;
  aes_dec_cbc : list Z -> list Z -> option (list Z);
  rsa_decrypt : option string -> list Z -> list Z -> option (list Z);
  rsa_decrypt_sid : option string -> list Z -> string -> option string;
  file_node_key_unpack : list Z -> list Z;
  make_username_hash : list Z -> string -> string;
  alignbuf : list Z -> nat -> bool -> list Z;
  buftojsonstring : list Z -> option string;
  JSON_parse : string -> option json;
  JSON_stringify : json -> string;
  jx_enc_session : session_data -> string;
  jx_dec_session : string -> option session_data;
  jx_enc_fs : filesystem -> string;
  jx_dec_fs : string -> option filesystem
}.

(** ** Files and AES-CTR *)

Module Native.

(** Modelled from the spec: [file_read(path)] gives the bytes or null. *)
Definition file_read (disk : gmap string (list Z)) (path : string)
  : option (list Z) := disk !! path.

(** Modelled from the spec: [file_write(path, bytes)] gives a boolean; the
    facade decides where a write can succeed. *)
Definition file_write (C : facade) (disk : gmap string (list Z))
    (path : string) (data : list Z) : gmap string (list Z) * bool :=
  if writable C path then (<[path := data]> disk, true) else (disk, false).

(** Modelled from the spec: [file_remove(path)]. *)
Definition file_remove (disk : gmap string (list Z)) (path : string)
  : gmap string (list Z) := delete path disk.

(** The counter as eight big-endian bytes. *)
Definition be64 (c : Z) : list Z :=
  map (fun i => Z.land (Z.shiftr c (8 * (7 - Z.of_nat i))) 255) (seq 0 8).

(** Byte [j] of the key stream: byte [j mod 16] of the encryption of the
    block [nonce8 || be64(counter + j / 16)]. *)
Definition keystream (C : facade) (key nonce : list Z) (counter : Z) (j : nat)
  : Z :=
  nth (j mod 16)
      (aes_enc C key (nonce ++ be64 (counter + Z.of_nat (j / 16)))) 0.

Fixpoint xor_from (ks : nat -> Z) (j : nat) (data : list Z) : list Z :=
  match data with
  | [] => []
  | b :: rest => Z.lxor b (ks j) :: xor_from ks (S j) rest
  end.

(** Modelled from the spec: [aes_ctr(key16, nonce8, counter, data)], CTR
    mode over a 16-byte block built from [nonce8 || counter_be64]. *)
Definition aes_ctr (C : facade) (key nonce : list Z) (counter : Z)
    (data : list Z) : list Z :=
  xor_from (keystream C key nonce counter) 0 data.

End Native.

(** ** The API transaction engine (api.js) *)

Module MegaAPI.

Definition host : string := "g.api.mega.co.nz".

Definition errorMessages : list (string * string) :=
  [ ("EINTERNAL", "Internal error");
    ("EARGS", "Invalid argument");
    ("EAGAIN", "Request failed, retrying");
    ("ERATELIMIT", "Rate limit exceeded");
    ("EFAILED", "Transfer failed");
    ("ETOOMANY", "Too many concurrent connections or transfers");
    ("ERANGE", "Out of range");
    ("EEXPIRED", "Expired");
    ("ENOENT", "Not found");
    ("ECIRCULAR", "Circular linkage detected");
    ("EACCESS", "Access denied");
    ("EEXIST", "Already exists");
    ("EINCOMPLETE", "Incomplete");
    ("EKEY", "Invalid key/integrity check failed");
    ("ESID", "Bad session ID");
    ("EBLOCKED", "Blocked");
    ("EOVERQUOTA", "Over quota");
    ("ETEMPUNAVAIL", "Temporarily not available");
    ("ETOOMANYCONNECTIONS", "Connection overflow");
    ("EWRITE", "Write error");
    ("EREAD", "Read error");
    ("EAPPKEY", "Invalid application key") ].

Definition errorCodes : list (string * Z) :=
  [ ("EINTERNAL", -1);
    ("EARGS", -2);
    ("EAGAIN", -3);
    ("ERATELIMIT", -4);
    ("EFAILED", -5);
    ("ETOOMANY", -6);
    ("ERANGE", -7);
    ("EEXPIRED", -8);
    ("ENOENT", -9);
    ("ECIRCULAR", -10);
    ("EACCESS", -11);
    ("EEXIST", -12);
    ("EINCOMPLETE", -13);
    ("EKEY", -14);
    ("ESID", -15);
    ("EBLOCKED", -16);
    ("EOVERQUOTA", -17);
    ("ETEMPUNAVAIL", -18);
    ("ETOOMANYCONNECTIONS", -19);
    ("EWRITE", -20);
    ("EREAD", -21);
    ("EAPPKEY", -22) ].

(** [for (key in this.errorCodes) if (this.errorCodes[key] == num) return key] *)
Fixpoint getErrorName_in (codes : list (string * Z)) (num : Z) : string :=
  match codes with
  | [] => "EUNKNOWN"
  | (key, c) :: rest => if c =? num then key else getErrorName_in rest num
  end.

Definition getErrorName (num : Z) : string := getErrorName_in errorCodes num.

(** [this.errorMessages[name] || 'Unknown error'], for the names of the
    table and the names that are not in it and that no prototype has a
    member of: the engine applies it to what [getErrorName] returns. *)
Definition getErrorMessage (name : string) : string :=
  match assoc name errorMessages with
  | Some m => if String.eqb m "" then "Unknown error" else m
  | None => "Unknown error"
  end.

(** What the transport does with one request: [onload(data)], with the
    value [JSON.parse(data)] gives ([None] when it throws), or
    [onerror(code, msg)]. *)
Inductive http_event :=
| Onload (response : option json)
| Onerror (code : string) (msg : string).

(** What the engine asks of the facade: [C.http] and [C.timeout]. *)
Inductive io_event :=
| Http (url : string) (data : list json)
| Timer (ms : Z).

(** The state of a MegaAPI object ([sid], [sidParamName], [callId]) and of
    its transport (the script ahead, the requests and timers so far). *)
Record world := {
  sid : option string;
  sidParamName : option string;
  callId : Z;
  script : list http_event;
  log : list io_event
}.

Definition M (A : Type) : Type := world -> outcome A * world.

Definition resolved {A} (a : A) : M A := fun w => (Resolved a, w).
Definition rejected {A} (code : string) (msg : option string) : M A :=
  fun w => (Rejected code msg, w).
Definition thrown {A} (e : js_error) : M A := fun w => (Thrown e, w).

(** [d.done(f)]: [f] runs on the value [d] resolves with, and what [f]
    returns settles the result. *)
Definition done {A B} (d : M A) (f : A -> M B) : M B := fun w =>
  match d w with
  | (Resolved a, w') => f a w'
  | (Rejected code msg, w') => (Rejected code msg, w')
  | (Pending, w') => (Pending, w')
  | (Thrown e, w') => (Thrown e, w')
  end.

(** A synchronous step of a callback that may throw. *)
Definition lift {A} (r : result A) : M A :=
  match r with Ret a => resolved a | Throw e => thrown e end.

Definition setSessionId (s paramName : option string) (w : world) : world :=
  {| sid := s; sidParamName := paramName; callId := callId w;
     script := script w; log := log w |}.

(** [me.callId++] on a JavaScript number: exact below 2^53; at 2^53 the
    sum rounds back to 2^53. *)
Definition incr (n : Z) : Z := if n <? 2 ^ 53 then n + 1 else n.

Definition mk_url (id : Z) (s paramName : option string) : string :=
  "https://" +:+ host +:+ "/cs?id=" +:+ pretty id
    +:+ (if str_truthy s
         then "&" +:+ (if str_truthy paramName
                       then default "" paramName else "sid")
              +:+ "=" +:+ default "" s
         else "").

Definition is_retry (code : string) : bool :=
  String.eqb code "busy" || String.eqb code "no_response".

(** [doRequest]: one request per element of the script it consumes. *)
Fixpoint doRequest (url : string) (jsonReq : list json) (nextTimeout : Z)
    (sc : list http_event) (lg : list io_event)
  : outcome (list json) * list http_event * list io_event :=
  let lg := lg ++ [Http url jsonReq] in
  match sc with
  | [] => (Pending, [], lg)
  | Onload None :: rest => (Thrown SyntaxError, rest, lg)
  | Onload (Some response) :: rest =>
      match response with
      | JNum num =>
          let code := getErrorName num in
          (Rejected code (Some (getErrorMessage code)), rest, lg)
      | JArr responses => (Resolved responses, rest, lg)
      | _ => (Rejected "empty" None, rest, lg)
      end
  | Onerror code msg :: rest =>
      if is_retry code then
        if nextTimeout <? 120 * 1000 * 1000 then
          doRequest url jsonReq (nextTimeout * 2) rest
            (lg ++ [Timer nextTimeout])
        else (Pending, rest, lg)
      else (Rejected code (Some msg), rest, lg)
  end.

Definition callMulti (requests : list json) : M (list json) := fun w =>
  let id := incr (callId w) in
  let url := mk_url id (sid w) (sidParamName w) in
  match doRequest url requests 10000 (script w) (log w) with
  | (o, sc, lg) =>
      (o, {| sid := sid w; sidParamName := sidParamName w; callId := id;
             script := sc; log := lg |})
  end.

(** [_.isNumber(r) && r < 0] decides between rejection and resolution. *)
Definition deliver (response : json) : outcome json :=
  match response with
  | JNum num =>
      if num <? 0 then
        let code := getErrorName num in
        Rejected code (Some (getErrorMessage code))
      else Resolved response
  | _ => Resolved response
  end.

Definition call (request : json) : M json :=
  done (callMulti [request])
       (fun responses w => (deliver (nth 0 responses JUndef), w)).

(** The own properties of the object given to [GW.define('MegaAPI', ...)]. *)
Definition properties : list string :=
  [ "host"; "errorMessages"; "errorCodes"; "getErrorName"; "getErrorMessage";
    "sid"; "sidParamName"; "callId"; "setSessionId"; "callMulti"; "call";
    "createBatch"; "registerEphemeral"; "tsOk"; "loginEphemeral"; "login";
    "getUser"; "updateUser"; "requestConfirmation"; "registerUser";
    "confirmUserFast"; "getConfirmationData"; "confirmUser";
    "completeUserReset"; "requestUserReset"; "addContact"; "removeContact";
    "getUsage"; "getPublicLink"; "removePublicLink"; "shareFolder";
    "unshareFolder"; "getPubkForAccount"; "deleteNode"; "moveNode";
    "renameNode"; "createFolder" ].

(** [api.name(request)] for a method that takes one request object: a
    name that is no property of the object is [undefined], and calling it
    throws. *)
Definition invoke (name : string) (request : json) : M json :=
  if negb (existsb (String.eqb name) properties)
  then thrown (TypeError (name +:+ " is not a function"))
  else if String.eqb name "call" then call request
  else thrown (NotModelled name).

(** *** tsOk, loginEphemeral, login, getUser *)

Definition tsOk (C : facade) (ts : option string) (mk : list Z)
  : result bool :=
  ts <- required "ts" ts ;;
  let tsbuf := ub64dec C ts in
  if (length tsbuf <? 32)%nat then Ret false
  else
    let ts1 := Buf.slicebuf tsbuf 0 16 in
    let ts2a := Buf.slicebuf tsbuf (length tsbuf - 16) 16 in
    let ts2b := aes_enc C mk ts1 in
    Ret (Buf.eqb ts2a ts2b).

Record login_result := {
  r_uh : option string;
  r_sid : option string;
  r_email : option string;
  r_password : string;
  r_pk : list Z;
  r_mk : list Z
}.

(** The identifiers in scope in the [done] callbacks of [loginEphemeral]
    and [login]: the callback's parameter and locals, the parameters and
    locals of the enclosing method, and the globals the two files use. *)
Definition loginEphemeral_scope : list string :=
  [ "res"; "pk"; "emk"; "mk"; "uh"; "password";
    "C"; "Defer"; "GW"; "Log"; "_"; "JSON"; "Duktape"; "MegaAPI";
    "Session"; "Filesystem"; "NodeType" ].

Definition login_scope : list string :=
  [ "res"; "emk"; "mk"; "sid"; "pk"; "email"; "password";
    "C"; "Defer"; "GW"; "Log"; "_"; "JSON"; "Duktape"; "MegaAPI";
    "Session"; "Filesystem"; "NodeType" ].

(** [defer.reject(code, msg); return;] where [defer] is looked up in
    [scope]: an unbound identifier is a [ReferenceError]. *)
Definition defer_reject {A} (scope : list string) (code msg : string)
  : M A :=
  if existsb (String.eqb "defer") scope
  then rejected code (Some msg)
  else thrown (ReferenceError "defer").

Definition loginEphemeral (C : facade) (uh password : string)
  : M login_result := fun w =>
  done (call (JObj [("a", JStr "us"); ("user", JStr uh)]))
    (fun res =>
       let pk := aes_key_from_password C password in
       done (lift (k <- prop res "k" ;; k <- opt_string k ;;
                   k <- required "res.k" k ;;
                   tsid <- prop res "tsid" ;; tsid <- opt_string tsid ;;
                   let mk := aes_dec C pk (ub64dec C k) in
                   ok <- tsOk C tsid mk ;;
                   Ret (mk, tsid, ok)))
         (fun '(mk, tsid, ok) =>
            if negb ok then
              defer_reject loginEphemeral_scope "invalid_tsid"
                "Invalid password (TSID verification failed)"
            else fun w' =>
              resolved {| r_uh := Some uh; r_sid := tsid; r_email := None;
                          r_password := password; r_pk := pk; r_mk := mk |}
                (setSessionId tsid None w')))
    (setSessionId None None w).

Definition login (C : facade) (email password : string) : M login_result :=
  fun w =>
  let pk := aes_key_from_password C password in
  done (call (JObj [("a", JStr "us");
                    ("uh", JStr (make_username_hash C pk email));
                    ("user", JStr (toLowerCase email))]))
    (fun res =>
       done (lift (k <- prop res "k" ;; k <- opt_string k ;;
                   k <- required "res.k" k ;;
                   csid <- prop res "csid" ;; csid <- opt_string csid ;;
                   tsid <- prop res "tsid" ;; tsid <- opt_string tsid ;;
                   privk <- prop res "privk" ;; privk <- opt_string privk ;;
                   u <- prop res "u" ;; u <- opt_string u ;;
                   Ret (aes_dec C pk (ub64dec C k), csid, tsid, privk, u)))
         (fun '(mk, csid, tsid, privk, u) =>
            let finish (s : option string) : M login_result := fun w' =>
              resolved {| r_uh := u; r_sid := s; r_email := Some email;
                          r_password := password; r_pk := pk; r_mk := mk |}
                (setSessionId s None w') in
            if str_truthy csid then
              let s := rsa_decrypt_sid C privk mk (default "" csid) in
              if negb (str_truthy s) then
                defer_reject login_scope "sid_decrypt_fail"
                  "Invalid password (CSID decryption failed)"
              else finish s
            else if str_truthy tsid then
              done (lift (tsOk C tsid mk))
                (fun ok =>
                   if negb ok then
                     defer_reject login_scope "invalid_tsid"
                       "Invalid password (TSID verification failed)"
                   else finish tsid)
            else finish None))
    (setSessionId None None w).

(** [getUser]: resolves with [{user: user}]. *)
Definition getUser : M json :=
  done (call (JObj [("a", JStr "ug")]))
       (fun user => resolved (JObj [("user", user)])).

(** *** Node attributes *)

Definition MEGA_brace : list Z := Buf.of_string "MEGA{".



End MegaAPI.

(** *** MegaAPI.CallBatch *)

Module CallBatch.
Import MegaAPI.

(** [_.each(responses, function(response, idx) { calls[idx]... })]: the
    state of the continuations, and the exception if [calls[idx]] is
    [undefined]. *)
Fixpoint each (responses : list json) (idx : nat)
    (calls : list (outcome json)) : list (outcome json) * option js_error :=
  match responses with
  | [] => (calls, None)
  | response :: rest =>
      match calls !! idx with
      | None => (calls, Some (TypeError "defer is undefined"))
      | Some _ => each rest (S idx) (<[idx := deliver response]> calls)
      end
  end.

(** [send]: the continuations of the accumulated requests, all pending
    before, and the exception if a callback threw. *)
Definition send (requests : list json) (w : world)
  : list (outcome json) * option js_error * world :=
  let calls := repeat (@Pending json) (length requests) in
  if (0 <? length requests)%nat then
    match callMulti requests w with
    | (Resolved responses, w') => (each responses 0 calls, w')
    | (Rejected code msg, w') =>
        (map (fun _ => Rejected code msg) calls, None, w')
    | (Pending, w') => (calls, None, w')
    | (Thrown e, w') => (calls, Some e, w')
    end
  else (calls, None, w).

End CallBatch.

(** ** Session (session.js) *)

Module Session.

Record credentials := {
  username : string;
  password : string;
  pk : list Z
}.

Record session := {
  cred : credentials;
  data : session_data;
  fs : filesystem
}.

(** [timeout: 60 * 60], one hour in seconds. *)
Definition timeout : Z := 60 * 60.

Definition empty_data : session_data :=
  {| d_user := JUndef; d_uh := None; d_pubk := None; d_privk := None;
     d_mk := None; d_sid := None; d_sidParamName := None; d_saved := None;
     d_isExportedFolder := false |}.

Definition empty_fs : filesystem := {| nodes := ∅; share_keys := ∅ |}.

Definition setCredentials (C : facade) (u p : string) : credentials :=
  {| username := u; password := p; pk := aes_key_from_password C p |}.

Definition initObject (c : credentials) : session :=
  {| cred := c; data := empty_data; fs := empty_fs |}.

(** [name || ''] *)
Definition name_or_empty (name : option string) : string :=
  match name with Some n => n | None => "" end.

(** [C.sha256_digest(Duktape.Buffer(username + password + (name || '')))] *)
Definition name_digest (C : facade) (s : credentials) (name : option string)
  : list Z :=
  sha256_digest C
    (Buf.of_string (username s +:+ password s +:+ name_or_empty name)).

Definition getSessionFilePath (C : facade) (s : credentials)
    (name : option string) : string :=
  let digest := name_digest C s name in
  let ed := ub64enc C (aes_enc_cbc C (pk s) digest) in
  get_tmp_dir C
    +:+ (if String.eqb (os C) "windows" then "\" else "/")
    +:+ String.substring 0 30 ed.

Definition loadSessionFile (C : facade) (s : credentials)
    (disk : gmap string (list Z)) (name : option string) : option (list Z) :=
  let path := getSessionFilePath C s name in
  match Native.file_read disk path with
  | None => None
  | Some data =>
    if negb (Buf.truthy data) then None
    else
      let nonce := Buf.slicebuf (name_digest C s name) 0 8 in
      let plain := Native.aes_ctr C (pk s) nonce 0 data in
      let plain_digest := Buf.slicebuf plain 0 32 in
      let plain_payload := Buf.slicebuf_from plain 32 in
      if negb (Buf.eqb (sha256_digest C plain_payload) plain_digest)
      then None
      else Some plain_payload
  end.

Definition saveSessionFile (C : facade) (s : credentials)
    (disk : gmap string (list Z)) (name : option string)
    (plain_payload : list Z) : gmap string (list Z) * bool :=
  let path := getSessionFilePath C s name in
  let plain_digest := sha256_digest C plain_payload in
  let plain := Buf.joinbuf plain_digest plain_payload in
  let nonce := Buf.slicebuf (name_digest C s name) 0 8 in
  let data := Native.aes_ctr C (pk s) nonce 0 plain in
  Native.file_write C disk path data.

Definition removeSessionFile (C : facade) (s : credentials)
    (disk : gmap string (list Z)) (name : option string)
  : gmap string (list Z) :=
  Native.file_remove disk (getSessionFilePath C s name).

(** [load]: [Duktape.dec] throws on text it cannot decode. *)
Definition load (C : facade) (s : session) (disk : gmap string (list Z))
  : result (session * bool) :=
  match loadSessionFile C (cred s) disk None with
  | None => Ret (s, false)
  | Some plain_payload =>
    if negb (Buf.truthy plain_payload) then Ret (s, false)
    else
      d <- match jx_dec_session C (Buf.to_string plain_payload) with
           | Some d => Ret d
           | None => Throw SyntaxError
           end ;;
      let s1 := {| cred := cred s; data := d; fs := fs s |} in
      match loadSessionFile C (cred s) disk (Some "fs") with
      | Some fs_data =>
        if Buf.truthy fs_data then
          match jx_dec_fs C (Buf.to_string fs_data) with
          | Some f => Ret ({| cred := cred s; data := d; fs := f |}, true)
          | None => Throw SyntaxError
          end
        else Ret (s1, true)
      | None => Ret (s1, true)
      end
  end.

(** [save], at time [now], with the API object in state [w]. *)
Definition save (C : facade) (s : session) (now : Z)
    (disk : gmap string (list Z)) (w : MegaAPI.world)
  : session * gmap string (list Z) * bool :=
  let d := data s in
  let d' := {| d_user := d_user d; d_uh := d_uh d; d_pubk := d_pubk d;
               d_privk := d_privk d; d_mk := d_mk d;
               d_sid := MegaAPI.sid w;
               d_sidParamName := MegaAPI.sidParamName w;
               d_saved := Some now;
               d_isExportedFolder := d_isExportedFolder d |} in
  let disk1 :=
    fst (saveSessionFile C (cred s) disk (Some "fs")
           (Buf.of_string (jx_enc_fs C (fs s)))) in
  let '(disk2, ok) :=
    saveSessionFile C (cred s) disk1 None
      (Buf.of_string (jx_enc_session C d')) in
  ({| cred := cred s; data := d'; fs := fs s |}, disk2, ok).

(** [this.data.saved && this.data.saved > now - this.timeout * 1000] *)
Definition isFresh (s : session) (now : Z) : bool :=
  match d_saved (data s) with
  | Some saved => negb (saved =? 0) && (now - timeout * 1000 <? saved)
  | None => false
  end.

(** [/^[a-zA-Z0-9_-]{11}$/] *)
Definition isEphemeral (s : session) : bool :=
  let u := username (cred s) in
  negb (String.eqb u "")
  && (String.length u =? 11)%nat
  && forallb is_handle_char (list_ascii_of_string u).

(** The state [open] works on: the session object and the disk. *)
Definition state : Type := session * gmap string (list Z).

Definition set_mk (s : session) (mk : list Z) : session :=
  let d := data s in
  {| cred := cred s;
     data := {| d_user := d_user d; d_uh := d_uh d; d_pubk := d_pubk d;
                d_privk := d_privk d; d_mk := Some mk; d_sid := d_sid d;
                d_sidParamName := d_sidParamName d; d_saved := d_saved d;
                d_isExportedFolder := d_isExportedFolder d |};
     fs := fs s |}.

Definition set_user (s : session) (user : json) (u pubk privk : option string)
  : session :=
  let d := data s in
  {| cred := cred s;
     data := {| d_user := user; d_uh := u; d_pubk := pubk; d_privk := privk;
                d_mk := d_mk d; d_sid := d_sid d;
                d_sidParamName := d_sidParamName d; d_saved := d_saved d;
                d_isExportedFolder := d_isExportedFolder d |};
     fs := fs s |}.

(** The local [getUser] of [open]: on success it merges the answer into
    [me.data] and saves, at time [later]. *)
Definition open_getUser (C : facade) (later : Z) (st : state)
    (w : MegaAPI.world) : outcome unit * state * MegaAPI.world :=
  match MegaAPI.getUser w with
  | (Resolved res, w') =>
      match (user <- prop res "user" ;;
             u <- prop user "u" ;; u <- opt_string u ;;
             pubk <- prop user "pubk" ;; pubk <- opt_string pubk ;;
             privk <- prop user "privk" ;; privk <- opt_string privk ;;
             Ret (user, u, pubk, privk)) with
      | Ret (user, u, pubk, privk) =>
          let '(s', disk', _) :=
            save C (set_user (fst st) user u pubk privk) later (snd st) w' in
          (Resolved tt, (s', disk'), w')
      | Throw e => (Thrown e, st, w')
      end
  | (Rejected code msg, w') => (Rejected code msg, st, w')
  | (Pending, w') => (Pending, st, w')
  | (Thrown e, w') => (Thrown e, st, w')
  end.

(** The local [login] of [open]. *)
Definition open_login (C : facade) (st : state) (w : MegaAPI.world)
  : outcome unit * state * MegaAPI.world :=
  let c := cred (fst st) in
  match (if isEphemeral (fst st)
         then MegaAPI.loginEphemeral C (username c) (password c) w
         else MegaAPI.login C (username c) (password c) w) with
  | (Resolved res, w') =>
      (Resolved tt, (set_mk (fst st) (MegaAPI.r_mk res), snd st), w')
  | (Rejected code msg, w') => (Rejected code msg, st, w')
  | (Pending, w') => (Pending, st, w')
  | (Thrown e, w') => (Thrown e, st, w')
  end.

Definition loginAndGetUser (C : facade) (later : Z) (st : state)
    (w : MegaAPI.world) : outcome unit * state * MegaAPI.world :=
  match open_login C st w with
  | (Resolved _, st', w') => open_getUser C later st' w'
  | other => other
  end.

(** [open(forceCheck)], called at time [now]. *)
Definition open (C : facade) (forceCheck : bool) (now later : Z)
    (st : state) (w : MegaAPI.world)
  : outcome unit * state * MegaAPI.world :=
  match load C (fst st) (snd st) with
  | Throw e => (Thrown e, st, w)
  | Ret (s1, true) =>
      if isFresh s1 now && negb forceCheck then (Resolved tt, (s1, snd st), w)
      else
        let w1 := MegaAPI.setSessionId (d_sid (data s1))
                    (d_sidParamName (data s1)) w in
        match open_getUser C later (s1, snd st) w1 with
        | (Rejected _ _, st2, w2) => loginAndGetUser C later st2 w2
        | other => other
        end
  | Ret (s1, false) => loginAndGetUser C later (s1, snd st) w
  end.

Definition close (C : facade) (st : state) : state :=
  (fst st,
   removeSessionFile C (cred (fst st))
     (removeSessionFile C (cred (fst st)) (snd st) None) (Some "fs")).

End Session.

(** ** Filesystem (session.js) *)

Module NodeType.
Definition FILE : Z := 0.
Definition FOLDER : Z := 1.
Definition ROOT : Z := 2.
Definition INBOX : Z := 3.
Definition RUBBISH : Z := 4.
Definition NETWORK : Z := 9.
Definition CONTACT : Z := 8.
Definition TOP : Z := 9.
End NodeType.

Module Filesystem.

(** An entry of [r.f], at the types the protocol gives its fields. *)
Record node_data := {
  nd_t : option Z;
  nd_h : option string;
  nd_p : option string;
  nd_su : option string;
  nd_u : option string;
  nd_s : option Z;
  nd_ts : option Z;
  nd_k : option string;
  nd_a : option string;
  nd_sk : option string
}.

Definition node_data_of (v : json) : result node_data :=
  t <- prop v "t" ;; t <- opt_number t ;;
  h <- prop v "h" ;; h <- opt_string h ;;
  p <- prop v "p" ;; p <- opt_string p ;;
  su <- prop v "su" ;; su <- opt_string su ;;
  u <- prop v "u" ;; u <- opt_string u ;;
  s <- prop v "s" ;; s <- opt_number s ;;
  ts <- prop v "ts" ;; ts <- opt_number ts ;;
  k <- prop v "k" ;; k <- opt_string k ;;
  a <- prop v "a" ;; a <- opt_string a ;;
  sk <- prop v "sk" ;; sk <- opt_string sk ;;
  Ret {| nd_t := t; nd_h := h; nd_p := p; nd_su := su; nd_u := u; nd_s := s;
         nd_ts := ts; nd_k := k; nd_a := a; nd_sk := sk |}.

(** [getShareKey(handle)]: [this.share_keys[handle]], a read of the
    array that holds the keys under the handles. *)
Definition getShareKey (f : filesystem) (h : string)
  : result (option (list Z)) :=
  get (share_keys f) h.

Definition setShareKey (f : filesystem) (h : string) (k : list Z)
  : filesystem :=
  {| nodes := nodes f; share_keys := <[h := k]> (share_keys f) |}.

Definition set_node (f : filesystem) (h : string) (n : node) : filesystem :=
  {| nodes := <[h := n]> (nodes f); share_keys := share_keys f |}.

(** The longest prefix of [s] in the class [[0-9a-z_-]], case ignored. *)
Fixpoint span_handle (s : string) : string * string :=
  match s with
  | EmptyString => (EmptyString, EmptyString)
  | String c rest =>
      if is_handle_char c
      then let (a, b) := span_handle rest in (String c a, b)
      else (EmptyString, s)
  end.

(** [k.match(/[0-9a-z_-]{8,11}:[0-9a-z_-]{22,45}/ig)], each match split at
    its colon: a match starts where 8 to 11 class characters run up to a
    colon that 22 or more class characters follow, takes at most 45 of
    them, and the search goes on behind it. *)
Fixpoint match_keys_from (fuel : nat) (s : string) : list (string * string) :=
  match fuel with
  | O => []
  | S fuel' =>
    match s with
    | EmptyString => []
    | String _ next =>
      let (h, rest) := span_handle s in
      let lh := String.length h in
      if ((8 <=? lh) && (lh <=? 11))%nat then
        match rest with
        | String ":" rest' =>
            let (d, after) := span_handle rest' in
            let ld := String.length d in
            if (22 <=? ld)%nat then
              (h, String.substring 0 45 d)
              :: match_keys_from fuel'
                   (String.substring 45 (ld - 45) d +:+ after)
            else match_keys_from fuel' next
        | _ => match_keys_from fuel' next
        end
      else match_keys_from fuel' next
    end
  end.

Definition match_keys (s : string) : list (string * string) :=
  match_keys_from (S (String.length s)) s.

Definition buf_truthy (b : option (list Z)) : bool :=
  match b with Some x => Buf.truthy x | None => false end.

Definition set_key (n : node) (kf k : option (list Z)) : node :=
  {| type := type n; handle := handle n; parent_handle := parent_handle n;
     su_handle := su_handle n; user := user n; size := size n;
     mtime := mtime n; key_full := kf; key := k; attrs := attrs n;
     name := name n |}.

Definition set_attrs (n : node) (a : option json) (nm : json) : node :=
  {| type := type n; handle := handle n; parent_handle := parent_handle n;
     su_handle := su_handle n; user := user n; size := size n;
     mtime := mtime n; key_full := key_full n; key := key n; attrs := a;
     name := nm |}.

Definition set_name (n : node) (nm : json) : node := set_attrs n (attrs n) nm.

(** [for (var key in matches)]: every pair must find its key ([Ret None]
    is the [return null]); the last pair decides [n.key]. *)
Fixpoint load_keys (C : facade) (sd : session_data) (f : filesystem)
    (matches : list (string * string)) (n : node) : result (option node) :=
  match matches with
  | [] => Ret (Some n)
  | (keyHandle, keyText) :: rest =>
      let keyData := ub64dec C keyText in
      decKey <- (if bool_decide (d_uh sd = Some keyHandle) then Ret (d_mk sd)
                 else getShareKey f keyHandle) ;;
      match decKey with
      | Some dk =>
          if Buf.truthy dk then
            if bool_decide (type n = Some NodeType.FILE) then
              let kf := aes_dec C dk keyData in
              load_keys C sd f rest
                (set_key n (Some kf) (Some (file_node_key_unpack C kf)))
            else
              load_keys C sd f rest
                (set_key n (key_full n) (Some (aes_dec C dk keyData)))
          else Ret None
      | None => Ret None
      end
  end.

(** The pattern of the Windows branch: a slash, a backslash, [<], [>], a
    colon, a double quote, a bar, a question mark and a star, each escaped
    where the syntax needs it, one after the other and outside any
    character class. *)
Definition windows_pattern : string :=
  "/\<>:" +:+ String "034"%char "|?*".

(** The name test of [importNode]; [true] is the [return null]. *)
Definition invalid_name (C : facade) (nm : json) : result bool :=
  match nm with
  | JStr s =>
      Ret (String.eqb s "." || String.eqb s ".."
           || contains (if String.eqb (os C) "windows"
                        then windows_pattern else "/") s)
  | JArr _ | JObj _ => Throw (NotModelled "name is an object")
  | _ => Throw (TypeError "n.name.match is not a function")
  end.

(** The [sk] branch of [importNode], for the value [sk] of the local
    variable of that name. *)
Definition import_sk (C : facade) (sd : session_data) (f : filesystem)
    (n : node) (sk : option (list Z)) : result filesystem :=
  match sk with
  | None => Throw (TypeError "cannot read property length of undefined")
  | Some skb =>
      sk' <- (if (16 <? length skb)%nat then
                mk <- required "mk" (d_mk sd) ;;
                Ret (rsa_decrypt C (d_privk sd) mk skb)
              else if (length skb =? 16)%nat then
                mk <- required "mk" (d_mk sd) ;;
                Ret (Some (aes_dec C mk skb))
              else Ret (Some skb)) ;;
      if buf_truthy sk' then
        Ret (setShareKey f (default "undefined" (handle n))
               (Buf.slicebuf (default [] sk') 0 16))
      else Ret f
  end.

(** The node before its key is loaded. *)
Definition init_node (data : node_data) : node :=
  {| type := nd_t data; handle := nd_h data;
     parent_handle :=
       Some (if str_truthy (nd_p data) then default "" (nd_p data)
             else "*TOP*");
     su_handle := nd_su data; user := nd_u data; size := nd_s data;
     mtime := nd_ts data; key_full := None; key := None; attrs := None;
     name := JUndef |}.

(** The block that loads the key: [if (data.k) { ... }]. *)
Definition import_keys (C : facade) (sd : session_data) (f : filesystem)
    (data : node_data) : result (option node) :=
  if str_truthy (nd_k data)
  then load_keys C sd f (match_keys (default "" (nd_k data))) (init_node data)
  else Ret (Some (init_node data)).

(** The block that decrypts the attributes and tests the name:
    [if (n.key && data.a) { ... }]; [Ret None] is the [return null].
    [JSON.parse] of the null that [buftojsonstring] may give is null. *)
Definition import_attrs (C : facade) (n : node) (data : node_data)
  : result (option node) :=
  if buf_truthy (key n) && str_truthy (nd_a data) then
    let a := ub64dec C (default "" (nd_a data)) in
    match aes_dec_cbc C (default [] (key n)) a with
    | Some attrs =>
      if Buf.truthy attrs
         && Buf.eqb (Buf.slicebuf attrs 0 5) MegaAPI.MEGA_brace then
        parsed <- match buftojsonstring C (Buf.slicebuf_from attrs 4) with
                  | Some text =>
                      match JSON_parse C text with
                      | Some v => Ret v
                      | None => Throw SyntaxError
                      end
                  | None => Ret JNull
                  end ;;
        nm <- prop parsed "n" ;;
        bad <- invalid_name C nm ;;
        if bad then Ret None
        else Ret (Some (set_attrs n (Some parsed) nm))
      else Ret None
    | None => Ret None
    end
  else Ret (Some n).

(** The fixed names of the root-class nodes. *)
Definition fixed_name (n : node) : node :=
  if bool_decide (type n = Some NodeType.RUBBISH)
  then set_name n (JStr "Rubbish")
  else if bool_decide (type n = Some NodeType.INBOX)
  then set_name n (JStr "Inbox")
  else if bool_decide (type n = Some NodeType.ROOT)
  then set_name n (JStr "Root")
  else n.

(** [importNode(data)]: [Ret (None, _)] is the [return null].  In the
    [sk] block the local variable [sk] is declared and read before
    anything is assigned to it: its value there is [undefined]. *)
Definition importNode (C : facade) (sd : session_data) (f : filesystem)
    (data : node_data) : result (option node * filesystem) :=
  n1 <- import_keys C sd f data ;;
  match n1 with
  | None => Ret (None, f)
  | Some n1 =>
    n2 <- import_attrs C n1 data ;;
    match n2 with
    | None => Ret (None, f)
    | Some n2 =>
      let n3 := fixed_name n2 in
      if str_truthy (nd_sk data) then
        f' <- import_sk C sd f n3 None ;;
        Ret (Some n3, f')
      else Ret (Some n3, f)
    end
  end.

(** The own properties of the object given to
    [GW.define('Filesystem', ...)]. *)
Definition properties : list string :=
  [ "initObject"; "getData"; "setData"; "importNode"; "load";
    "getNodeByHandle"; "mapPaths"; "getPaths"; "getNodeByPath";
    "getNodePath"; "mapChildren"; "getChildren"; "getShareKey";
    "setShareKey" ].

Definition virtual_node (nm : string) (t : Z) (h : string)
    (parent : option string) (mt : option Z) : node :=
  {| type := Some t; handle := Some h; parent_handle := parent;
     su_handle := None; user := None; size := Some 0; mtime := mt;
     key_full := None; key := None; attrs := None; name := JStr nm |}.

(** The loop over [r.ok]. *)
Fixpoint load_ok (C : facade) (mk : list Z) (oks : list json)
    (f : filesystem) : result filesystem :=
  match oks with
  | [] => Ret f
  | ok :: rest =>
      h <- prop ok "h" ;; h <- opt_string h ;; h <- required "ok.h" h ;;
      eha <- prop ok "ha" ;; eha <- opt_string eha ;;
      eha <- required "ok.ha" eha ;;
      ek <- prop ok "k" ;; ek <- opt_string ek ;; ek <- required "ok.k" ek ;;
      let hb := Buf.of_string h in
      let ha := aes_dec C mk (ub64dec C eha) in
      let k := aes_dec C mk (ub64dec C ek) in
      load_ok C mk rest
        (if Buf.eqb ha (Buf.joinbuf hb hb) then setShareKey f h k else f)
  end.

(** The loop over [r.f]. *)
Fixpoint load_f (C : facade) (sd : session_data) (fl : list json)
    (f : filesystem) : result filesystem :=
  match fl with
  | [] => Ret f
  | v :: rest =>
      data <- node_data_of v ;;
      r <- importNode C sd f data ;;
      load_f C sd rest
        (match fst r with
         | Some n => set_node (snd r) (default "undefined" (handle n)) n
         | None => snd r
         end)
  end.

(** The loop over [r.u]. *)
Fixpoint load_u (ul : list json) (f : filesystem) : result filesystem :=
  match ul with
  | [] => Ret f
  | u :: rest =>
      c <- prop u "c" ;; c <- opt_number c ;;
      h <- prop u "u" ;; h <- opt_string h ;;
      m <- prop u "m" ;;
      ts <- prop u "ts" ;; ts <- opt_number ts ;;
      load_u rest
        (if bool_decide (c = Some 1) then
           set_node f (default "undefined" h)
             {| type := Some NodeType.CONTACT; handle := h;
                parent_handle := Some "*NETWORK"; su_handle := None;
                user := None; size := Some 0; mtime := ts; key_full := None;
                key := None; attrs := None; name := m |}
         else f)
  end.

(** The callback of [load], up to the contact nodes. [mapPaths()] and
    [mapChildren()] then index [nodes] by path and by parent; the two
    indexes are modelled in [Tree].  The master key is read inside the
    loop over [r.ok]: an empty [r.ok] does not ask for it, and without
    it the first entry throws where [C.aes_dec] is handed [undefined]. *)
Definition load_done (C : facade) (sd : session_data) (f : filesystem)
    (r : json) : result filesystem :=
  let f0 :=
    {| nodes := {[ "*TOP*" := virtual_node "" NodeType.TOP "*TOP*" None
                                 (Some 0) ]};
       share_keys := share_keys f |} in
  oks <- prop r "ok" ;; oks <- opt_array oks ;;
  f1 <- match oks with
        | Some (ok :: rest) =>
            match d_mk sd with
            | Some mk => load_ok C mk (ok :: rest) f0
            | None =>
                h <- prop ok "h" ;; h <- opt_string h ;;
                h <- required "ok.h" h ;;
                eha <- prop ok "ha" ;; eha <- opt_string eha ;;
                eha <- required "ok.ha" eha ;;
                Throw (TypeError "mk is undefined")
            end
        | Some [] | None => Ret f0
        end ;;
  fl <- prop r "f" ;; fl <- opt_array fl ;;
  f2 <- match fl with
        | Some l =>
            if d_isExportedFolder sd then
              if existsb (String.eqb "addShareKey") properties
              then Throw (NotModelled "addShareKey")
              else Throw (TypeError "addShareKey is not a function")
            else load_f C sd l f1
        | None => Ret f1
        end ;;
  let f3 := set_node f2 "*NETWORK"
              (virtual_node "Contacts" NodeType.NETWORK "*NETWORK"
                 (Some "*TOP*") (Some 0)) in
  ul <- prop r "u" ;; ul <- opt_array ul ;;
  match ul with
  | Some l => load_u l f3
  | None => Ret f3
  end.

(** The request of [load]. *)
Definition f_request : json :=
  JObj [("a", JStr "f"); ("c", JNum 1); ("r", JNum 1)].

(** [this.session.api.method({a: 'f', c: 1, r: 1}).done(...)] *)
Definition load_through (method : string) (C : facade) (sd : session_data)
    (f : filesystem) : MegaAPI.M filesystem :=
  MegaAPI.done (MegaAPI.invoke method f_request)
    (fun r => MegaAPI.lift (load_done C sd f r)).

(** [load]: the method it calls is [callSingle]. *)
Definition load (C : facade) (sd : session_data) (f : filesystem)
  : MegaAPI.M filesystem :=
  load_through "callSingle" C sd f.

End Filesystem.

(** ** A small facade to run the definitions on

    Stand-ins with the shapes of the native helpers (a 32-byte digest, an
    involutive block operation, zero padding, a reader of one-field
    objects), for evaluating the definitions above on concrete inputs. *)

Module Toy.

Definition digest (b : list Z) : list Z :=
  repeat (fold_right Z.add 0 b mod 256) 32.

Definition block (k b : list Z) : list Z :=
  map (Z.lxor (nth 0 k 0 mod 256)) b.

Definition pad (b : list Z) (n : nat) : list Z :=
  b ++ repeat 0 ((n - length b mod n) mod n)%nat.

Fixpoint until_zero (b : list Z) : list Z :=
  match b with
  | [] => []
  | x :: rest => if x =? 0 then [] else x :: until_zero rest
  end.

Definition quote : string := String "034"%char EmptyString.

(** The text of the object with the one field [n] holding [s]. *)
Definition name_object (s : string) : string :=
  "{" +:+ quote +:+ "n" +:+ quote +:+ ":" +:+ quote +:+ s +:+ quote +:+ "}".

Definition stringify (v : json) : string :=
  match v with
  | JObj [] => "{}"
  | JObj [(_, JStr s)] => name_object s
  | _ => "null"
  end.

Definition parse (text : string) : option json :=
  let head := "{" +:+ quote +:+ "n" +:+ quote +:+ ":" +:+ quote in
  let n := String.length text in
  if String.eqb text "{}" then Some (JObj [])
  else if String.prefix head text
          && String.eqb (String.substring (n - 2) 2 text) (quote +:+ "}")
  then Some (JObj [("n", JStr (String.substring 6 (n - 8) text))])
  else None.

Definition a_session : session_data :=
  {| d_user := JUndef; d_uh := Some "AAAAAAAAAAA"; d_pubk := None;
     d_privk := None; d_mk := Some [7]; d_sid := Some "sid0";
     d_sidParamName := None; d_saved := Some 1700000000000;
     d_isExportedFolder := false |}.

Definition on (platform : string) : facade :=
  {| os := platform;
     get_tmp_dir := "/tmp";
     writable := fun _ => true;
     aes_key_from_password := fun p => firstn 16 (Buf.of_string p ++ repeat 0 16%nat);
     sha256_digest := digest;
     ub64enc := Buf.to_string;
     ub64dec := Buf.of_string;
     aes_enc := block;
     aes_dec := block;
     aes_enc_cbc := fun _ b => b;
     aes_dec_cbc := fun _ b => Some b;
     rsa_decrypt := fun _ _ b => Some b;
     rsa_decrypt_sid := fun _ _ csid => Some csid;
     file_node_key_unpack := firstn 16;
     make_username_hash := fun _ e => e;
     alignbuf := fun b n _ => pad b n;
     buftojsonstring := fun b => Some (Buf.to_string (until_zero b));
     JSON_parse := parse;
     JSON_stringify := stringify;
     jx_enc_session := fun _ => "session";
     jx_dec_session := fun _ => Some a_session;
     jx_enc_fs := fun _ => "fs";
     jx_dec_fs := fun _ => Some Session.empty_fs |}.

Definition C : facade := on "linux".

Definition alice : Session.credentials := Session.setCredentials C "alice" "pw".

Definition world0 (sc : list MegaAPI.http_event) : MegaAPI.world :=
  {| MegaAPI.sid := None; MegaAPI.sidParamName := None; MegaAPI.callId := 0;
     MegaAPI.script := sc; MegaAPI.log := [] |}.

End Toy.

(** ** What the specification expects of the engine

    Definitions that follow the specification's words, for the statements
    about [callMulti] to compare the code with. *)

Module Spec.
Import MegaAPI.

(** The traffic of [k] retries: request [i] is followed by a timer of
    [10 s * 2^i]. *)
Definition backoff (url : string) (requests : list json) (k : nat)
  : list io_event :=
  flat_map (fun i => [Http url requests; Timer (10000 * 2 ^ Z.of_nat i)])
           (seq 0 k).

(** How the answer that ends the retries settles the batch. *)
Definition answer (e : http_event) : outcome (list json) :=
  match e with
  | Onload None => Thrown SyntaxError
  | Onload (Some (JNum num)) =>
      Rejected (getErrorName num) (Some (getErrorMessage (getErrorName num)))
  | Onload (Some (JArr responses)) => Resolved responses
  | Onload (Some _) => Rejected "empty" None
  | Onerror code msg => Rejected code (Some msg)
  end.

(** A transport failure that asks for a retry. *)
Definition retryable (e : http_event) : bool :=
  match e with
  | Onerror code _ => String.eqb code "busy" || String.eqb code "no_response"
  | Onload _ => false
  end.

End Spec.

(** ** Sample inputs *)

Module Sample.

(** A login answer whose [tsid] is too short to pass the check. *)
Definition bad_login : list MegaAPI.http_event :=
  [MegaAPI.Onload
     (Some (JArr [JObj [("k", JStr "0123456789abcdef");
                        ("tsid", JStr "short");
                        ("u", JStr "AAAAAAAAAAA")]]))].

(** Two transient failures, then an array with an error at position 1. *)
Definition flaky : list MegaAPI.http_event :=
  [MegaAPI.Onerror "busy" "try again";
   MegaAPI.Onerror "no_response" "timed out";
   MegaAPI.Onload (Some (JArr [JStr "ok1"; JNum (-9); JStr "ok3"]))].

Definition three : list json :=
  [JObj [("a", JStr "l"); ("n", JStr "h1")];
   JObj [("a", JStr "l"); ("n", JStr "h2")];
   JObj [("a", JStr "l"); ("n", JStr "h3")]].

(** A session of alice, saved at 1 700 000 000 000 ms. *)
Definition session0 : Session.session := Session.initObject Toy.alice.

Definition saved_disk : gmap string (list Z) :=
  snd (fst (Session.save Toy.C session0 1700000000000 ∅ (Toy.world0 []))).

Definition loaded : Session.session :=
  {| Session.cred := Toy.alice; Session.data := Toy.a_session;
     Session.fs := Session.empty_fs |}.

(** A folder node that only carries a share key. *)
Definition shared_folder : Filesystem.node_data :=
  {| Filesystem.nd_t := Some 1; Filesystem.nd_h := Some "HHHHHHHH";
     Filesystem.nd_p := None; Filesystem.nd_su := None;
     Filesystem.nd_u := None; Filesystem.nd_s := None;
     Filesystem.nd_ts := None; Filesystem.nd_k := None;
     Filesystem.nd_a := None;
     Filesystem.nd_sk := Some "0123456789abcdef" |}.

(** A file node of the user, whose attributes name it [a:b]. *)
Definition colon_file : Filesystem.node_data :=
  {| Filesystem.nd_t := Some 0; Filesystem.nd_h := Some "FFFFFFFF";
     Filesystem.nd_p := Some "PPPPPPPP"; Filesystem.nd_su := None;
     Filesystem.nd_u := Some "AAAAAAAAAAA"; Filesystem.nd_s := Some 3;
     Filesystem.nd_ts := Some 1; 
     Filesystem.nd_k := Some "AAAAAAAAAAA:0123456789abcdefghijklmnopqrstuv";
     Filesystem.nd_a := Some ("MEGA" +:+ Toy.name_object "a:b");
     Filesystem.nd_sk := None |}.

(** [colon_file] with its key loaded. *)
Definition colon_keyed : node :=
  Eval vm_compute in
    match Filesystem.import_keys (Toy.on "windows") Toy.a_session
            Session.empty_fs colon_file with
    | Ret (Some n) => n
    | _ => Filesystem.init_node colon_file
    end.

End Sample.

(** ** The other calls of MegaAPI (api.js) *)

Module Calls.
Import MegaAPI.

(** Modelled from the spec: [C.zerobuf(n)]. *)
Definition zerobuf (n : nat) : list Z := repeat 0 n.

(** [v[i]] on an answer: an element of an array, [undefined] past its end
    or on a value without indexed properties; reading an index of
    [undefined] or [null] throws. *)
Definition index (v : json) (i : nat) : result json :=
  match v with
  | JUndef | JNull => Throw (TypeError "cannot read an index")
  | JArr l => Ret (nth i l JUndef)
  | _ => Ret JUndef
  end.

Record registered := {
  g_uh : json;
  g_password : string;
  g_ts : list Z;
  g_mk : list Z;
  g_pk : list Z
}.

(** The request of [registerEphemeral]. *)
Definition register_request (C : facade) (password : string)
    (mk ts1 : list Z) : json :=
  let pk := aes_key_from_password C password in
  let emk := aes_enc C pk mk in
  let ts2 := aes_enc C mk ts1 in
  let ts := Buf.joinbuf ts1 ts2 in
  JObj [("a", JStr "up"); ("k", JStr (ub64enc C emk));
        ("ts", JStr (ub64enc C ts))].

(** [registerEphemeral(password)], where [mk] is the key that
    [C.aes_key_random()] draws and [ts1] the bytes [C.random(16)] draws. *)
Definition registerEphemeral (C : facade) (password : string)
    (mk ts1 : list Z) : M registered :=
  let pk := aes_key_from_password C password in
  let ts2 := aes_enc C mk ts1 in
  let ts := Buf.joinbuf ts1 ts2 in
  done (call (register_request C password mk ts1))
    (fun uh =>
       resolved {| g_uh := uh; g_password := password; g_ts := ts;
                   g_mk := mk; g_pk := pk |}).

Record confirmation := {
  c_email : string;
  c_name : string;
  c_uh : json;
  c_pk : list Z;
  c_emk : list Z;
  c_challenge : list Z;
  c_mk : list Z;
  c_password : string
}.

(** The callback of [getConfirmationData]. *)
Definition confirmation_of (C : facade) (password : string) (res : json)
  : result confirmation :=
  e <- index res 0 ;; e <- opt_string e ;; e <- required "res[0]" e ;;
  n <- index res 1 ;; n <- opt_string n ;; n <- required "res[1]" n ;;
  uh <- index res 2 ;;
  k <- index res 3 ;; k <- opt_string k ;; k <- required "res[3]" k ;;
  ch <- index res 4 ;; ch <- opt_string ch ;; ch <- required "res[4]" ch ;;
  let pk := aes_key_from_password C password in
  let emk := ub64dec C k in
  Ret {| c_email := Buf.to_string (ub64dec C e);
         c_name := Buf.to_string (ub64dec C n);
         c_uh := uh; c_pk := pk; c_emk := emk;
         c_challenge := aes_dec C pk (ub64dec C ch);
         c_mk := aes_dec C pk emk; c_password := password |}.

Definition getConfirmationData (C : facade) (code password : string)
  : M confirmation :=
  done (call (JObj [("a", JStr "ud"); ("c", JStr code)]))
    (fun res =>
       done (lift (confirmation_of C password res))
         (fun data =>
            if Buf.eqb (Buf.slicebuf (c_challenge data) 4 8) (zerobuf 8)
            then resolved data
            else rejected "bad_password" (Some "Invalid password"))).




(** The loop of [shareFolder] over [content], a list of handles and
    keys: [nodeHandles] and [nodeKeys] as they grow. *)
Fixpoint share_content (C : facade) (sk : list Z)
    (content : list (string * list Z))
    (nodeHandles : list json) (nodeKeys : list json)
  : list json * list json :=
  match content with
  | [] => (nodeHandles, nodeKeys)
  | (h, k) :: rest =>
      let nodeHandles' := nodeHandles ++ [JStr h] in
      share_content C sk rest nodeHandles'
        (nodeKeys ++ [JNum 0; JNum (Z.of_nat (length nodeHandles') - 1);
                      JStr (ub64enc C (aes_enc C sk k))])
  end.

(** The request of [shareFolder]; [rsa_encrypt] is the native helper of
    that name. *)
Definition share_request (C : facade)
    (rsa_encrypt : option string -> list Z -> list Z)
    (handle : string) (content : list (string * list Z)) (mk sk : list Z)
    (access : option Z) (uh pubk : option string) : json :=
  let hb := Buf.of_string handle in
  let target :=
    [("u", JStr (if str_truthy uh then default "" uh else "EXP"));
     ("r", JNum (default 0 access))]
    ++ (if str_truthy uh
        then [("k", JStr (ub64enc C (rsa_encrypt pubk sk)))] else []) in
  let '(nodeHandles, nodeKeys) := share_content C sk content [] [] in
  JObj [("a", JStr "s"); ("n", JStr handle); ("s", JArr [JObj target]);
        ("ok", JStr (ub64enc C (aes_enc C mk sk)));
        ("ha", JStr (ub64enc C (aes_enc C mk (Buf.joinbuf hb hb))));
        ("cr", JArr [JArr [JStr handle]; JArr nodeHandles; JArr nodeKeys])].

Definition shareFolder (C : facade)
    (rsa_encrypt : option string -> list Z -> list Z)
    (handle : string) (content : list (string * list Z)) (mk sk : list Z)
    (access : option Z) (uh pubk : option string) : M json :=
  call (share_request C rsa_encrypt handle content mk sk access uh pubk).

(** Whether an event of the log is a request. *)
Definition is_http (e : io_event) : bool :=
  match e with Http _ _ => true | Timer _ => false end.

(** The number of requests in a log. *)
Definition requests_in (lg : list io_event) : nat :=
  length (List.filter is_http lg).

End Calls.

(** ** Paths and children of the filesystem (session.js) *)

Module Tree.

(** The text [Array.prototype.join] gives an element: nothing for
    [undefined] and [null], else its string conversion.  The conversion
    of a number is its decimal text up to 2^53 in magnitude and is not
    modelled beyond; that of an object is not modelled where the object
    has a [toString] of its own. *)
Fixpoint join_item (v : json) : result string :=
  match v with
  | JUndef | JNull => Ret ""
  | JBool true => Ret "true"
  | JBool false => Ret "false"
  | JNum z =>
      if Z.abs z <=? 2 ^ 53 then Ret (pretty z)
      else Throw (NotModelled "text of a number beyond 2^53")
  | JStr s => Ret s
  | JArr l =>
      (fix go (l : list json) : result string :=
         match l with
         | [] => Ret ""
         | [x] => join_item x
         | x :: rest =>
             a <- join_item x ;; b <- go rest ;; Ret (a +:+ "," +:+ b)
         end) l
  | JObj fields =>
      match assoc "toString" fields with
      | None => Ret "[object Object]"
      | Some _ => Throw (NotModelled "text of an object with a toString")
      end
  end.

(** The texts of the elements, from the first. *)
Fixpoint texts (parts : list json) : result (list string) :=
  match parts with
  | [] => Ret []
  | x :: rest => a <- join_item x ;; l <- texts rest ;; Ret (a :: l)
  end.

(** [parts.join(sep)], on the texts of the elements. *)
Fixpoint join (sep : string) (parts : list string) : string :=
  match parts with
  | [] => ""
  | [x] => x
  | x :: rest => x +:+ sep +:+ join sep rest
  end.

(** [this.nodes[h]]: the read of the name [h]; a handle that is
    [undefined] or [null] reads the name of that text, which one is not
    recorded in a node: the read finds nothing where neither name is
    there, and is not modelled otherwise. *)
Definition node_at (nodes : gmap string node) (h : option string)
  : result (option node) :=
  match h with
  | Some k => get nodes k
  | None =>
      match nodes !! "undefined", nodes !! "null" with
      | None, None => Ret None
      | _, _ => Throw (NotModelled "a node under undefined or null")
      end
  end.

(** The node that is an own property under a handle. *)
Definition own_node (nodes : gmap string node) (h : option string)
  : option node :=
  match h with Some k => nodes !! k | None => None end.

(** [this.nodes[node.parent_handle] || this.nodes[node.su_handle]] *)
Definition up (nodes : gmap string node) (n : node) : result (option node) :=
  p <- node_at nodes (parent_handle n) ;;
  match p with
  | Some p => Ret (Some p)
  | None => node_at nodes (su_handle n)
  end.

(** The loop of [getNodePath]: [parts] after it, or [None] when [fuel]
    steps did not reach a node without a parent. *)
Fixpoint walk (nodes : gmap string node) (fuel : nat) (cur : option node)
    (parts : list json) : option (result (list json)) :=
  match cur with
  | None => Some (Ret parts)
  | Some n =>
      match fuel with
      | O => None
      | S fuel' =>
          match up nodes n with
          | Ret next => walk nodes fuel' next (parts ++ [name n])
          | Throw e => Some (Throw e)
          end
      end
  end.

Definition getNodePath (nodes : gmap string node) (fuel : nat) (n : node)
  : option (result string) :=
  match walk nodes fuel (Some n) [] with
  | Some (Ret parts) => Some (l <- texts (rev parts) ;; Ret (join "/" l))
  | Some (Throw e) => Some (Throw e)
  | None => None
  end.






(** One round of the loop of [mapPaths] for a node whose [getNodePath]
    is [path]: the path the node ends with ([None] when it is empty and
    the node is not registered), and the path map.  The text that
    [node.path += '.' + node.handle] appends for a handle that is
    [undefined] or [null] is not recorded in a node, and not modelled. *)
Definition register (pathMap : gmap string node) (n : node) (path : string)
  : result (option string * gmap string node) :=
  if negb (String.eqb path "") then
    holder <- get pathMap path ;;
    path' <- match holder with
             | Some _ =>
                 match handle n with
                 | Some h => Ret (path +:+ "." +:+ h)
                 | None => Throw (NotModelled "handle undefined or null")
                 end
             | None => Ret path
             end ;;
    Ret (Some path', <[path' := n]> pathMap)
  else Ret (None, pathMap).

(** [mapPaths], over the properties of [this.nodes] in enumeration order:
    the path each node ends with, and the path map; [None] when a
    [getNodePath] runs out of [fuel]. *)
Fixpoint mapPaths_from (nodes : gmap string node) (fuel : nat)
    (entries : list (string * node)) (pathMap : gmap string node)
  : option (result (list (option string) * gmap string node)) :=
  match entries with
  | [] => Some (Ret ([], pathMap))
  | (_, n) :: rest =>
      match getNodePath nodes fuel n with
      | None => None
      | Some (Throw e) => Some (Throw e)
      | Some (Ret path) =>
          match register pathMap n path with
          | Throw e => Some (Throw e)
          | Ret (p, pathMap') =>
              match mapPaths_from nodes fuel rest pathMap' with
              | Some (Ret (ps, final)) => Some (Ret (p :: ps, final))
              | other => other
              end
          end
      end
  end.

Definition mapPaths (nodes : gmap string node) (fuel : nat)
    (entries : list (string * node))
  : option (result (list (option string) * gmap string node)) :=
  mapPaths_from nodes fuel entries ∅.

End Tree.

(** ** Exported folders and the state of a session (session.js) *)

Module Exported.

(** [openExportedFolder(n, mk)] *)
Definition openExportedFolder (n : string) (mk : list Z)
    (st : Session.state) (w : MegaAPI.world)
  : Session.state * MegaAPI.world :=
  (({| Session.cred := Session.cred (fst st);
       Session.data :=
         {| d_user := JUndef; d_uh := None; d_pubk := None; d_privk := None;
            d_mk := Some mk; d_sid := None; d_sidParamName := None;
            d_saved := None; d_isExportedFolder := true |};
       Session.fs := Session.fs (fst st) |}, snd st),
   MegaAPI.setSessionId (Some n) (Some "n") w).

End Exported.

(** ** Proof steps and inputs for the theorems *)

(** One element of [r.ok] in [load_ok], field by field. *)
Ltac load_ok_step :=
  cbn [Filesystem.load_ok];
  repeat match goal with
         | |- context [Js.bind (prop ?v ?k) _] =>
             destruct (prop v k) as [?|?] eqn:?; [| done]; cbn [Js.bind]
         | |- context [Js.bind (opt_string ?v) _] =>
             destruct (opt_string v) as [[?|]|?] eqn:?; try done;
             cbn [required Js.bind]
         end.

(** What a walk that starts with [parts] gives, from what it gives when
    it starts with none. *)
Definition walk_from (parts : list json) (w : option (result (list json)))
  : option (result (list json)) :=
  match w with
  | Some (Ret more) => Some (Ret (parts ++ more))
  | other => other
  end.

Module Cases.

Definition mk0 : list Z := repeat 7 16%nat.
Definition ts0 : list Z := repeat 1 16%nat.
Definition sk0 : list Z := repeat 9 16%nat.

(** The server answers a registration with the handle of the new user. *)
Definition registering : MegaAPI.world :=
  Toy.world0 [MegaAPI.Onload (Some (JArr [JStr "AAAAAAAAAAA"]))].

Definition k0 : string :=
  ub64enc Toy.C (aes_enc Toy.C (aes_key_from_password Toy.C "pw") mk0).

Definition tsid0 : string := ub64enc Toy.C (ts0 ++ aes_enc Toy.C mk0 ts0).

(** The answer to the login of the account registered with [mk0], [ts0]. *)
Definition ephemeral_login : MegaAPI.world :=
  Toy.world0
    [MegaAPI.Onload
       (Some (JArr [JObj [("k", JStr k0); ("tsid", JStr tsid0)]]))].

(** A login answer with an RSA-encrypted session id. *)
Definition full_login : MegaAPI.world :=
  Toy.world0
    [MegaAPI.Onload
       (Some (JArr [JObj [("k", JStr "0123456789abcdef");
                          ("csid", JStr "CSID");
                          ("tsid", JUndef);
                          ("privk", JStr "PRIVK");
                          ("u", JStr "AAAAAAAAAAA")]]))].

(** A login answer with neither [csid] nor [tsid]. *)
Definition bare_login : MegaAPI.world :=
  Toy.world0
    [MegaAPI.Onload
       (Some (JArr [JObj [("k", JStr "0123456789abcdef");
                          ("u", JStr "AAAAAAAAAAA")]]))].

(** Confirmation data whose challenge decrypts to zero bytes under the
    key of the password [pw]. *)
Definition confirming : MegaAPI.world :=
  Toy.world0
    [MegaAPI.Onload
       (Some (JArr [JArr [JStr "e"; JStr "n"; JStr "AAAAAAAAAAA";
                          JStr "0123456789abcdef";
                          JStr "pppppppppppppppp"]]))].



(** [Sample.colon_file] imported on Linux. *)
Definition colon_linux : node :=
  Eval vm_compute in
    match Filesystem.importNode Toy.C Toy.a_session Session.empty_fs
            Sample.colon_file with
    | Ret (Some n, _) => n
    | _ => Filesystem.init_node Sample.colon_file
    end.

(** An answer to the filesystem request with one share key and no nodes. *)
Definition one_share : json :=
  JObj [("ok", JArr [JObj [("h", JStr "HHHHHHHH");
                           ("ha", JStr "OOOOOOOOOOOOOOOO");
                           ("k", JStr "0123456789abcdef")]]);
        ("f", JArr []); ("u", JArr [])].

Definition one_share_fs : filesystem :=
  Eval vm_compute in
    match Filesystem.load_done Toy.C Toy.a_session Session.empty_fs
            one_share with
    | Ret f => f
    | Throw _ => Session.empty_fs
    end.

(** A node that names itself as its parent. *)
Definition loop : node :=
  {| type := Some 1; handle := Some "LLLLLLLL";
     parent_handle := Some "LLLLLLLL"; su_handle := None; user := None;
     size := None; mtime := None; key_full := None; key := None;
     attrs := None; name := JStr "loop" |}.

Definition looping : gmap string node := {[ "LLLLLLLL" := loop ]}.

(** A root folder and a file in it. *)
Definition root : node :=
  {| type := Some 2; handle := Some "RRRRRRRR";
     parent_handle := Some "*TOP*"; su_handle := None; user := None;
     size := None; mtime := None; key_full := None; key := None;
     attrs := None; name := JStr "Root" |}.

Definition file : node :=
  {| type := Some 0; handle := Some "FFFFFFFF";
     parent_handle := Some "RRRRRRRR"; su_handle := None; user := None;
     size := Some 3; mtime := Some 1; key_full := None; key := None;
     attrs := None; name := JStr "a.txt" |}.

Definition small_tree : list (string * node) :=
  [("RRRRRRRR", root); ("FFFFFFFF", file)].

Definition small_nodes : gmap string node :=
  {[ "RRRRRRRR" := root; "FFFFFFFF" := file ]}.

Definition small_paths : gmap string node :=
  {[ "Root" := root; "Root/a.txt" := file ]}.

(** The API object after a login that gave the session id [sid0]. *)
Definition logged_in : MegaAPI.world :=
  MegaAPI.setSessionId (Some "sid0") None (Toy.world0 []).

Definition written_disk : gmap string (list Z) :=
  snd (fst (Session.save Toy.C Sample.loaded 1700000000000 ∅ logged_in)).

(** The server no longer knows the session id. *)
Definition expired : MegaAPI.world :=
  Toy.world0 [MegaAPI.Onload (Some (JArr [JNum (-15)]))].

(** Fifteen failures in a row that ask for a retry, then an answer. *)
Definition stuck : MegaAPI.world :=
  Toy.world0
    (repeat (MegaAPI.Onerror "busy" "try again") 15
     ++ [MegaAPI.Onload (Some (JArr [JStr "ok"]))]).

(** A filesystem that holds a share key. *)
Definition keyed_fs : filesystem :=
  Filesystem.setShareKey Session.empty_fs "GGGGGGGG" sk0.

Definition keyed_share_fs : filesystem :=
  Eval vm_compute in
    match Filesystem.load_done Toy.C Toy.a_session keyed_fs one_share with
    | Ret f => f
    | Throw _ => Session.empty_fs
    end.

(** A folder with a file in it, and the share key of the folder. *)
Definition shared_tree : filesystem :=
  {| nodes := small_nodes; share_keys := {[ "RRRRRRRR" := sk0 ]} |}.

Definition bare_tree : filesystem :=
  {| nodes := small_nodes; share_keys := ∅ |}.

(** [Toy.C] with a stand-in for the JX codec of a filesystem that writes
    the nodes and no share key, on the filesystems of these samples. *)
Definition nodes_only : facade :=
  {| os := os Toy.C;
     get_tmp_dir := get_tmp_dir Toy.C;
     writable := writable Toy.C;
     aes_key_from_password := aes_key_from_password Toy.C;
     sha256_digest := sha256_digest Toy.C;
     ub64enc := ub64enc Toy.C;
     ub64dec := ub64dec Toy.C;
     aes_enc := aes_enc Toy.C;
     aes_dec := aes_dec Toy.C;
     aes_enc_cbc := aes_enc_cbc Toy.C;
     aes_dec_cbc := aes_dec_cbc Toy.C;
     rsa_decrypt := rsa_decrypt Toy.C;
     rsa_decrypt_sid := rsa_decrypt_sid Toy.C;
     file_node_key_unpack := file_node_key_unpack Toy.C;
     make_username_hash := make_username_hash Toy.C;
     alignbuf := alignbuf Toy.C;
     buftojsonstring := buftojsonstring Toy.C;
     JSON_parse := JSON_parse Toy.C;
     JSON_stringify := JSON_stringify Toy.C;
     jx_enc_session := jx_enc_session Toy.C;
     jx_dec_session := jx_dec_session Toy.C;
     jx_enc_fs := fun f =>
       match map_to_list (nodes f) with
       | [] => "{nodes:{},share_keys:[]}"
       | _ :: _ => "{nodes:{RRRRRRRR,FFFFFFFF},share_keys:[]}"
       end;
     jx_dec_fs := fun t =>
       if String.eqb t "{nodes:{},share_keys:[]}" then Some Session.empty_fs
       else Some bare_tree |}.

(** A session of alice that holds [shared_tree]. *)
Definition sharing : Session.session :=
  {| Session.cred := Toy.alice; Session.data := Toy.a_session;
     Session.fs := shared_tree |}.

Definition restored : Session.session :=
  {| Session.cred := Toy.alice; Session.data := Toy.a_session;
     Session.fs := bare_tree |}.

Definition shared_disk : gmap string (list Z) :=
  snd (fst (Session.save nodes_only sharing 1700000000000 ∅ logged_in)).

End Cases.

(** * Theorems *)

(** ** The key stream and the session file *)

Lemma xor_from_length (ks : nat -> Z) (d : list Z) : forall j,
  length (Native.xor_from ks j d) = length d.
Proof. induction d as [|b d IH]; intros j; simpl; [done | by rewrite IH]. Qed.

Lemma xor_from_involutive (ks : nat -> Z) (d : list Z) : forall j,
  Native.xor_from ks j (Native.xor_from ks j d) = d.
Proof.
  induction d as [|b d IH]; intros j; simpl; [done |].
  rewrite IH. f_equal.
  rewrite Z.lxor_assoc, Z.lxor_nilpotent. apply Z.lxor_0_r.
Qed.

Lemma xor_from_insert (ks : nat -> Z) (d : list Z) : forall j i b,
  Native.xor_from ks j (<[i := b]> d)
  = <[i := Z.lxor b (ks (j + i)%nat)]> (Native.xor_from ks j d).
Proof.
  induction d as [|x d IH]; intros j i b; [done |].
  destruct i as [|i]; simpl.
  - by rewrite Nat.add_0_r.
  - rewrite IH. by replace (S j + i)%nat with (j + S i)%nat by lia.
Qed.

Lemma xor_from_lookup (ks : nat -> Z) (d : list Z) : forall j i x,
  d !! i = Some x ->
  Native.xor_from ks j d !! i = Some (Z.lxor x (ks (j + i)%nat)).
Proof.
  induction d as [|y d IH]; intros j i x; [done |].
  destruct i as [|i]; simpl.
  - intros [= ->]. by rewrite Nat.add_0_r.
  - intros H. rewrite (IH (S j) i x H).
    by replace (S j + i)%nat with (j + S i)%nat by lia.
Qed.

Lemma lxor_twice (a k : Z) : Z.lxor (Z.lxor a k) k = a.
Proof. rewrite Z.lxor_assoc, Z.lxor_nilpotent. apply Z.lxor_0_r. Qed.

Lemma aes_ctr_involutive (C : facade) key nonce c d :
  Native.aes_ctr C key nonce c (Native.aes_ctr C key nonce c d) = d.
Proof. apply xor_from_involutive. Qed.

Lemma aes_ctr_length (C : facade) key nonce c d :
  length (Native.aes_ctr C key nonce c d) = length d.
Proof. apply xor_from_length. Qed.

(** What [loadSessionFile] does with the bytes it finds on disk, in terms
    of their decryption. *)
Lemma loadSessionFile_found (C : facade) (s : Session.credentials)
    (disk : gmap string (list Z)) (name : option string) (data : list Z) :
  disk !! Session.getSessionFilePath C s name = Some data ->
  data <> [] ->
  Session.loadSessionFile C s disk name
  = let plain :=
      Native.aes_ctr C (Session.pk s)
        (Buf.slicebuf (Session.name_digest C s name) 0 8) 0 data in
    if bool_decide (sha256_digest C (skipn 32 plain) = firstn 32 plain)
    then Some (skipn 32 plain) else None.
Proof.
  intros Hd Hne. unfold Session.loadSessionFile, Native.file_read.
  rewrite Hd. destruct data as [|b data]; [done |].
  cbn [Buf.truthy negb]. cbv zeta.
  unfold Buf.eqb, Buf.slicebuf, Buf.slicebuf_from. cbn [skipn].
  by destruct (bool_decide _).
Qed.

(** What a successful [saveSessionFile] leaves on disk. *)
Lemma saveSessionFile_stored (C : facade) (s : Session.credentials)
    (disk disk' : gmap string (list Z)) (name : option string) (p : list Z) :
  Session.saveSessionFile C s disk name p = (disk', true) ->
  disk' = <[Session.getSessionFilePath C s name :=
              Native.aes_ctr C (Session.pk s)
                (Buf.slicebuf (Session.name_digest C s name) 0 8) 0
                (sha256_digest C p ++ p)]> disk.
Proof.
  unfold Session.saveSessionFile, Native.file_write, Buf.joinbuf.
  destruct (writable C _); [| done]. by intros [= <-].
Qed.

(** C1. Saving a payload [p] under a name and loading it back gives [p],
    for every user name, password, name and payload, given that the digest
    has 32 bytes.  A file that is not there loads as null, and so does a
    file whose decrypted 32-byte prefix is not the digest of the rest.
    After one byte of the stored file is changed the load is null, unless
    the change hit the payload and the changed payload has the digest of
    the original one (a SHA-256 collision); the original payload is never
    returned, and a change within the first 32 bytes always gives null.
    [loadSessionFile] is a total function: it throws nowhere. *)
Theorem loadSessionFile_saveSessionFile (C : facade) (u pw : string)
    (name : option string) (p : list Z) (disk : gmap string (list Z)) :
  length (sha256_digest C p) = 32%nat ->
  let s := Session.setCredentials C u pw in
  let path := Session.getSessionFilePath C s name in
  (forall disk',
     Session.saveSessionFile C s disk name p = (disk', true) ->
     Session.loadSessionFile C s disk' name = Some p)
  /\ (disk !! path = None -> Session.loadSessionFile C s disk name = None)
  /\ (forall data,
        disk !! path = Some data ->
        let plain :=
          Native.aes_ctr C (Session.pk s)
            (Buf.slicebuf (Session.name_digest C s name) 0 8) 0 data in
        sha256_digest C (skipn 32 plain) <> firstn 32 plain ->
        Session.loadSessionFile C s disk name = None)
  /\ (forall disk' data i b,
        Session.saveSessionFile C s disk name p = (disk', true) ->
        disk' !! path = Some data ->
        (i < length data)%nat ->
        data !! i <> Some b ->
        let loaded :=
          Session.loadSessionFile C s (<[path := <[i := b]> data]> disk')
            name in
        loaded <> Some p
        /\ ((i < 32)%nat -> loaded = None)
        /\ (loaded = None
            \/ exists q, loaded = Some q /\ q <> p
                         /\ length q = length p
                         /\ sha256_digest C q = sha256_digest C p)).
Proof.
  intros Hlen s path.
  set (nonce := Buf.slicebuf (Session.name_digest C s name) 0 8).
  set (dg := sha256_digest C p) in *.
  assert (Hround : forall disk',
            Session.saveSessionFile C s disk name p = (disk', true) ->
            disk' !! path
            = Some (Native.aes_ctr C (Session.pk s) nonce 0 (dg ++ p))).
  { intros disk' Hs. rewrite (saveSessionFile_stored _ _ _ _ _ _ Hs).
    apply lookup_insert_eq. }
  split; [| split; [| split]].
  - intros disk' Hs.
    rewrite (loadSessionFile_found C s disk' name _ (Hround _ Hs)).
    + cbv zeta. fold nonce. rewrite aes_ctr_involutive.
      rewrite drop_app_length', take_app_length' by done.
      fold dg. by rewrite bool_decide_eq_true_2.
    + intros E. apply (f_equal length) in E.
      rewrite aes_ctr_length, length_app, Hlen in E. simpl in E. lia.
  - intros Hnone. unfold Session.loadSessionFile, Native.file_read.
    fold path. by rewrite Hnone.
  - intros data Hd plain Hneq.
    destruct data as [|b0 data].
    + unfold Session.loadSessionFile, Native.file_read. fold path.
      by rewrite Hd.
    + rewrite (loadSessionFile_found C s disk name _ Hd) by done.
      cbv zeta. fold nonce. by rewrite bool_decide_eq_false_2.
  - intros disk' data i b Hs Hd Hi Hb loaded.
    rewrite (Hround _ Hs) in Hd. injection Hd as <-.
    set (ks := Native.keystream C (Session.pk s) nonce 0) in *.
    assert (Hload : loaded
              = let plain := <[i := Z.lxor b (ks i)]> (dg ++ p) in
                if bool_decide (sha256_digest C (skipn 32 plain)
                                = firstn 32 plain)
                then Some (skipn 32 plain) else None).
    { unfold loaded.
      rewrite (loadSessionFile_found C s _ name (<[i := b]>
                 (Native.aes_ctr C (Session.pk s) nonce 0 (dg ++ p)))).
      - cbv zeta. fold nonce. unfold Native.aes_ctr. fold ks.
        rewrite xor_from_insert, xor_from_involutive. done.
      - apply lookup_insert_eq.
      - intros E. apply (f_equal length) in E.
        rewrite length_insert in E. simpl in E. lia. }
    rewrite aes_ctr_length in Hi.
    destruct (lookup_lt_is_Some_2 (dg ++ p) i Hi) as [x Hx].
    assert (Hxb : x <> Z.lxor b (ks i)).
    { intros ->. apply Hb.
      change (Native.xor_from ks 0 (dg ++ p) !! i = Some b).
      rewrite (xor_from_lookup ks _ 0 i _ Hx). simpl. by rewrite lxor_twice. }
    clearbody loaded. subst loaded. cbv zeta.
    destruct (decide (i < 32)%nat) as [Hlt | Hge].
    + rewrite insert_app_l by lia.
      rewrite drop_app_length', take_app_length'
        by (rewrite length_insert; done).
      rewrite lookup_app_l in Hx by lia.
      assert (sha256_digest C p <> <[i := Z.lxor b (ks i)]> dg).
      { fold dg. intros E. apply Hxb.
        assert (dg !! i = Some (Z.lxor b (ks i))) as E2.
        { rewrite E at 1. apply list_lookup_insert_eq. lia. }
        congruence. }
      rewrite bool_decide_eq_false_2 by done. auto.
    + rewrite insert_app_r_alt by lia. rewrite Hlen.
      rewrite drop_app_length', take_app_length' by done.
      rewrite lookup_app_r in Hx by lia. rewrite Hlen in Hx.
      set (q := <[(i - 32)%nat := Z.lxor b (ks i)]> p).
      assert (Hq : q <> p).
      { intros E.
        assert (p !! (i - 32)%nat = Some (Z.lxor b (ks i))) as E2.
        { rewrite <- E at 1. apply list_lookup_insert_eq.
          rewrite length_app in Hi. lia. }
        congruence. }
      case_bool_decide as Hdg.
      * split; [congruence |]. split; [lia |]. right. exists q.
        repeat split; try done. unfold q. apply length_insert.
      * auto.
Qed.

(** ** Node attributes *)

Lemma str_truthy_Some (s : string) :
  str_truthy (Some s) = true <-> s <> "".
Proof.
  unfold str_truthy. destruct (String.eqb_spec s ""); simpl; split; congruence.
Qed.




(** ** The error taxonomy *)

Lemma getErrorName_mapped (name : string) (z : Z) :
  In (name, z) MegaAPI.errorCodes -> MegaAPI.getErrorName z = name.
Proof.
  unfold MegaAPI.errorCodes. simpl.
  intros H. repeat (destruct H as [[= <- <-] | H]; [reflexivity |]). done.
Qed.

Lemma getErrorMessage_canonical (name msg : string) :
  In (name, msg) MegaAPI.errorMessages -> MegaAPI.getErrorMessage name = msg.
Proof.
  unfold MegaAPI.errorMessages. simpl.
  intros H. repeat (destruct H as [[= <- <-] | H]; [reflexivity |]). done.
Qed.

Lemma getErrorName_in_unmapped (codes : list (string * Z)) (z : Z) :
  (forall name, ~ In (name, z) codes) ->
  MegaAPI.getErrorName_in codes z = "EUNKNOWN".
Proof.
  induction codes as [|[k c] codes IH]; intros H; simpl; [done |].
  destruct (Z.eqb_spec c z) as [-> | Hne].
  - exfalso. apply (H k). by left.
  - apply IH. intros name Hin. apply (H name). by right.
Qed.

Lemma getErrorName_unmapped (z : Z) :
  (forall name, ~ In (name, z) MegaAPI.errorCodes) ->
  MegaAPI.getErrorName z = "EUNKNOWN".
Proof. apply getErrorName_in_unmapped. Qed.

Lemma errorCodes_range (name : string) (z : Z) :
  In (name, z) MegaAPI.errorCodes -> -22 <= z <= -1.
Proof.
  unfold MegaAPI.errorCodes. simpl.
  intros H. repeat (destruct H as [[= <- <-] | H]; [lia |]). done.
Qed.

(** ** [doRequest] and [callMulti] *)

Lemma doRequest_retry (url : string) (req : list json) (t : Z)
    (code msg : string) (rest : list MegaAPI.http_event)
    (lg : list MegaAPI.io_event) :
  MegaAPI.is_retry code = true ->
  t < 120 * 1000 * 1000 ->
  MegaAPI.doRequest url req t (MegaAPI.Onerror code msg :: rest) lg
  = MegaAPI.doRequest url req (t * 2) rest
      (lg ++ [MegaAPI.Http url req; MegaAPI.Timer t]).
Proof.
  intros Hc Ht. cbn [MegaAPI.doRequest]. rewrite Hc.
  destruct (Z.ltb_spec t (120 * 1000 * 1000)); [| lia].
  by rewrite <- app_assoc.
Qed.

Lemma doRequest_answer (url : string) (req : list json) (t : Z)
    (e : MegaAPI.http_event) (rest : list MegaAPI.http_event)
    (lg : list MegaAPI.io_event) :
  Spec.retryable e = false ->
  MegaAPI.doRequest url req t (e :: rest) lg
  = (Spec.answer e, rest, lg ++ [MegaAPI.Http url req]).
Proof.
  intros He. destruct e as [[r|] | code msg]; cbn [MegaAPI.doRequest].
  - by destruct r.
  - done.
  - unfold MegaAPI.is_retry. simpl in He. by rewrite He.
Qed.

Lemma backoff_S (url : string) (req : list json) (k : nat) :
  Spec.backoff url req (S k)
  = Spec.backoff url req k
    ++ [MegaAPI.Http url req; MegaAPI.Timer (10000 * 2 ^ Z.of_nat k)].
Proof.
  unfold Spec.backoff. by rewrite seq_S, flat_map_app.
Qed.

(** [k] failures that ask for a retry, met while the delay is below the
    ceiling, leave the traffic of [k] retries and the delay doubled [k]
    times. *)
Lemma doRequest_backoff (url : string) (req : list json)
    (fails : list MegaAPI.http_event) :
  forall (done_ : nat) (rest : list MegaAPI.http_event)
         (lg : list MegaAPI.io_event),
  Forall (fun e => Spec.retryable e = true) fails ->
  (done_ + length fails <= 14)%nat ->
  MegaAPI.doRequest url req (10000 * 2 ^ Z.of_nat done_) (fails ++ rest)
    (lg ++ Spec.backoff url req done_)
  = MegaAPI.doRequest url req
      (10000 * 2 ^ Z.of_nat (done_ + length fails)) rest
      (lg ++ Spec.backoff url req (done_ + length fails)).
Proof.
  induction fails as [|e fails IH]; intros done_ rest lg Hall Hlen.
  - simpl. by rewrite Nat.add_0_r.
  - inversion Hall as [|? ? He Hall']; subst. simpl in Hlen.
    destruct e as [r | code msg]; [done |].
    cbn [app]. rewrite doRequest_retry.
    + rewrite <- app_assoc, <- backoff_S.
      replace (10000 * 2 ^ Z.of_nat done_ * 2)
        with (10000 * 2 ^ Z.of_nat (S done_))
        by (rewrite Nat2Z.inj_succ, Z.pow_succ_r; lia).
      rewrite (IH (S done_)) by (done || lia).
      by replace (S done_ + length fails)%nat
        with (done_ + length (MegaAPI.Onerror code msg :: fails))%nat
        by (simpl; lia).
    + exact He.
    + assert (2 ^ Z.of_nat done_ <= 2 ^ 13)
        by (apply Z.pow_le_mono_r; lia).
      lia.
Qed.

(** The log of [doRequest]: what was there, then the first request, then
    only timers and the same request again. *)
Lemma doRequest_log (url : string) (req : list json)
    (sc : list MegaAPI.http_event) :
  forall (t : Z) (lg : list MegaAPI.io_event),
  exists more,
    snd (MegaAPI.doRequest url req t sc lg)
    = lg ++ MegaAPI.Http url req :: more
    /\ forall u d, In (MegaAPI.Http u d) more -> u = url /\ d = req.
Proof.
  induction sc as [|e sc IH]; intros t lg.
  - exists []. by split.
  - destruct e as [[r|] | code msg]; cbn [MegaAPI.doRequest].
    + exists []. split; [by destruct r | done].
    + exists []. by split.
    + destruct (MegaAPI.is_retry code);
        [destruct (t <? 120 * 1000 * 1000) |];
        try (exists []; by split).
      destruct (IH (t * 2) ((lg ++ [MegaAPI.Http url req])
                              ++ [MegaAPI.Timer t])) as (more & -> & Hm).
      exists (MegaAPI.Timer t :: MegaAPI.Http url req :: more).
      split; [by rewrite <- !app_assoc |].
      intros u d [Hin | [[= <- <-] | Hin]]; [done | done | by apply Hm].
Qed.

(** At the ceiling the code stops: the fifteenth failure in a row that
    asks for a retry starts no timer and leaves the call pending. *)
Lemma callMulti_gives_up (requests : list json) (w : MegaAPI.world)
    (fails : list MegaAPI.http_event) (code msg : string)
    (rest : list MegaAPI.http_event) :
  MegaAPI.script w = fails ++ MegaAPI.Onerror code msg :: rest ->
  Forall (fun f => Spec.retryable f = true) fails ->
  length fails = 14%nat ->
  MegaAPI.is_retry code = true ->
  let url :=
    MegaAPI.mk_url (MegaAPI.incr (MegaAPI.callId w)) (MegaAPI.sid w)
      (MegaAPI.sidParamName w) in
  MegaAPI.callMulti requests w
  = (Pending,
     {| MegaAPI.sid := MegaAPI.sid w;
        MegaAPI.sidParamName := MegaAPI.sidParamName w;
        MegaAPI.callId := MegaAPI.incr (MegaAPI.callId w);
        MegaAPI.script := rest;
        MegaAPI.log :=
          MegaAPI.log w ++ Spec.backoff url requests 14
            ++ [MegaAPI.Http url requests] |}).
Proof.
  intros Hsc Hall Hlen Hc url.
  unfold MegaAPI.callMulti. fold url. rewrite Hsc.
  pose proof (doRequest_backoff url requests fails 0
                (MegaAPI.Onerror code msg :: rest)
                (MegaAPI.log w) Hall ltac:(lia)) as Hb.
  simpl Spec.backoff in Hb at 1. rewrite app_nil_r in Hb.
  change (10000 * 2 ^ Z.of_nat 0) with 10000 in Hb. rewrite Hb, Hlen.
  cbn [MegaAPI.doRequest]. rewrite Hc.
  change (10000 * 2 ^ Z.of_nat (0 + 14) <? 120 * 1000 * 1000) with false.
  cbv iota. by rewrite <- app_assoc.
Qed.

(** C6. While the transport answers [busy] or [no_response], [callMulti]
    sends the same request again, after 10 s the first time and twice the
    previous delay each further time, every delay below 120 000 s: up to
    fourteen such failures in a row.  The answer that ends the retries
    settles the call: a transport failure with another code rejects with
    that code and message, a number rejects with its error name, an array
    resolves, and nothing more is sent: the rest of the script is
    untouched.  The fifteenth such failure in a row is not retried: the
    code starts no timer, sends nothing more and leaves the call pending. *)
Theorem callMulti_retry_policy (requests : list json) (w : MegaAPI.world)
    (fails : list MegaAPI.http_event) (e : MegaAPI.http_event)
    (rest : list MegaAPI.http_event) :
  MegaAPI.script w = fails ++ e :: rest ->
  Forall (fun f => Spec.retryable f = true) fails ->
  (length fails <= 14)%nat ->
  Spec.retryable e = false ->
  let url :=
    MegaAPI.mk_url (MegaAPI.incr (MegaAPI.callId w)) (MegaAPI.sid w)
      (MegaAPI.sidParamName w) in
  MegaAPI.callMulti requests w
  = (Spec.answer e,
     {| MegaAPI.sid := MegaAPI.sid w;
        MegaAPI.sidParamName := MegaAPI.sidParamName w;
        MegaAPI.callId := MegaAPI.incr (MegaAPI.callId w);
        MegaAPI.script := rest;
        MegaAPI.log :=
          MegaAPI.log w ++ Spec.backoff url requests (length fails)
            ++ [MegaAPI.Http url requests] |})
  /\ (forall i, (i < length fails)%nat ->
        10 * 1000 * 2 ^ Z.of_nat i < 120000 * 1000)
  /\ (forall code msg,
        e = MegaAPI.Onerror code msg ->
        code <> "busy" /\ code <> "no_response"
        /\ Spec.answer e = Rejected code (Some msg))
  /\ (forall num,
        e = MegaAPI.Onload (Some (JNum num)) ->
        Spec.answer e
        = Rejected (MegaAPI.getErrorName num)
            (Some (MegaAPI.getErrorMessage (MegaAPI.getErrorName num))))
  /\ (forall (w' : MegaAPI.world) (fails' : list MegaAPI.http_event)
             (code msg : string) (rest' : list MegaAPI.http_event),
        MegaAPI.script w' = fails' ++ MegaAPI.Onerror code msg :: rest' ->
        Forall (fun f => Spec.retryable f = true) fails' ->
        length fails' = 14%nat ->
        MegaAPI.is_retry code = true ->
        let url' :=
          MegaAPI.mk_url (MegaAPI.incr (MegaAPI.callId w')) (MegaAPI.sid w')
            (MegaAPI.sidParamName w') in
        fst (MegaAPI.callMulti requests w') = Pending
        /\ MegaAPI.script (snd (MegaAPI.callMulti requests w')) = rest'
        /\ MegaAPI.log (snd (MegaAPI.callMulti requests w'))
           = MegaAPI.log w' ++ Spec.backoff url' requests 14
               ++ [MegaAPI.Http url' requests]).
Proof.
  intros Hsc Hall Hlen He url.
  split; [| split; [| split; [| split]]].
  - unfold MegaAPI.callMulti. fold url. rewrite Hsc.
    pose proof (doRequest_backoff url requests fails 0 (e :: rest)
                  (MegaAPI.log w) Hall Hlen) as Hb.
    simpl Spec.backoff in Hb at 1. rewrite app_nil_r in Hb.
    change (10000 * 2 ^ Z.of_nat 0) with 10000 in Hb. rewrite Hb.
    rewrite doRequest_answer by done. simpl.
    by rewrite <- app_assoc.
  - intros i Hi.
    assert (2 ^ Z.of_nat i <= 2 ^ 13) by (apply Z.pow_le_mono_r; lia).
    lia.
  - intros code msg ->. simpl in He.
    apply orb_false_elim in He as [H1 H2].
    apply String.eqb_neq in H1, H2. done.
  - by intros num ->.
  - intros w' fails' code msg rest' Hsc' Hall' Hlen' Hc url'.
    by rewrite (callMulti_gives_up requests w' fails' code msg rest'
                  Hsc' Hall' Hlen' Hc).
Qed.

Lemma callMulti_callId (requests : list json) (w : MegaAPI.world) :
  MegaAPI.callId (snd (MegaAPI.callMulti requests w))
  = MegaAPI.incr (MegaAPI.callId w).
Proof.
  unfold MegaAPI.callMulti. by destruct (MegaAPI.doRequest _ _ _ _ _) as [[? ?] ?].
Qed.

Lemma callMulti_log (requests : list json) (w : MegaAPI.world) :
  exists more,
    MegaAPI.log (snd (MegaAPI.callMulti requests w))
    = MegaAPI.log w
      ++ MegaAPI.Http (MegaAPI.mk_url (MegaAPI.incr (MegaAPI.callId w))
                         (MegaAPI.sid w) (MegaAPI.sidParamName w)) requests
         :: more
    /\ forall u d, In (MegaAPI.Http u d) more ->
         u = MegaAPI.mk_url (MegaAPI.incr (MegaAPI.callId w))
               (MegaAPI.sid w) (MegaAPI.sidParamName w)
         /\ d = requests.
Proof.
  unfold MegaAPI.callMulti.
  destruct (doRequest_log
              (MegaAPI.mk_url (MegaAPI.incr (MegaAPI.callId w))
                 (MegaAPI.sid w) (MegaAPI.sidParamName w))
              requests (MegaAPI.script w) 10000 (MegaAPI.log w))
    as (more & Hlog & Hm).
  destruct (MegaAPI.doRequest _ _ _ _ _) as [[o sc] lg]. simpl in *.
  by exists more.
Qed.

(** C7. A batch increments the counter once, before its first request:
    below 2^53, where the JavaScript number counts exactly, the counter
    after [callMulti] is the counter before plus one, whatever the
    transport did; the first thing the batch does is to send a request
    with the new counter in its URL, and every request it sends after a
    retry has that same URL and body.  A second batch therefore carries a
    larger id than the first. *)
Theorem callMulti_callId_increases (requests : list json)
    (w : MegaAPI.world) :
  MegaAPI.callId w < 2 ^ 53 ->
  let w' := snd (MegaAPI.callMulti requests w) in
  let url :=
    MegaAPI.mk_url (MegaAPI.callId w + 1) (MegaAPI.sid w)
      (MegaAPI.sidParamName w) in
  MegaAPI.callId w' = MegaAPI.callId w + 1
  /\ MegaAPI.callId w < MegaAPI.callId w'
  /\ (exists more,
        MegaAPI.log w' = MegaAPI.log w ++ MegaAPI.Http url requests :: more
        /\ forall u d, In (MegaAPI.Http u d) more -> u = url /\ d = requests)
  /\ (forall requests2,
        MegaAPI.callId w + 1 < 2 ^ 53 ->
        MegaAPI.callId w'
        < MegaAPI.callId (snd (MegaAPI.callMulti requests2 w'))).
Proof.
  intros Hlt w' url.
  assert (Hid : MegaAPI.callId w' = MegaAPI.callId w + 1).
  { unfold w'. rewrite callMulti_callId. unfold MegaAPI.incr.
    by destruct (Z.ltb_spec (MegaAPI.callId w) (2 ^ 53)); [| lia]. }
  split; [done |]. split; [lia |]. split.
  - destruct (callMulti_log requests w) as (more & Hlog & Hm).
    assert (Hi : MegaAPI.incr (MegaAPI.callId w) = MegaAPI.callId w + 1).
    { unfold MegaAPI.incr.
      by destruct (Z.ltb_spec (MegaAPI.callId w) (2 ^ 53)); [| lia]. }
    rewrite Hi in Hlog, Hm. by exists more.
  - intros requests2 Hlt2. rewrite callMulti_callId, Hid.
    unfold MegaAPI.incr.
    destruct (Z.ltb_spec (MegaAPI.callId w + 1) (2 ^ 53)); lia.
Qed.

(** ** CallBatch *)

Lemma each_length (responses : list json) :
  forall idx calls,
  length (fst (CallBatch.each responses idx calls)) = length calls.
Proof.
  induction responses as [|r rest IH]; intros idx calls; simpl; [done |].
  destruct (calls !! idx); [| done].
  by rewrite IH, length_insert.
Qed.

Lemma each_before (responses : list json) :
  forall idx calls i, (i < idx)%nat ->
  fst (CallBatch.each responses idx calls) !! i = calls !! i.
Proof.
  induction responses as [|r rest IH]; intros idx calls i Hi; simpl; [done |].
  destruct (calls !! idx); [| done].
  rewrite IH by lia. apply list_lookup_insert_ne. lia.
Qed.

Lemma each_at (responses : list json) :
  forall idx calls i r,
  (idx <= i < length calls)%nat ->
  responses !! (i - idx)%nat = Some r ->
  fst (CallBatch.each responses idx calls) !! i
  = Some (MegaAPI.deliver r).
Proof.
  induction responses as [|r0 rest IH]; intros idx calls i r Hi Hr;
    [done |]. simpl.
  destruct (lookup_lt_is_Some_2 calls idx ltac:(lia)) as [c Hc].
  rewrite Hc.
  destruct (decide (i = idx)) as [-> | Hne].
  - rewrite Nat.sub_diag in Hr. injection Hr as ->.
    rewrite each_before by lia. apply list_lookup_insert_eq. lia.
  - apply IH.
    + rewrite length_insert. lia.
    + replace (i - idx)%nat with (S (i - S idx)) in Hr by lia. done.
Qed.

Lemma each_beyond (responses : list json) :
  forall idx calls i,
  (idx + length responses <= i)%nat ->
  fst (CallBatch.each responses idx calls) !! i = calls !! i.
Proof.
  induction responses as [|r rest IH]; intros idx calls i Hi; simpl; [done |].
  destruct (calls !! idx); [| done]. simpl in Hi.
  rewrite IH by lia. apply list_lookup_insert_ne. lia.
Qed.

Lemma repeat_lookup {A} (a : A) (n : nat) :
  forall i, (i < n)%nat -> repeat a n !! i = Some a.
Proof.
  induction n as [|n IH]; intros i Hi; [lia |].
  destruct i as [|i]; simpl; [done | apply IH; lia].
Qed.

Lemma map_repeat_const {A B} (b : B) (a : A) (n : nat) :
  map (fun _ => b) (repeat a n) = repeat b n.
Proof. induction n; simpl; [done | by f_equal]. Qed.

(** C5. For a flushed batch of [n] requests: when the response is an
    array, its element at position [i] settles continuation [i], for every
    position both have (a continuation the array is too short for stays
    pending): a negative integer rejects it, with the name the table maps
    the integer to and the message of that name, or with EUNKNOWN and its
    message when the table has no name for it; any other value resolves
    it.  When the call as a whole is rejected, by a transport failure that
    is not retried or by a number in place of the array, all [n]
    continuations are rejected with that one code and message. *)
Theorem send_delivers (requests : list json) (w : MegaAPI.world) :
  let n := length requests in
  let calls := fst (fst (CallBatch.send requests w)) in
  (forall responses,
     fst (MegaAPI.callMulti requests w) = Resolved responses ->
     (forall i r, (i < n)%nat -> responses !! i = Some r ->
        calls !! i = Some (MegaAPI.deliver r))
     /\ (forall i, (length responses <= i < n)%nat ->
           calls !! i = Some Pending))
  /\ (forall name num msg,
        In (name, num) MegaAPI.errorCodes ->
        In (name, msg) MegaAPI.errorMessages ->
        num < 0 /\ MegaAPI.deliver (JNum num) = Rejected name (Some msg))
  /\ (forall num,
        num < 0 -> (forall name, ~ In (name, num) MegaAPI.errorCodes) ->
        MegaAPI.deliver (JNum num)
        = Rejected "EUNKNOWN" (Some "Unknown error"))
  /\ (forall v, (forall num, v = JNum num -> 0 <= num) ->
        MegaAPI.deliver v = Resolved v)
  /\ (forall code msg,
        fst (MegaAPI.callMulti requests w) = Rejected code msg ->
        calls = repeat (Rejected code msg) n)
  /\ (forall code msg rest,
        MegaAPI.script w = MegaAPI.Onerror code msg :: rest ->
        MegaAPI.is_retry code = false ->
        calls = repeat (Rejected code (Some msg)) n)
  /\ (forall num rest,
        MegaAPI.script w = MegaAPI.Onload (Some (JNum num)) :: rest ->
        calls
        = repeat (Rejected (MegaAPI.getErrorName num)
                    (Some (MegaAPI.getErrorMessage
                             (MegaAPI.getErrorName num)))) n).
Proof.
  intros n calls.
  assert (Hrej : forall code msg,
            fst (MegaAPI.callMulti requests w) = Rejected code msg ->
            calls = repeat (Rejected code msg) n).
  { intros code msg Hr. unfold calls, CallBatch.send. fold n.
    destruct (Nat.ltb_spec 0 n) as [Hn | Hn].
    - destruct (MegaAPI.callMulti requests w) as [o w'].
      simpl in Hr. subst o. simpl. apply map_repeat_const.
    - simpl. by replace n with 0%nat by lia. }
  split; [| split; [| split; [| split; [| split; [| split]]]]].
  - intros responses Hr.
    assert (Hcalls : (0 < n)%nat ->
              calls = fst (CallBatch.each responses 0
                             (repeat Pending n))).
    { intros Hn. unfold calls, CallBatch.send. fold n.
      destruct (Nat.ltb_spec 0 n); [| lia].
      destruct (MegaAPI.callMulti requests w) as [o w'].
      simpl in Hr. by subst o. }
    split.
    + intros i r Hi Hri. rewrite Hcalls by lia.
      apply each_at; [rewrite repeat_length; lia |].
      by rewrite Nat.sub_0_r.
    + intros i Hi. rewrite Hcalls by lia.
      rewrite each_beyond by (simpl; lia).
      apply repeat_lookup. lia.
  - intros name num msg Hc Hm.
    pose proof (errorCodes_range _ _ Hc) as Hrange.
    split; [lia |]. unfold MegaAPI.deliver.
    destruct (Z.ltb_spec num 0); [| lia].
    by rewrite (getErrorName_mapped _ _ Hc),
               (getErrorMessage_canonical _ _ Hm).
  - intros num Hneg Hno. unfold MegaAPI.deliver.
    destruct (Z.ltb_spec num 0); [| lia].
    by rewrite (getErrorName_unmapped _ Hno).
  - intros v Hv. destruct v as [| | b | num | s | l | fs]; try done.
    unfold MegaAPI.deliver. specialize (Hv num eq_refl).
    by destruct (Z.ltb_spec num 0); [lia |].
  - exact Hrej.
  - intros code msg rest Hsc Hc. apply Hrej.
    unfold MegaAPI.callMulti. rewrite Hsc. cbn [MegaAPI.doRequest].
    by rewrite Hc.
  - intros num rest Hsc. apply Hrej.
    unfold MegaAPI.callMulti. by rewrite Hsc.
Qed.

(** ** Login *)

(** The first half of C4: what [tsOk] computes. *)
Lemma tsOk_iff (C : facade) (ts : string) (mk : list Z) :
  let tsbuf := ub64dec C ts in
  MegaAPI.tsOk C (Some ts) mk = Ret true
  <-> (32 <= length tsbuf)%nat
      /\ skipn (length tsbuf - 16) tsbuf = aes_enc C mk (firstn 16 tsbuf).
Proof.
  intros tsbuf. unfold MegaAPI.tsOk. simpl. fold tsbuf.
  unfold Buf.slicebuf, Buf.eqb. change (skipn 0 tsbuf) with tsbuf.
  assert (Hlast : (16 <= length tsbuf)%nat ->
            firstn 16 (skipn (length tsbuf - 16) tsbuf)
            = skipn (length tsbuf - 16) tsbuf).
  { intros H. apply take_ge. rewrite length_drop. lia. }
  destruct (Nat.ltb_spec (length tsbuf) 32) as [Hlt | Hge].
  - split; [done | lia].
  - rewrite Hlast by lia. split.
    + intros [= H]. apply bool_decide_eq_true in H. done.
    + intros [_ H]. by rewrite bool_decide_eq_true_2.
Qed.

(** One request, answered at once by an array of one element. *)
Lemma call_answered (request res : json) (w : MegaAPI.world)
    (rest : list MegaAPI.http_event) :
  MegaAPI.script w = MegaAPI.Onload (Some (JArr [res])) :: rest ->
  MegaAPI.call request w
  = (MegaAPI.deliver res,
     {| MegaAPI.sid := MegaAPI.sid w;
        MegaAPI.sidParamName := MegaAPI.sidParamName w;
        MegaAPI.callId := MegaAPI.incr (MegaAPI.callId w);
        MegaAPI.script := rest;
        MegaAPI.log :=
          MegaAPI.log w
          ++ [MegaAPI.Http
                (MegaAPI.mk_url (MegaAPI.incr (MegaAPI.callId w))
                   (MegaAPI.sid w) (MegaAPI.sidParamName w))
                [request]] |}).
Proof.
  intros Hsc. unfold MegaAPI.call, MegaAPI.done, MegaAPI.callMulti.
  rewrite Hsc. cbn [MegaAPI.doRequest nth].
  reflexivity.
Qed.

(** C4, at the input where the code departs from it.  The server answers
    the login request with a master key [k] and a [tsid] that fails the
    check: neither [loginEphemeral] nor [login] rejects with
    [invalid_tsid]; both stop with a ReferenceError, because the callback
    names a [defer] that is bound nowhere in its scope. *)
Theorem login_invalid_tsid_throws (C : facade)
    (uh email password k tsid u : string) (w : MegaAPI.world)
    (rest : list MegaAPI.http_event) :
  MegaAPI.script w
  = MegaAPI.Onload
      (Some (JArr [JObj [("k", JStr k); ("tsid", JStr tsid); ("u", JStr u)]]))
    :: rest ->
  MegaAPI.tsOk C (Some tsid)
    (aes_dec C (aes_key_from_password C password) (ub64dec C k))
  = Ret false ->
  fst (MegaAPI.loginEphemeral C uh password w)
  = Thrown (ReferenceError "defer")
  /\ (tsid <> "" ->
      fst (MegaAPI.login C email password w)
      = Thrown (ReferenceError "defer")).
Proof.
  intros Hsc Hts. split.
  - unfold MegaAPI.loginEphemeral, MegaAPI.done at 1.
    rewrite (call_answered _ _ _ rest) by exact Hsc.
    cbn [MegaAPI.deliver]. unfold MegaAPI.done, MegaAPI.lift.
    cbn [prop assoc String.eqb Ascii.eqb Bool.eqb opt_string required
         Js.bind].
    rewrite Hts. reflexivity.
  - intros Hne. unfold MegaAPI.login, MegaAPI.done at 1.
    rewrite (call_answered _ _ _ rest) by exact Hsc.
    cbn [MegaAPI.deliver]. unfold MegaAPI.done at 1, MegaAPI.lift.
    cbn [prop assoc String.eqb Ascii.eqb Bool.eqb opt_string required
         Js.bind MegaAPI.resolved str_truthy negb].
    apply str_truthy_Some in Hne. unfold str_truthy in Hne. rewrite Hne.
    unfold MegaAPI.done. rewrite Hts. reflexivity.
Qed.

(** ** Opening a session *)

(** What a successful [load] found on disk. *)
Lemma load_true (C : facade) (s s1 : Session.session)
    (disk : gmap string (list Z)) :
  Session.load C s disk = Ret (s1, true) ->
  exists p,
    Session.loadSessionFile C (Session.cred s) disk None = Some p
    /\ p <> []
    /\ jx_dec_session C (Buf.to_string p) = Some (Session.data s1).
Proof.
  unfold Session.load.
  destruct (Session.loadSessionFile C (Session.cred s) disk None)
    as [p|]; [| done].
  destruct p as [|b p]; [done |]. cbn [Buf.truthy negb].
  destruct (jx_dec_session C _) as [d|] eqn:Ed; [| done]. cbn [Js.bind].
  intros H. exists (b :: p). split; [done |]. split; [done |].
  rewrite Ed. f_equal.
  destruct (Session.loadSessionFile C (Session.cred s) disk (Some "fs"))
    as [fd|].
  - destruct (Buf.truthy fd).
    + destruct (jx_dec_fs C _); [| done]. by injection H as <-.
    + by injection H as <-.
  - by injection H as <-.
Qed.

(** C8. When the session file loads, the time it was saved at is less
    than an hour before now, and no check is forced, [open] resolves at
    once: the session holds the loaded data, the disk is as it was, and
    the API object and its transport are untouched, so no request was
    sent and none of [getUser], [login], [loginEphemeral] ran. *)
Theorem open_fresh_no_traffic (C : facade) (now later saved : Z)
    (st : Session.state) (s1 : Session.session) (w : MegaAPI.world) :
  Session.load C (fst st) (snd st) = Ret (s1, true) ->
  d_saved (Session.data s1) = Some saved ->
  saved <> 0 ->
  now - 60 * 60 * 1000 < saved ->
  Session.open C false now later st w = (Resolved tt, (s1, snd st), w)
  /\ MegaAPI.log (snd (Session.open C false now later st w)) = MegaAPI.log w.
Proof.
  intros Hload Hsaved Hnz Hfresh.
  assert (Hf : Session.isFresh s1 now = true).
  { unfold Session.isFresh, Session.timeout. rewrite Hsaved.
    apply andb_true_intro. split.
    - apply negb_true_iff. lia.
    - lia. }
  assert (Session.open C false now later st w = (Resolved tt, (s1, snd st), w))
    as ->; [| done].
  unfold Session.open. by rewrite Hload, Hf.
Qed.

(** The one-hour window is what decides: [isFresh] holds exactly when a
    non-zero [saved] is later than an hour before now. *)
Lemma isFresh_iff (s : Session.session) (now : Z) :
  Session.isFresh s now = true
  <-> exists saved, d_saved (Session.data s) = Some saved
                    /\ saved <> 0 /\ now - 3600000 < saved.
Proof.
  unfold Session.isFresh, Session.timeout.
  destruct (d_saved (Session.data s)) as [t|].
  - rewrite andb_true_iff, negb_true_iff. split.
    + intros [H1 H2]. exists t. repeat split; lia.
    + intros (t' & [= <-] & H1 & H2). lia.
  - split; [done | by intros (? & ? & _)].
Qed.

(** ** Loading the filesystem *)

(** C3, at every input.  [load] calls a method [callSingle] of the API
    object; the object has no property of that name (its request method
    is [call]), so the call throws before anything is sent: the API
    object, the script and the log are as they were, and nothing is
    ingested. *)
Theorem load_calls_undefined_method (C : facade) (sd : session_data)
    (f : filesystem) (w : MegaAPI.world) :
  Filesystem.load C sd f w
  = (Thrown (TypeError "callSingle is not a function"), w)
  /\ existsb (String.eqb "callSingle") MegaAPI.properties = false
  /\ existsb (String.eqb "call") MegaAPI.properties = true.
Proof. by vm_compute. Qed.

(** Through the method the API object does have, the same code sends the
    one request and hands the answer to the callback. *)
Lemma load_through_call (C : facade) (sd : session_data) (f : filesystem)
    (w : MegaAPI.world) (r : json) (rest : list MegaAPI.http_event) :
  MegaAPI.script w = MegaAPI.Onload (Some (JArr [r])) :: rest ->
  MegaAPI.deliver r = Resolved r ->
  exists w',
    Filesystem.load_through "call" C sd f w
    = (match Filesystem.load_done C sd f r with
       | Ret f' => Resolved f'
       | Throw e => Thrown e
       end, w')
    /\ MegaAPI.log w'
       = MegaAPI.log w
         ++ [MegaAPI.Http
               (MegaAPI.mk_url (MegaAPI.incr (MegaAPI.callId w))
                  (MegaAPI.sid w) (MegaAPI.sidParamName w))
               [JObj [("a", JStr "f"); ("c", JNum 1); ("r", JNum 1)]]].
Proof.
  intros Hsc Hr. eexists. split.
  - unfold Filesystem.load_through, MegaAPI.invoke.
    change (existsb (String.eqb "call") MegaAPI.properties) with true.
    cbn [negb String.eqb Ascii.eqb Bool.eqb].
    unfold MegaAPI.done at 1.
    rewrite (call_answered _ _ _ rest) by exact Hsc. rewrite Hr.
    unfold MegaAPI.lift.
    destruct (Filesystem.load_done C sd f r); reflexivity.
  - reflexivity.
Qed.

(** A user entry with [c == 1] becomes a contact node under [*NETWORK];
    another entry is skipped. *)
Lemma load_u_contact (h : string) (m : json) (c ts : option Z)
    (f : filesystem) :
  Filesystem.load_u
    [JObj [("u", JStr h); ("c", default JUndef (JNum <$> c)); ("m", m);
           ("ts", default JUndef (JNum <$> ts))]] f
  = Ret (if bool_decide (c = Some 1) then
           Filesystem.set_node f h
             {| type := Some NodeType.CONTACT; handle := Some h;
                parent_handle := Some "*NETWORK"; su_handle := None;
                user := None; size := Some 0; mtime := ts;
                key_full := None; key := None; attrs := None; name := m |}
         else f).
Proof. destruct c as [c|], ts as [ts|]; reflexivity. Qed.

(** ** Importing a node *)

(** What the [sk] block would do with a value in [sk]: RSA above 16
    bytes, AES-ECB under the master key at 16, and the first 16 bytes of
    the result as the share key of the node's handle. *)
Lemma import_sk_assigned (C : facade) (sd : session_data) (f : filesystem)
    (n : node) (h : string) (skb mk : list Z) :
  handle n = Some h ->
  d_mk sd = Some mk ->
  (16 <= length skb)%nat ->
  let dec :=
    if (16 <? length skb)%nat then rsa_decrypt C (d_privk sd) mk skb
    else Some (aes_dec C mk skb) in
  Filesystem.import_sk C sd f n (Some skb)
  = Ret (match dec with
         | Some (b :: d) => Filesystem.setShareKey f h (firstn 16 (b :: d))
         | _ => f
         end).
Proof.
  intros Hh Hmk Hlen dec. unfold Filesystem.import_sk, dec.
  rewrite Hmk, Hh. cbn [required Js.bind default].
  destruct (Nat.ltb_spec 16 (length skb)) as [Hgt | Hle].
  - cbn [Js.bind]. by destruct (rsa_decrypt C _ _ _) as [[|b d]|].
  - replace (length skb =? 16)%nat with true
      by (symmetry; apply Nat.eqb_eq; lia).
    cbn [Js.bind]. by destruct (aes_dec C mk skb) as [|b d].
Qed.

(** C9, at the inputs where the code departs from it.  For a node whose
    data carry a non-empty [sk], [importNode] installs no share key and
    returns no node: where the node was not dropped before, reading the
    length of the unassigned [sk] throws a TypeError.  With neither [k]
    nor [a] in the data the block is always reached. *)
Theorem importNode_sk_throws (C : facade) (sd : session_data)
    (f : filesystem) (data : Filesystem.node_data) (sk : string) :
  Filesystem.nd_sk data = Some sk ->
  sk <> "" ->
  (forall n f', Filesystem.importNode C sd f data <> Ret (Some n, f'))
  /\ (Filesystem.nd_k data = None ->
      Filesystem.nd_a data = None ->
      Filesystem.importNode C sd f data
      = Throw (TypeError "cannot read property length of undefined")).
Proof.
  intros Hsk Hne. apply str_truthy_Some in Hne.
  unfold Filesystem.importNode. rewrite Hsk, Hne. split.
  - intros n f'.
    destruct (Filesystem.import_keys C sd f data) as [[n1|]|e1]; try done.
    cbn [Js.bind].
    destruct (Filesystem.import_attrs C n1 data) as [[n2|]|e]; done.
  - intros Hk Ha. unfold Filesystem.import_keys, Filesystem.import_attrs.
    rewrite Hk, Ha. cbn [str_truthy Js.bind]. by rewrite andb_false_r.
Qed.

(** [importNode] on a node whose key loads and whose attributes decrypt
    to an object with a string for a name: the name test decides. *)
Lemma importNode_named (C : facade) (sd : session_data) (f : filesystem)
    (data : Filesystem.node_data) (n1 : node) (kb attrs : list Z)
    (a text nm : string) (parsed : json) :
  Filesystem.import_keys C sd f data = Ret (Some n1) ->
  key n1 = Some kb -> kb <> [] ->
  Filesystem.nd_a data = Some a -> a <> "" ->
  aes_dec_cbc C kb (ub64dec C a) = Some attrs ->
  firstn 5 attrs = Buf.of_string "MEGA{" ->
  buftojsonstring C (skipn 4 attrs) = Some text ->
  JSON_parse C text = Some parsed ->
  prop parsed "n" = Ret (JStr nm) ->
  Filesystem.nd_sk data = None ->
  Filesystem.importNode C sd f data
  = if String.eqb nm "." || String.eqb nm ".."
       || contains (if String.eqb (os C) "windows"
                    then Filesystem.windows_pattern else "/") nm
    then Ret (None, f)
    else Ret (Some (Filesystem.fixed_name
                      (Filesystem.set_attrs n1 (Some parsed) (JStr nm))), f).
Proof.
  intros Hk Hkey Hkb Ha Hane Hdec Hmagic Htext Hparse Hn Hsk.
  unfold Filesystem.importNode. rewrite Hk, Hsk. cbn [Js.bind].
  unfold Filesystem.import_attrs. rewrite Hkey, Ha.
  apply str_truthy_Some in Hane. rewrite Hane.
  change (default [] (Some kb)) with kb. change (default "" (Some a)) with a.
  destruct kb as [|b kb]; [done |]. cbn [Filesystem.buf_truthy Buf.truthy andb].
  rewrite Hdec. unfold Buf.slicebuf, Buf.slicebuf_from, Buf.eqb.
  change (skipn 0 attrs) with attrs.
  rewrite bool_decide_eq_true_2 by exact Hmagic.
  destruct attrs as [|x attrs]; [by vm_compute in Hmagic |].
  cbn [Buf.truthy andb]. rewrite Htext, Hparse. cbn [Js.bind].
  rewrite Hn. cbn [Js.bind Filesystem.invalid_name].
  by destruct (_ || _ || _).
Qed.

(** C10, at the inputs where the code departs from it.  On Windows the
    name is searched for the nine separator characters as one sequence,
    not for any one of them: a node whose name is neither [.] nor [..]
    and does not contain that whole sequence is imported, whatever
    separators the name has. *)
Theorem importNode_windows_keeps_separators (C : facade)
    (sd : session_data) (f : filesystem) (data : Filesystem.node_data)
    (n1 : node) (kb attrs : list Z) (a text nm : string) (parsed : json) :
  os C = "windows" ->
  Filesystem.import_keys C sd f data = Ret (Some n1) ->
  key n1 = Some kb -> kb <> [] ->
  Filesystem.nd_a data = Some a -> a <> "" ->
  aes_dec_cbc C kb (ub64dec C a) = Some attrs ->
  firstn 5 attrs = Buf.of_string "MEGA{" ->
  buftojsonstring C (skipn 4 attrs) = Some text ->
  JSON_parse C text = Some parsed ->
  prop parsed "n" = Ret (JStr nm) ->
  Filesystem.nd_sk data = None ->
  nm <> "." -> nm <> ".." ->
  contains Filesystem.windows_pattern nm = false ->
  Filesystem.importNode C sd f data
  = Ret (Some (Filesystem.fixed_name
                 (Filesystem.set_attrs n1 (Some parsed) (JStr nm))), f).
Proof.
  intros Hos Hk Hkey Hkb Ha Hane Hdec Hmagic Htext Hparse Hn Hsk H1 H2 Hpat.
  rewrite (importNode_named C sd f data n1 kb attrs a text nm parsed)
    by assumption.
  rewrite Hos. cbn [String.eqb Ascii.eqb Bool.eqb]. rewrite Hpat.
  apply String.eqb_neq in H1, H2. by rewrite H1, H2.
Qed.

(** The part of C10 the code keeps: [.] and [..] are dropped on every
    platform, and off Windows so is every name with a slash in it. *)
Lemma importNode_drops_unsafe_names (C : facade) (sd : session_data)
    (f : filesystem) (data : Filesystem.node_data) (n1 : node)
    (kb attrs : list Z) (a text nm : string) (parsed : json) :
  Filesystem.import_keys C sd f data = Ret (Some n1) ->
  key n1 = Some kb -> kb <> [] ->
  Filesystem.nd_a data = Some a -> a <> "" ->
  aes_dec_cbc C kb (ub64dec C a) = Some attrs ->
  firstn 5 attrs = Buf.of_string "MEGA{" ->
  buftojsonstring C (skipn 4 attrs) = Some text ->
  JSON_parse C text = Some parsed ->
  prop parsed "n" = Ret (JStr nm) ->
  Filesystem.nd_sk data = None ->
  nm = "." \/ nm = ".." \/ (os C <> "windows" /\ contains "/" nm = true) ->
  Filesystem.importNode C sd f data = Ret (None, f).
Proof.
  intros Hk Hkey Hkb Ha Hane Hdec Hmagic Htext Hparse Hn Hsk Hbad.
  rewrite (importNode_named C sd f data n1 kb attrs a text nm parsed)
    by assumption.
  destruct Hbad as [-> | [-> | [Hos Hc]]]; [done | done |].
  apply String.eqb_neq in Hos. rewrite Hos, Hc.
  by rewrite !orb_true_r.
Qed.

(** ** The theorems at sample inputs *)

Lemma loadSessionFile_saveSessionFile_witness :
  length (sha256_digest Toy.C [1; 2; 3]) = 32%nat
  /\ Session.loadSessionFile Toy.C (Session.setCredentials Toy.C "alice" "pw")
       (fst (Session.saveSessionFile Toy.C
               (Session.setCredentials Toy.C "alice" "pw") ∅ (Some "fs")
               [1; 2; 3]))
       (Some "fs")
     = Some [1; 2; 3].
Proof.
  split; [reflexivity |].
  apply (proj1 (loadSessionFile_saveSessionFile Toy.C "alice" "pw"
                  (Some "fs") [1; 2; 3] ∅ eq_refl)).
  reflexivity.
Defined.


Lemma login_invalid_tsid_throws_witness :
  MegaAPI.script (Toy.world0 Sample.bad_login)
  = MegaAPI.Onload
      (Some (JArr [JObj [("k", JStr "0123456789abcdef");
                         ("tsid", JStr "short"); ("u", JStr "AAAAAAAAAAA")]]))
    :: []
  /\ MegaAPI.tsOk Toy.C (Some "short")
       (aes_dec Toy.C (aes_key_from_password Toy.C "pw")
          (ub64dec Toy.C "0123456789abcdef"))
     = Ret false
  /\ fst (MegaAPI.loginEphemeral Toy.C "AAAAAAAAAAA" "pw"
            (Toy.world0 Sample.bad_login))
     = Thrown (ReferenceError "defer").
Proof.
  split; [reflexivity |]. split; [reflexivity |].
  apply (proj1 (login_invalid_tsid_throws Toy.C "AAAAAAAAAAA" "a@x" "pw"
                  "0123456789abcdef" "short" "AAAAAAAAAAA"
                  (Toy.world0 Sample.bad_login) [] eq_refl eq_refl)).
Defined.

Lemma send_delivers_witness :
  fst (MegaAPI.callMulti Sample.three (Toy.world0 Sample.flaky))
  = Resolved [JStr "ok1"; JNum (-9); JStr "ok3"]
  /\ fst (fst (CallBatch.send Sample.three (Toy.world0 Sample.flaky))) !! 1%nat
     = Some (Rejected "ENOENT" (Some "Not found")).
Proof.
  split; [reflexivity |].
  destruct (send_delivers Sample.three (Toy.world0 Sample.flaky))
    as [Harr _].
  destruct (Harr [JStr "ok1"; JNum (-9); JStr "ok3"] eq_refl) as [Hat _].
  apply (Hat 1%nat (JNum (-9))); [simpl; lia | reflexivity].
Defined.

Lemma callMulti_retry_policy_witness :
  MegaAPI.script (Toy.world0 Sample.flaky)
  = [MegaAPI.Onerror "busy" "try again";
     MegaAPI.Onerror "no_response" "timed out"]
    ++ MegaAPI.Onload (Some (JArr [JStr "ok1"; JNum (-9); JStr "ok3"])) :: []
  /\ MegaAPI.log (snd (MegaAPI.callMulti Sample.three
                         (Toy.world0 Sample.flaky)))
     = [MegaAPI.Http "https://g.api.mega.co.nz/cs?id=1" Sample.three;
        MegaAPI.Timer 10000;
        MegaAPI.Http "https://g.api.mega.co.nz/cs?id=1" Sample.three;
        MegaAPI.Timer 20000;
        MegaAPI.Http "https://g.api.mega.co.nz/cs?id=1" Sample.three].
Proof.
  split; [reflexivity |].
  assert (Hall : Forall (fun f => Spec.retryable f = true)
                   [MegaAPI.Onerror "busy" "try again";
                    MegaAPI.Onerror "no_response" "timed out"])
    by (repeat constructor).
  assert (Hlen : (length [MegaAPI.Onerror "busy" "try again";
                          MegaAPI.Onerror "no_response" "timed out"]
                  <= 14)%nat) by (simpl; lia).
  rewrite (proj1 (callMulti_retry_policy Sample.three
                    (Toy.world0 Sample.flaky)
                    [MegaAPI.Onerror "busy" "try again";
                     MegaAPI.Onerror "no_response" "timed out"]
                    (MegaAPI.Onload
                       (Some (JArr [JStr "ok1"; JNum (-9); JStr "ok3"])))
                    [] eq_refl Hall Hlen eq_refl)).
  reflexivity.
Defined.

Lemma callMulti_callId_increases_witness :
  MegaAPI.callId (Toy.world0 Sample.flaky) < 2 ^ 53
  /\ MegaAPI.callId (snd (MegaAPI.callMulti Sample.three
                            (Toy.world0 Sample.flaky))) = 1.
Proof.
  split; [reflexivity |].
  apply (proj1 (callMulti_callId_increases Sample.three
                  (Toy.world0 Sample.flaky) eq_refl)).
Defined.

Lemma open_fresh_no_traffic_witness :
  Session.load Toy.C Sample.session0 Sample.saved_disk
  = Ret (Sample.loaded, true)
  /\ d_saved (Session.data Sample.loaded) = Some 1700000000000
  /\ 1700000000000 <> 0
  /\ 1700000060000 - 60 * 60 * 1000 < 1700000000000
  /\ MegaAPI.log
       (snd (Session.open Toy.C false 1700000060000 1700000060500
               (Sample.session0, Sample.saved_disk) (Toy.world0 Sample.flaky)))
     = [].
Proof.
  assert (H1 : Session.load Toy.C
                 (fst (Sample.session0, Sample.saved_disk))
                 (snd (Sample.session0, Sample.saved_disk))
               = Ret (Sample.loaded, true)) by (vm_compute; reflexivity).
  assert (H2 : d_saved (Session.data Sample.loaded) = Some 1700000000000)
    by reflexivity.
  assert (H3 : 1700000000000 <> 0) by lia.
  assert (H4 : 1700000060000 - 60 * 60 * 1000 < 1700000000000) by lia.
  repeat (split; [assumption |]).
  apply (proj2 (open_fresh_no_traffic Toy.C 1700000060000 1700000060500
                  1700000000000 (Sample.session0, Sample.saved_disk)
                  Sample.loaded (Toy.world0 Sample.flaky) H1 H2 H3 H4)).
Defined.

(** Past the hour the same session goes to the server. *)
Example open_stale_asks_server :
  MegaAPI.log
    (snd (Session.open Toy.C false 1800000000000 1800000000500
            (Sample.session0, Sample.saved_disk) (Toy.world0 [])))
  = [MegaAPI.Http "https://g.api.mega.co.nz/cs?id=1&sid=sid0"
       [JObj [("a", JStr "ug")]]].
Proof. vm_compute. reflexivity. Qed.

Lemma importNode_sk_throws_witness :
  Filesystem.nd_sk Sample.shared_folder = Some "0123456789abcdef"
  /\ "0123456789abcdef" <> ""
  /\ Filesystem.importNode Toy.C Toy.a_session Session.empty_fs
       Sample.shared_folder
     = Throw (TypeError "cannot read property length of undefined").
Proof.
  assert (H2 : "0123456789abcdef" <> "") by discriminate.
  split; [reflexivity |]. split; [exact H2 |].
  apply (proj2 (importNode_sk_throws Toy.C Toy.a_session Session.empty_fs
                  Sample.shared_folder "0123456789abcdef" eq_refl H2));
    reflexivity.
Defined.

Lemma importNode_windows_keeps_separators_witness :
  os (Toy.on "windows") = "windows"
  /\ contains ":" "a:b" = true
  /\ contains Filesystem.windows_pattern "a:b" = false
  /\ exists n,
       Filesystem.importNode (Toy.on "windows") Toy.a_session
         Session.empty_fs Sample.colon_file
       = Ret (Some n, Session.empty_fs)
       /\ name n = JStr "a:b".
Proof.
  split; [reflexivity |]. split; [reflexivity |]. split; [reflexivity |].
  eexists. split.
  - apply (importNode_windows_keeps_separators (Toy.on "windows")
             Toy.a_session Session.empty_fs Sample.colon_file
             Sample.colon_keyed (default [] (key Sample.colon_keyed))
             (Buf.of_string ("MEGA" +:+ Toy.name_object "a:b"))
             ("MEGA" +:+ Toy.name_object "a:b") (Toy.name_object "a:b")
             "a:b" (JObj [("n", JStr "a:b")]) eq_refl);
      try (vm_compute; reflexivity); discriminate.
  - reflexivity.
Defined.

(** ** More about the error tables and the engine *)

(** X1. The two tables agree: each of the codes -1 to -22 has one name,
    that name has a message of its own, and different codes have
    different names; every other number is EUNKNOWN, whose message is
    the fallback. *)
Theorem error_tables_agree (z : Z) :
  (-22 <= z <= -1 ->
   exists name msg,
     In (name, z) MegaAPI.errorCodes
     /\ In (name, msg) MegaAPI.errorMessages
     /\ MegaAPI.getErrorName z = name
     /\ MegaAPI.getErrorMessage name = msg
     /\ name <> "EUNKNOWN" /\ msg <> "Unknown error")
  /\ (~ (-22 <= z <= -1) ->
      MegaAPI.getErrorName z = "EUNKNOWN"
      /\ MegaAPI.getErrorMessage (MegaAPI.getErrorName z) = "Unknown error")
  /\ (forall z', -22 <= z <= -1 ->
        MegaAPI.getErrorName z = MegaAPI.getErrorName z' -> z = z').
Proof.
  assert (Hout : forall y, ~ (-22 <= y <= -1) ->
            MegaAPI.getErrorName y = "EUNKNOWN").
  { intros y Hy. apply getErrorName_unmapped. intros name Hin.
    apply errorCodes_range in Hin. lia. }
  split; [| split].
  - intros Hz.
    assert (Hk : z = -1 \/ z = -2 \/ z = -3 \/ z = -4 \/ z = -5 \/ z = -6 \/ z = -7 \/ z = -8 \/ z = -9 \/ z = -10 \/ z = -11 \/ z = -12 \/ z = -13 \/ z = -14 \/ z = -15 \/ z = -16 \/ z = -17 \/ z = -18 \/ z = -19 \/ z = -20 \/ z = -21 \/ z = -22) by lia.
    exists (MegaAPI.getErrorName z),
           (MegaAPI.getErrorMessage (MegaAPI.getErrorName z)).
    repeat (destruct Hk as [-> | Hk];
            [vm_compute; repeat split; try discriminate; tauto |]).
    subst z. vm_compute. repeat split; try discriminate; tauto.
  - intros Hz. by rewrite (Hout z Hz).
  - intros z' Hz Heq.
    destruct (decide (-22 <= z' <= -1)) as [Hz' | Hz'].
    + assert (Hk : z = -1 \/ z = -2 \/ z = -3 \/ z = -4 \/ z = -5 \/ z = -6 \/ z = -7 \/ z = -8 \/ z = -9 \/ z = -10 \/ z = -11 \/ z = -12 \/ z = -13 \/ z = -14 \/ z = -15 \/ z = -16 \/ z = -17 \/ z = -18 \/ z = -19 \/ z = -20 \/ z = -21 \/ z = -22) by lia.
      assert (Hk' : z' = -1 \/ z' = -2 \/ z' = -3 \/ z' = -4 \/ z' = -5 \/ z' = -6 \/ z' = -7 \/ z' = -8 \/ z' = -9 \/ z' = -10 \/ z' = -11 \/ z' = -12 \/ z' = -13 \/ z' = -14 \/ z' = -15 \/ z' = -16 \/ z' = -17 \/ z' = -18 \/ z' = -19 \/ z' = -20 \/ z' = -21 \/ z' = -22) by lia.
      repeat (destruct Hk as [-> | Hk];
              [repeat (destruct Hk' as [-> | Hk'];
                       [first [reflexivity | by vm_compute in Heq] |]);
               subst z'; first [reflexivity | by vm_compute in Heq] |]).
      subst z.
      repeat (destruct Hk' as [-> | Hk'];
              [first [reflexivity | by vm_compute in Heq] |]).
      subst z'. reflexivity.
    + rewrite (Hout z' Hz') in Heq. exfalso.
      assert (Hk : z = -1 \/ z = -2 \/ z = -3 \/ z = -4 \/ z = -5 \/ z = -6 \/ z = -7 \/ z = -8 \/ z = -9 \/ z = -10 \/ z = -11 \/ z = -12 \/ z = -13 \/ z = -14 \/ z = -15 \/ z = -16 \/ z = -17 \/ z = -18 \/ z = -19 \/ z = -20 \/ z = -21 \/ z = -22) by lia.
      repeat (destruct Hk as [-> | Hk]; [by vm_compute in Heq |]).
      subst z. by vm_compute in Heq.
Qed.

Lemma deliver_not_negative (r v : json) :
  MegaAPI.deliver r = Resolved v ->
  r = v /\ forall z, v = JNum z -> 0 <= z.
Proof.
  destruct r as [| | b | num | s | l | fs]; simpl;
    try (intros [= <-]; split; [done | intros z [=]]).
  destruct (Z.ltb_spec num 0); [done |].
  intros [= <-]. split; [done |]. intros z [= <-]. lia.
Qed.

(** X2. [call] sends the request as a batch of one and settles on the
    first element of the answer: it never resolves with a negative
    number; a negative first element rejects with its error name and
    message; an empty array resolves with [undefined].  The API object
    and the transport are left as [callMulti] leaves them. *)
Theorem call_settles_on_first (request : json) (w : MegaAPI.world) :
  snd (MegaAPI.call request w) = snd (MegaAPI.callMulti [request] w)
  /\ (forall v, fst (MegaAPI.call request w) = Resolved v ->
        (forall z, v = JNum z -> 0 <= z)
        /\ exists responses,
             fst (MegaAPI.callMulti [request] w) = Resolved responses
             /\ nth 0 responses JUndef = v)
  /\ (forall z rest,
        fst (MegaAPI.callMulti [request] w) = Resolved (JNum z :: rest) ->
        z < 0 ->
        fst (MegaAPI.call request w)
        = Rejected (MegaAPI.getErrorName z)
            (Some (MegaAPI.getErrorMessage (MegaAPI.getErrorName z))))
  /\ (fst (MegaAPI.callMulti [request] w) = Resolved [] ->
      fst (MegaAPI.call request w) = Resolved JUndef)
  /\ (forall code msg,
        fst (MegaAPI.callMulti [request] w) = Rejected code msg ->
        fst (MegaAPI.call request w) = Rejected code msg).
Proof.
  unfold MegaAPI.call, MegaAPI.done.
  destruct (MegaAPI.callMulti [request] w) as [[responses | c m | | e] w'];
    simpl; (split; [done |]); (split; [| split; [| split]]); try done.
  - intros v Hv. apply deliver_not_negative in Hv as [Hr Hz].
    split; [done |]. by exists responses.
  - intros z rest [= ->] Hz. simpl. by destruct (Z.ltb_spec z 0); [| lia].
  - by intros [= ->].
  - by intros code msg [= -> ->].
Qed.

Lemma requests_in_app (a b : list MegaAPI.io_event) :
  Calls.requests_in (a ++ b)
  = (Calls.requests_in a + Calls.requests_in b)%nat.
Proof. unfold Calls.requests_in. by rewrite List.filter_app, length_app. Qed.

Lemma requests_in_http (lg : list MegaAPI.io_event) (u : string)
    (d : list json) :
  Calls.requests_in (lg ++ [MegaAPI.Http u d])
  = (Calls.requests_in lg + 1)%nat.
Proof. by rewrite requests_in_app. Qed.

Lemma requests_in_timer (lg : list MegaAPI.io_event) (ms : Z) :
  Calls.requests_in (lg ++ [MegaAPI.Timer ms]) = Calls.requests_in lg.
Proof. rewrite requests_in_app. unfold Calls.requests_in at 2. simpl. lia. Qed.

Lemma doRequest_requests (url : string) (req : list json)
    (sc : list MegaAPI.http_event) :
  forall (k : nat) (lg : list MegaAPI.io_event),
  (k <= 14)%nat ->
  (Calls.requests_in lg + 1
   <= Calls.requests_in
        (snd (MegaAPI.doRequest url req (10000 * 2 ^ Z.of_nat k) sc lg))
   <= Calls.requests_in lg + (15 - k))%nat.
Proof.
  induction sc as [|e sc IH]; intros k lg Hk.
  - cbn [MegaAPI.doRequest snd]. rewrite requests_in_http. lia.
  - destruct e as [[r|] | code msg]; cbn [MegaAPI.doRequest].
    + destruct r; cbn [snd]; rewrite requests_in_http; lia.
    + cbn [snd]. rewrite requests_in_http. lia.
    + destruct (MegaAPI.is_retry code);
        [destruct (Z.ltb_spec (10000 * 2 ^ Z.of_nat k) (120 * 1000 * 1000))
           as [Hlt | Hge] |];
        try (cbn [snd]; rewrite requests_in_http; lia).
      assert (k <= 13)%nat as Hk13.
      { destruct (decide (k = 14%nat)) as [-> | ?]; [| lia].
        exfalso. change (10000 * 2 ^ Z.of_nat 14) with 163840000 in Hlt. lia. }
      replace (10000 * 2 ^ Z.of_nat k * 2) with (10000 * 2 ^ Z.of_nat (S k))
        by (rewrite Nat2Z.inj_succ, Z.pow_succ_r; lia).
      specialize (IH (S k) ((lg ++ [MegaAPI.Http url req])
                              ++ [MegaAPI.Timer (10000 * 2 ^ Z.of_nat k)])
                    ltac:(lia)).
      rewrite requests_in_timer, requests_in_http in IH. lia.
Qed.

(** X3. Whatever the transport does, one batch is posted at least once
    and at most fifteen times. *)
Theorem callMulti_request_bound (requests : list json) (w : MegaAPI.world) :
  (Calls.requests_in (MegaAPI.log w) + 1
   <= Calls.requests_in (MegaAPI.log (snd (MegaAPI.callMulti requests w)))
   <= Calls.requests_in (MegaAPI.log w) + 15)%nat.
Proof.
  unfold MegaAPI.callMulti.
  pose proof (doRequest_requests
                (MegaAPI.mk_url (MegaAPI.incr (MegaAPI.callId w))
                   (MegaAPI.sid w) (MegaAPI.sidParamName w))
                requests (MegaAPI.script w) 0 (MegaAPI.log w) ltac:(lia)) as H.
  change (10000 * 2 ^ Z.of_nat 0) with 10000 in H.
  destruct (MegaAPI.doRequest _ _ _ _ _) as [[o sc] lg]. simpl in *. lia.
Qed.

(** ** Registration and login *)

Lemma tsOk_accepts_blob (C : facade) (mk ts1 : list Z) :
  length ts1 = 16%nat ->
  length (aes_enc C mk ts1) = 16%nat ->
  ub64dec C (ub64enc C (ts1 ++ aes_enc C mk ts1)) = ts1 ++ aes_enc C mk ts1 ->
  MegaAPI.tsOk C (Some (ub64enc C (ts1 ++ aes_enc C mk ts1))) mk = Ret true.
Proof.
  intros H1 H2 Hb. unfold MegaAPI.tsOk. cbn [required Js.bind]. rewrite Hb.
  rewrite length_app, H1, H2. cbn [Nat.ltb Nat.leb Nat.add Nat.sub].
  unfold Buf.slicebuf, Buf.eqb. change (skipn 0 ?l) with l.
  rewrite take_app_length' by done.
  rewrite drop_app_length' by done.
  rewrite take_ge by lia. by rewrite bool_decide_eq_true_2.
Qed.

(** X4. [tsOk] accepts the blob made of 16 bytes and their encryption
    under the master key, and rejects the blob once one of its 32 bytes
    is changed (for a cipher that sends different blocks to different
    blocks).  A blob that decodes to fewer than 32 bytes is rejected. *)
Theorem tsOk_blob (C : facade) (mk ts1 : list Z) :
  length ts1 = 16%nat ->
  length (aes_enc C mk ts1) = 16%nat ->
  let blob := ts1 ++ aes_enc C mk ts1 in
  ub64dec C (ub64enc C blob) = blob ->
  MegaAPI.tsOk C (Some (ub64enc C blob)) mk = Ret true
  /\ (forall i b,
        (i < 32)%nat -> blob !! i <> Some b ->
        let blob' := <[i := b]> blob in
        ub64dec C (ub64enc C blob') = blob' ->
        (aes_enc C mk (firstn 16 blob') = aes_enc C mk ts1 ->
         firstn 16 blob' = ts1) ->
        MegaAPI.tsOk C (Some (ub64enc C blob')) mk = Ret false)
  /\ (forall ts, (length (ub64dec C ts) < 32)%nat ->
        MegaAPI.tsOk C (Some ts) mk = Ret false).
Proof.
  intros H1 H2 blob Hb. split; [by apply tsOk_accepts_blob |]. split.
  - intros i b Hi Hne blob' Hb' Hinj.
    unfold MegaAPI.tsOk. cbn [required Js.bind]. rewrite Hb'.
    assert (Hlen : length blob' = 32%nat).
    { unfold blob', blob. rewrite length_insert, length_app. lia. }
    rewrite Hlen. cbn [Nat.ltb Nat.leb Nat.sub].
    unfold Buf.slicebuf, Buf.eqb. change (skipn 0 ?l) with l.
    f_equal. apply bool_decide_eq_false_2. intros Heq.
    rewrite take_ge in Heq by (rewrite length_drop; lia).
    destruct (decide (i < 16)%nat) as [Hlt | Hge].
    + assert (Hd : skipn 16 blob' = aes_enc C mk ts1).
      { unfold blob', blob. rewrite insert_app_l by lia.
        by rewrite drop_app_length' by (rewrite length_insert; lia). }
      rewrite Hd in Heq. symmetry in Heq. apply Hinj in Heq.
      unfold blob', blob in Heq. rewrite insert_app_l in Heq by lia.
      rewrite take_app_length' in Heq by (rewrite length_insert; lia).
      apply Hne. unfold blob. rewrite lookup_app_l by lia.
      rewrite <- Heq at 1. apply list_lookup_insert_eq. lia.
    + assert (Hf : firstn 16 blob' = ts1).
      { unfold blob', blob. rewrite insert_app_r_alt by lia.
        by rewrite take_app_length'. }
      rewrite Hf in Heq. unfold blob', blob in Heq.
      rewrite insert_app_r_alt, drop_app_length' in Heq by lia.
      apply Hne. unfold blob. rewrite lookup_app_r by lia.
      rewrite <- Heq at 1. rewrite H1. apply list_lookup_insert_eq. lia.
  - intros ts Hts. unfold MegaAPI.tsOk. cbn [required Js.bind].
    by destruct (Nat.ltb_spec (length (ub64dec C ts)) 32); [| lia].
Qed.

(** X5. [registerEphemeral] posts the wrapped master key and a [ts] blob
    that [tsOk] accepts under the master key it resolves with; the user
    handle is what the server answered. *)
Theorem registerEphemeral_ts_accepted (C : facade) (password : string)
    (mk ts1 : list Z) (w : MegaAPI.world) (uh : json)
    (rest : list MegaAPI.http_event) :
  length ts1 = 16%nat ->
  length (aes_enc C mk ts1) = 16%nat ->
  ub64dec C (ub64enc C (ts1 ++ aes_enc C mk ts1)) = ts1 ++ aes_enc C mk ts1 ->
  MegaAPI.script w = MegaAPI.Onload (Some (JArr [uh])) :: rest ->
  MegaAPI.deliver uh = Resolved uh ->
  exists r w',
    Calls.registerEphemeral C password mk ts1 w = (Resolved r, w')
    /\ Calls.g_uh r = uh /\ Calls.g_mk r = mk
    /\ MegaAPI.tsOk C (Some (ub64enc C (Calls.g_ts r))) (Calls.g_mk r)
       = Ret true
    /\ MegaAPI.log w'
       = MegaAPI.log w
         ++ [MegaAPI.Http
               (MegaAPI.mk_url (MegaAPI.incr (MegaAPI.callId w))
                  (MegaAPI.sid w) (MegaAPI.sidParamName w))
               [JObj [("a", JStr "up");
                      ("k", JStr (ub64enc C
                                    (aes_enc C
                                       (aes_key_from_password C password)
                                       mk)));
                      ("ts", JStr (ub64enc C (Calls.g_ts r)))]]].
Proof.
  intros H1 H2 Hb Hsc Hd.
  unfold Calls.registerEphemeral, MegaAPI.done.
  rewrite (call_answered _ _ _ rest) by exact Hsc. rewrite Hd.
  eexists _, _. split; [reflexivity |]. cbn [Calls.g_uh Calls.g_mk Calls.g_ts].
  repeat split. by apply tsOk_accepts_blob.
Qed.

(** X6. An account registered by [registerEphemeral] logs in with
    [loginEphemeral]: when the server returns the [k] and the [ts] it
    was sent, the login resolves with the same master key, installs the
    blob as session id under the default parameter name, and its request
    carries no session id, whatever was installed before. *)
Theorem loginEphemeral_after_register (C : facade) (uh password : string)
    (mk ts1 : list Z) (w : MegaAPI.world) (rest : list MegaAPI.http_event) :
  let pk := aes_key_from_password C password in
  let k := ub64enc C (aes_enc C pk mk) in
  let tsid := ub64enc C (ts1 ++ aes_enc C mk ts1) in
  length ts1 = 16%nat ->
  length (aes_enc C mk ts1) = 16%nat ->
  ub64dec C tsid = ts1 ++ aes_enc C mk ts1 ->
  aes_dec C pk (ub64dec C k) = mk ->
  MegaAPI.script w
  = MegaAPI.Onload (Some (JArr [JObj [("k", JStr k); ("tsid", JStr tsid)]]))
    :: rest ->
  exists w',
    MegaAPI.loginEphemeral C uh password w
    = (Resolved {| MegaAPI.r_uh := Some uh; MegaAPI.r_sid := Some tsid;
                   MegaAPI.r_email := None; MegaAPI.r_password := password;
                   MegaAPI.r_pk := pk; MegaAPI.r_mk := mk |}, w')
    /\ MegaAPI.sid w' = Some tsid
    /\ MegaAPI.sidParamName w' = None
    /\ MegaAPI.log w'
       = MegaAPI.log w
         ++ [MegaAPI.Http
               (MegaAPI.mk_url (MegaAPI.incr (MegaAPI.callId w)) None None)
               [JObj [("a", JStr "us"); ("user", JStr uh)]]].
Proof.
  intros pk k tsid H1 H2 Hts Hk Hsc.
  unfold MegaAPI.loginEphemeral, MegaAPI.done at 1.
  rewrite (call_answered _ _ _ rest) by exact Hsc.
  cbn [MegaAPI.deliver]. unfold MegaAPI.done, MegaAPI.lift.
  cbn [prop assoc String.eqb Ascii.eqb Bool.eqb opt_string required Js.bind].
  fold pk. fold k. rewrite Hk. fold tsid.
  unfold tsid at 1. rewrite tsOk_accepts_blob by done.
  cbn [Js.bind MegaAPI.resolved negb]. fold tsid.
  eexists. split; [reflexivity |]. by repeat split.
Qed.

(** X7. [login] prefers [csid]: when the answer carries a non-empty
    [csid] that [rsa_decrypt_sid] turns into a session id, that id is
    installed and resolved with, and a [tsid] in the same answer is
    neither checked nor used.  When the [csid] does not decrypt, the
    callback names the unbound [defer] and throws. *)
Theorem login_prefers_csid (C : facade) (email password k csid privk u : string)
    (tsid : option string) (w : MegaAPI.world)
    (rest : list MegaAPI.http_event) :
  csid <> "" ->
  MegaAPI.script w
  = MegaAPI.Onload
      (Some (JArr [JObj [("k", JStr k); ("csid", JStr csid);
                         ("tsid", default JUndef (JStr <$> tsid));
                         ("privk", JStr privk); ("u", JStr u)]]))
    :: rest ->
  let pk := aes_key_from_password C password in
  let mk := aes_dec C pk (ub64dec C k) in
  let s := rsa_decrypt_sid C (Some privk) mk csid in
  (str_truthy s = true ->
   exists w',
     MegaAPI.login C email password w
     = (Resolved {| MegaAPI.r_uh := Some u; MegaAPI.r_sid := s;
                    MegaAPI.r_email := Some email;
                    MegaAPI.r_password := password;
                    MegaAPI.r_pk := pk; MegaAPI.r_mk := mk |}, w')
     /\ MegaAPI.sid w' = s /\ MegaAPI.sidParamName w' = None)
  /\ (str_truthy s = false ->
      fst (MegaAPI.login C email password w)
      = Thrown (ReferenceError "defer")).
Proof.
  intros Hne Hsc pk mk s.
  apply str_truthy_Some in Hne.
  assert (Hlogin : MegaAPI.login C email password w
            = (if negb (str_truthy s)
               then MegaAPI.defer_reject MegaAPI.login_scope
                      "sid_decrypt_fail"
                      "Invalid password (CSID decryption failed)"
               else fun w' =>
                 MegaAPI.resolved
                   {| MegaAPI.r_uh := Some u; MegaAPI.r_sid := s;
                      MegaAPI.r_email := Some email;
                      MegaAPI.r_password := password;
                      MegaAPI.r_pk := pk; MegaAPI.r_mk := mk |}
                   (MegaAPI.setSessionId s None w'))
                (snd (MegaAPI.call
                        (JObj [("a", JStr "us");
                               ("uh", JStr (make_username_hash C pk email));
                               ("user", JStr (toLowerCase email))])
                        (MegaAPI.setSessionId None None w)))).
  { assert (Hts : exists tj, default JUndef (JStr <$> tsid) = tj
                               /\ exists o, opt_string tj = Ret o).
    { destruct tsid; eexists; (split; [reflexivity |]); by eexists. }
    destruct Hts as (tj & Htj & o & Ho). rewrite Htj in Hsc.
    unfold MegaAPI.login, MegaAPI.done at 1. fold pk.
    rewrite (call_answered _ _ _ rest) by exact Hsc.
    cbn [MegaAPI.deliver snd]. unfold MegaAPI.done at 1, MegaAPI.lift.
    cbn [prop assoc String.eqb Ascii.eqb Bool.eqb opt_string required
         Js.bind]. rewrite Ho.
    cbn [Js.bind MegaAPI.resolved]. fold mk. rewrite Hne.
    cbn [default]. reflexivity. }
  rewrite Hlogin. split; intros Hs; rewrite Hs; cbn [negb].
  - eexists. split; [reflexivity |]. by split.
  - reflexivity.
Qed.

(** X8. An answer to [login] with a master key but neither [csid] nor
    [tsid] is accepted as it is: after one request the login resolves
    with no session id, and the API object is left without one. *)
Theorem login_without_session_proof (C : facade)
    (email password k u : string) (w : MegaAPI.world)
    (rest : list MegaAPI.http_event) :
  MegaAPI.script w
  = MegaAPI.Onload (Some (JArr [JObj [("k", JStr k); ("u", JStr u)]]))
    :: rest ->
  let pk := aes_key_from_password C password in
  exists w',
    MegaAPI.login C email password w
    = (Resolved {| MegaAPI.r_uh := Some u; MegaAPI.r_sid := None;
                   MegaAPI.r_email := Some email;
                   MegaAPI.r_password := password; MegaAPI.r_pk := pk;
                   MegaAPI.r_mk := aes_dec C pk (ub64dec C k) |}, w')
    /\ MegaAPI.sid w' = None
    /\ Calls.requests_in (MegaAPI.log w')
       = (Calls.requests_in (MegaAPI.log w) + 1)%nat.
Proof.
  intros Hsc pk.
  unfold MegaAPI.login, MegaAPI.done at 1. fold pk.
  rewrite (call_answered _ _ _ rest) by exact Hsc.
  cbn [MegaAPI.deliver]. unfold MegaAPI.done at 1, MegaAPI.lift.
  cbn [prop assoc String.eqb Ascii.eqb Bool.eqb opt_string required
       Js.bind MegaAPI.resolved str_truthy].
  eexists. split; [reflexivity |]. split; [reflexivity |].
  cbn [MegaAPI.log MegaAPI.setSessionId]. apply requests_in_http.
Qed.

(** ** Confirmation data and usage *)

(** X9. [getConfirmationData] checks the password on the challenge: for
    an answer of five strings it resolves, with the master key decrypted
    under the password key, exactly when bytes 4 to 11 of the decrypted
    challenge are zero, and rejects with [bad_password] otherwise. *)
Theorem getConfirmationData_checks_challenge (C : facade)
    (code password e n k ch : string) (uh : json) (w : MegaAPI.world)
    (rest : list MegaAPI.http_event) :
  MegaAPI.script w
  = MegaAPI.Onload
      (Some (JArr [JArr [JStr e; JStr n; uh; JStr k; JStr ch]]))
    :: rest ->
  let pk := aes_key_from_password C password in
  let challenge := aes_dec C pk (ub64dec C ch) in
  (firstn 8 (skipn 4 challenge) = repeat 0 8 ->
   exists d,
     fst (Calls.getConfirmationData C code password w) = Resolved d
     /\ Calls.c_mk d = aes_dec C pk (ub64dec C k)
     /\ Calls.c_email d = Buf.to_string (ub64dec C e)
     /\ Calls.c_name d = Buf.to_string (ub64dec C n)
     /\ Calls.c_uh d = uh)
  /\ (firstn 8 (skipn 4 challenge) <> repeat 0 8 ->
      fst (Calls.getConfirmationData C code password w)
      = Rejected "bad_password" (Some "Invalid password")).
Proof.
  intros Hsc pk challenge.
  assert (Heq : fst (Calls.getConfirmationData C code password w)
            = if bool_decide (firstn 8 (skipn 4 challenge) = repeat 0 8)
              then Resolved
                     {| Calls.c_email := Buf.to_string (ub64dec C e);
                        Calls.c_name := Buf.to_string (ub64dec C n);
                        Calls.c_uh := uh; Calls.c_pk := pk;
                        Calls.c_emk := ub64dec C k;
                        Calls.c_challenge := challenge;
                        Calls.c_mk := aes_dec C pk (ub64dec C k);
                        Calls.c_password := password |}
              else Rejected "bad_password" (Some "Invalid password")).
  { unfold Calls.getConfirmationData, MegaAPI.done at 1.
    rewrite (call_answered _ _ _ rest) by exact Hsc.
    cbn [MegaAPI.deliver]. unfold MegaAPI.done, MegaAPI.lift.
    unfold Calls.confirmation_of.
    cbn [Calls.index nth opt_string required Js.bind MegaAPI.resolved
         Calls.c_challenge].
    fold pk. fold challenge.
    unfold Buf.eqb, Buf.slicebuf, Calls.zerobuf.
    by case_bool_decide. }
  rewrite Heq. split; intros Hc.
  - rewrite bool_decide_eq_true_2 by exact Hc. eexists.
    split; [reflexivity | by repeat split].
  - by rewrite bool_decide_eq_false_2 by exact Hc.
Qed.



(** ** Sharing a folder *)

Lemma share_content_closed (C : facade) (sk : list Z)
    (content : list (string * list Z)) :
  forall hs ks,
  Calls.share_content C sk content hs ks
  = (hs ++ map (fun e => JStr (fst e)) content,
     ks ++ concat
             (imap (fun i e =>
                      [JNum 0; JNum (Z.of_nat (length hs + i));
                       JStr (ub64enc C (aes_enc C sk (snd e)))])
                   content)).
Proof.
  induction content as [|[h k] content IH]; intros hs ks.
  - simpl. by rewrite !app_nil_r.
  - cbn [Calls.share_content]. rewrite IH. cbn [map imap concat fst snd].
    rewrite <- !app_assoc. f_equal. f_equal. cbn [app]. 
    rewrite length_app. cbn [length].
    replace (Z.of_nat (length hs + 1) - 1) with (Z.of_nat (length hs + 0))
      by lia.
    do 4 f_equal. apply imap_ext. intros i [h' k'] _. cbn.
    do 3 f_equal. lia.
Qed.

(** X11. What [shareFolder] posts authenticates in [Filesystem.load]:
    when the server hands the [ha] and [ok] of the request back as the
    [ha] and [k] of an entry of [r.ok] for the folder, the loop over
    [r.ok] installs the share key [sk] for the folder's handle (given
    that base64 and AES under the master key undo their encodings of the
    two values). *)
Theorem shareFolder_authenticates (C : facade)
    (rsa_encrypt : option string -> list Z -> list Z)
    (handle : string) (content : list (string * list Z)) (mk sk : list Z)
    (access : option Z) (uh pubk : option string) (f : filesystem) :
  let hb := Buf.of_string handle in
  let req :=
    Calls.share_request C rsa_encrypt handle content mk sk access uh pubk in
  aes_dec C mk (ub64dec C (ub64enc C (aes_enc C mk (hb ++ hb)))) = hb ++ hb ->
  aes_dec C mk (ub64dec C (ub64enc C (aes_enc C mk sk))) = sk ->
  exists ha ok,
    prop req "ha" = Ret (JStr ha)
    /\ prop req "ok" = Ret (JStr ok)
    /\ Filesystem.load_ok C mk
         [JObj [("h", JStr handle); ("ha", JStr ha); ("k", JStr ok)]] f
       = Ret (Filesystem.setShareKey f handle sk).
Proof.
  intros hb req Hha Hok. unfold req, Calls.share_request.
  destruct (Calls.share_content C sk content [] []) as [hs ks].
  eexists _, _. split; [reflexivity |]. split; [reflexivity |].
  cbn [Filesystem.load_ok prop assoc String.eqb Ascii.eqb Bool.eqb
       opt_string required Js.bind].
  unfold Buf.joinbuf. fold hb. rewrite Hha, Hok.
  unfold Buf.eqb. by rewrite bool_decide_eq_true_2.
Qed.

(** X12. The [cr] field of the request of [shareFolder] lists the folder,
    then the handles of the content in order, then for the node at
    position [i] the three entries 0, [i] and the node's key encrypted
    under the share key; the share goes to [EXP] when no user is given. *)
Theorem shareFolder_cr (C : facade)
    (rsa_encrypt : option string -> list Z -> list Z)
    (handle : string) (content : list (string * list Z)) (mk sk : list Z)
    (access : option Z) (uh pubk : option string) :
  let req :=
    Calls.share_request C rsa_encrypt handle content mk sk access uh pubk in
  prop req "cr"
  = Ret (JArr [JArr [JStr handle];
               JArr (map (fun e => JStr (fst e)) content);
               JArr (concat
                       (imap (fun i e =>
                                [JNum 0; JNum (Z.of_nat i);
                                 JStr (ub64enc C (aes_enc C sk (snd e)))])
                             content))])
  /\ (uh = None ->
      prop req "s" = Ret (JArr [JObj [("u", JStr "EXP");
                                      ("r", JNum (default 0 access))]])).
Proof.
  intros req. unfold req, Calls.share_request.
  rewrite share_content_closed. cbn [app length Nat.add]. split.
  - reflexivity.
  - by intros ->.
Qed.

(** ** The key field of a node *)









(** ** Importing a node: keys, identity, names *)

Lemma load_keys_cons (C : facade) (sd : session_data) (f : filesystem)
    (kh kt : string) (rest : list (string * string)) (n : node) :
  Filesystem.load_keys C sd f ((kh, kt) :: rest) n
  = match (if bool_decide (d_uh sd = Some kh) then Ret (d_mk sd)
           else Filesystem.getShareKey f kh) with
    | Ret (Some dk) =>
        if Buf.truthy dk then
          Filesystem.load_keys C sd f rest
            (if bool_decide (type n = Some NodeType.FILE)
             then Filesystem.set_key n (Some (aes_dec C dk (ub64dec C kt)))
                    (Some (file_node_key_unpack C
                             (aes_dec C dk (ub64dec C kt))))
             else Filesystem.set_key n (key_full n)
                    (Some (aes_dec C dk (ub64dec C kt))))
        else Ret None
    | Ret None => Ret None
    | Throw e => Throw e
    end.
Proof.
  cbn [Filesystem.load_keys].
  destruct (if bool_decide (d_uh sd = Some kh) then Ret (d_mk sd)
            else Filesystem.getShareKey f kh) as [[dk|]|e]; try done.
  cbn [Js.bind]. destruct (Buf.truthy dk); [| done].
  by destruct (bool_decide (type n = Some NodeType.FILE)).
Qed.

Lemma load_keys_fields (C : facade) (sd : session_data) (f : filesystem)
    (matches : list (string * string)) :
  forall n n', Filesystem.load_keys C sd f matches n = Ret (Some n') ->
  type n' = type n /\ handle n' = handle n
  /\ parent_handle n' = parent_handle n /\ su_handle n' = su_handle n
  /\ attrs n' = attrs n /\ name n' = name n.
Proof.
  induction matches as [|[kh kt] matches IH]; intros n n'.
  - by intros [= <-].
  - rewrite load_keys_cons.
    destruct (if bool_decide (d_uh sd = Some kh) then Ret (d_mk sd)
              else Filesystem.getShareKey f kh) as [[dk|]|e]; try done.
    destruct (Buf.truthy dk); [| done].
    destruct (bool_decide (type n = Some NodeType.FILE));
      intros H; apply IH in H; exact H.
Qed.


Lemma import_keys_fields (C : facade) (sd : session_data) (f : filesystem)
    (data : Filesystem.node_data) (n1 : node) :
  Filesystem.import_keys C sd f data = Ret (Some n1) ->
  type n1 = Filesystem.nd_t data /\ handle n1 = Filesystem.nd_h data
  /\ parent_handle n1
     = Some (if str_truthy (Filesystem.nd_p data)
             then default "" (Filesystem.nd_p data) else "*TOP*")
  /\ su_handle n1 = Filesystem.nd_su data
  /\ attrs n1 = None /\ name n1 = JUndef.
Proof.
  unfold Filesystem.import_keys.
  destruct (str_truthy (Filesystem.nd_k data)).
  - intros H. apply load_keys_fields in H. cbn in H.
    destruct H as (-> & -> & -> & -> & -> & ->). done.
  - by intros [= <-].
Qed.

Lemma import_attrs_cases (C : facade) (n1 n2 : node)
    (data : Filesystem.node_data) :
  Filesystem.import_attrs C n1 data = Ret (Some n2) ->
  n2 = n1
  \/ exists parsed nm,
       n2 = Filesystem.set_attrs n1 (Some parsed) nm
       /\ Filesystem.invalid_name C nm = Ret false.
Proof.
  unfold Filesystem.import_attrs.
  destruct (Filesystem.buf_truthy (key n1)
            && str_truthy (Filesystem.nd_a data));
    [| intros [= <-]; by left].
  destruct (aes_dec_cbc C _ _) as [at_|]; [| done].
  destruct (Buf.truthy at_ && _); [| done].
  destruct (match buftojsonstring C _ with
            | Some text => _ | None => _ end) as [parsed|e]; [| done].
  cbn [Js.bind]. destruct (prop parsed "n") as [nm|e]; [| done].
  cbn [Js.bind].
  destruct (Filesystem.invalid_name C nm) as [[|]|e] eqn:Hbad; try done.
  cbn [Js.bind]. intros [= <-]. right. by exists parsed, nm.
Qed.

Lemma fixed_name_fields (n : node) :
  type (Filesystem.fixed_name n) = type n
  /\ handle (Filesystem.fixed_name n) = handle n
  /\ parent_handle (Filesystem.fixed_name n) = parent_handle n
  /\ su_handle (Filesystem.fixed_name n) = su_handle n.
Proof.
  unfold Filesystem.fixed_name. by repeat case_bool_decide.
Qed.

Lemma importNode_success (C : facade) (sd : session_data) (f f' : filesystem)
    (data : Filesystem.node_data) (n : node) :
  Filesystem.importNode C sd f data = Ret (Some n, f') ->
  exists n1 n2,
    Filesystem.import_keys C sd f data = Ret (Some n1)
    /\ Filesystem.import_attrs C n1 data = Ret (Some n2)
    /\ n = Filesystem.fixed_name n2 /\ f' = f
    /\ str_truthy (Filesystem.nd_sk data) = false.
Proof.
  unfold Filesystem.importNode.
  destruct (Filesystem.import_keys C sd f data) as [[n1|]|e1]; try done.
  cbn [Js.bind].
  destruct (Filesystem.import_attrs C n1 data) as [[n2|]|e] eqn:Ha; try done.
  cbn [Js.bind]. cbv zeta.
  destruct (str_truthy (Filesystem.nd_sk data)); [by cbn |].
  intros [= <- <-]. exists n1, n2. by repeat split.
Qed.

(** X15. A node that [importNode] returns keeps the type, the handle and
    the share origin of its data; its parent is the parent of the data,
    or [*TOP*] when the data have none; the filesystem's share keys are
    as before; and a node of type ROOT, INBOX or RUBBISH is named Root,
    Inbox or Rubbish whatever its attributes say. *)
Theorem importNode_keeps_identity (C : facade) (sd : session_data)
    (f f' : filesystem) (data : Filesystem.node_data) (n : node) :
  Filesystem.importNode C sd f data = Ret (Some n, f') ->
  f' = f
  /\ type n = Filesystem.nd_t data
  /\ handle n = Filesystem.nd_h data
  /\ su_handle n = Filesystem.nd_su data
  /\ parent_handle n
     = Some (if str_truthy (Filesystem.nd_p data)
             then default "" (Filesystem.nd_p data) else "*TOP*")
  /\ (Filesystem.nd_t data = Some 2 -> name n = JStr "Root")
  /\ (Filesystem.nd_t data = Some 3 -> name n = JStr "Inbox")
  /\ (Filesystem.nd_t data = Some 4 -> name n = JStr "Rubbish").
Proof.
  intros H. apply importNode_success in H
    as (n1 & n2 & Hk & Ha & -> & -> & _).
  apply import_keys_fields in Hk as (Ht & Hh & Hp & Hsu & _ & _).
  assert (Hn2 : type n2 = type n1 /\ handle n2 = handle n1
                /\ parent_handle n2 = parent_handle n1
                /\ su_handle n2 = su_handle n1).
  { apply import_attrs_cases in Ha as [-> | (parsed & nm & -> & _)]; done. }
  destruct Hn2 as (Ht2 & Hh2 & Hp2 & Hsu2).
  destruct (fixed_name_fields n2) as (Ht3 & Hh3 & Hp3 & Hsu3).
  split; [done |]. split; [congruence |]. split; [congruence |].
  split; [congruence |]. split; [congruence |].
  assert (Hty : type n2 = Filesystem.nd_t data) by congruence.
  unfold Filesystem.fixed_name. rewrite Hty.
  repeat split; intros ->; by repeat case_bool_decide.
Qed.

(** X16. The name of a node that [importNode] returns, when it is a
    string, is neither [.] nor [..], and off Windows it has no slash in
    it. *)
Theorem importNode_name_is_safe (C : facade) (sd : session_data)
    (f f' : filesystem) (data : Filesystem.node_data) (n : node)
    (s : string) :
  Filesystem.importNode C sd f data = Ret (Some n, f') ->
  name n = JStr s ->
  s <> "." /\ s <> ".."
  /\ (os C <> "windows" -> contains "/" s = false).
Proof.
  intros H Hname. apply importNode_success in H
    as (n1 & n2 & Hk & Ha & -> & _ & _).
  apply import_keys_fields in Hk as (_ & _ & _ & _ & _ & Hn1).
  assert (Hn2 : forall t, name n2 = JStr t ->
            t <> "." /\ t <> ".."
            /\ (os C <> "windows" -> contains "/" t = false)).
  { intros t Ht.
    apply import_attrs_cases in Ha as [-> | (parsed & nm & -> & Hbad)];
      [congruence |].
    cbn in Ht. subst nm. cbn [Filesystem.invalid_name] in Hbad.
    injection Hbad as Hbad.
    apply orb_false_elim in Hbad as [Hbad Hc].
    apply orb_false_elim in Hbad as [H1 H2].
    apply String.eqb_neq in H1, H2. split; [done |]. split; [done |].
    intros Hos. apply String.eqb_neq in Hos. by rewrite Hos in Hc. }
  unfold Filesystem.fixed_name in Hname.
  repeat case_bool_decide; cbn in Hname;
    try (injection Hname as <-; by repeat split).
  by apply Hn2.
Qed.

(** ** Share keys while loading *)



Lemma importNode_fs (C : facade) (sd : session_data) (f f' : filesystem)
    (data : Filesystem.node_data) (r : option node) :
  Filesystem.importNode C sd f data = Ret (r, f') -> f' = f.
Proof.
  unfold Filesystem.importNode.
  destruct (Filesystem.import_keys C sd f data) as [[n1|]|e1];
    cbn [Js.bind]; [| by intros [= _ <-] | done].
  destruct (Filesystem.import_attrs C n1 data) as [[n2|]|e];
    cbn [Js.bind]; [| by intros [= _ <-] | done].
  cbv zeta. destruct (str_truthy (Filesystem.nd_sk data)); [by cbn |].
  by intros [= _ <-].
Qed.

Lemma load_f_share_keys (C : facade) (sd : session_data) (fl : list json) :
  forall f f', Filesystem.load_f C sd fl f = Ret f' ->
  share_keys f' = share_keys f.
Proof.
  induction fl as [|v fl IH]; intros f f'; cbn [Filesystem.load_f].
  - by intros [= <-].
  - destruct (Filesystem.node_data_of v) as [data|e]; [| done].
    cbn [Js.bind].
    destruct (Filesystem.importNode C sd f data) as [[r f1]|e] eqn:Hi;
      [| done].
    cbn [Js.bind fst snd]. apply importNode_fs in Hi as ->.
    intros H. apply IH in H. rewrite H. by destruct r.
Qed.

Lemma load_u_share_keys (ul : list json) :
  forall f f', Filesystem.load_u ul f = Ret f' ->
  share_keys f' = share_keys f.
Proof.
  induction ul as [|u ul IH]; intros f f'; cbn [Filesystem.load_u].
  - by intros [= <-].
  - destruct (prop u "c") as [c|e]; [| done]. cbn [Js.bind].
    destruct (opt_number c) as [oc|e]; [| done]. cbn [Js.bind].
    destruct (prop u "u") as [h|e]; [| done]. cbn [Js.bind].
    destruct (opt_string h) as [oh|e]; [| done]. cbn [Js.bind].
    destruct (prop u "m") as [m|e]; [| done]. cbn [Js.bind].
    destruct (prop u "ts") as [ts|e]; [| done]. cbn [Js.bind].
    destruct (opt_number ts) as [ots|e]; [| done]. cbn [Js.bind].
    intros H. apply IH in H. rewrite H. by case_bool_decide.
Qed.

Lemma load_ok_monotone (C : facade) (mk : list Z) (oks : list json)
    (y : string) :
  forall f f', Filesystem.load_ok C mk oks f = Ret f' ->
  is_Some (share_keys f !! y) -> is_Some (share_keys f' !! y).
Proof.
  induction oks as [|ok oks IH]; intros f f'.
  - by intros [= <-].
  - load_ok_step. intros H Hy. apply (IH _ _ H).
    destruct (Buf.eqb _ _); [| done].
    cbn [Filesystem.setShareKey share_keys].
    match goal with
    | |- is_Some (<[?h := _]> _ !! _) =>
        destruct (decide (h = y)) as [-> | ?];
        [rewrite lookup_insert_eq; by eexists | by rewrite lookup_insert_ne]
    end.
Qed.

Lemma load_ok_share_keys (C : facade) (mk : list Z) (oks : list json)
    (x : string) :
  (forall ok, In ok oks -> prop ok "h" <> Ret (JStr x)) ->
  forall f f', Filesystem.load_ok C mk oks f = Ret f' ->
  share_keys f' !! x = share_keys f !! x.
Proof.
  induction oks as [|ok oks IH]; intros Hx f f'.
  - by intros [= <-].
  - load_ok_step. intros H.
    apply IH in H; [| intros ? ?; apply Hx; by right].
    rewrite H. destruct (Buf.eqb _ _); [| done].
    cbn [Filesystem.setShareKey share_keys]. apply lookup_insert_ne.
    intros ->. apply (Hx ok); [by left |].
    match goal with
    | Hp : prop ok "h" = Ret ?j, Ho : opt_string ?j = Ret (Some _) |- _ =>
        rewrite Hp; destruct j; try done; by injection Ho as ->
    end.
Qed.

(** X18. A load keeps the share keys it found: after the callback of
    [load] has run without throwing, every handle that had a share key
    still has one, and the key of a handle that is not the [h] of an
    entry of [r.ok] is the very key it had. *)
Theorem load_done_keeps_share_keys (C : facade) (sd : session_data)
    (f f' : filesystem) (r : json) :
  Filesystem.load_done C sd f r = Ret f' ->
  (forall y, is_Some (share_keys f !! y) -> is_Some (share_keys f' !! y))
  /\ (forall x,
        (forall oks ok, prop r "ok" = Ret (JArr oks) -> In ok oks ->
                        prop ok "h" <> Ret (JStr x)) ->
        share_keys f' !! x = share_keys f !! x).
Proof.
  unfold Filesystem.load_done.
  destruct (prop r "ok") as [oks|e] eqn:Hoks; [| done]. cbn [Js.bind].
  destruct (opt_array oks) as [ol|e] eqn:Hol; [| done]. cbn [Js.bind].
  set (f0 := {| nodes := _; share_keys := share_keys f |}).
  destruct (match ol with Some (ok :: rest) => _ | _ => Ret f0 end)
    as [f1|e] eqn:H1; [| done]. cbn [Js.bind].
  destruct (prop r "f") as [fl|e]; [| done]. cbn [Js.bind].
  destruct (opt_array fl) as [ofl|e]; [| done]. cbn [Js.bind].
  destruct (match ofl with Some l => _ | None => Ret f1 end)
    as [f2|e] eqn:H2; [| done]. cbn [Js.bind].
  destruct (prop r "u") as [ul|e]; [| done]. cbn [Js.bind].
  destruct (opt_array ul) as [oul|e]; [| done]. cbn [Js.bind].
  intros H3.
  assert (E3 : share_keys f' = share_keys f2).
  { destruct oul as [l|]; [by apply load_u_share_keys in H3 |].
    by injection H3 as <-. }
  assert (E2 : share_keys f2 = share_keys f1).
  { destruct ofl as [l|]; [| by injection H2 as <-].
    destruct (d_isExportedFolder sd).
    - by destruct (existsb _ _).
    - by apply load_f_share_keys in H2. }
  rewrite E3, E2.
  destruct ol as [l|]; [| injection H1 as <-; by split].
  destruct l as [|ok0 rest]; [injection H1 as <-; by split |].
  destruct (d_mk sd) as [mk|].
  2: { destruct (prop ok0 "h") as [h|e]; [| done]. cbn [Js.bind] in H1.
       destruct (opt_string h) as [[hs|]|e]; try done.
       cbn [required Js.bind] in H1.
       destruct (prop ok0 "ha") as [ha|e]; [| done]. cbn [Js.bind] in H1.
       by destruct (opt_string ha) as [[has|]|e]. }
  set (l := ok0 :: rest) in *.
  destruct oks; try done. injection Hol as ->.
  split.
  - intros y. exact (load_ok_monotone C mk l y f0 f1 H1).
  - intros x Hx.
    exact (load_ok_share_keys C mk l x (fun ok => Hx l ok eq_refl) f0 f1 H1).
Qed.

(** ** Paths and children *)

Lemma append_assoc (a b c : string) : (a +:+ b) +:+ c = a +:+ b +:+ c.
Proof.
  induction a as [|x a IH]; [done |].
  change (String x ((a +:+ b) +:+ c) = String x (a +:+ b +:+ c)).
  by f_equal.
Qed.

Lemma append_inj_l (a b c : string) : a +:+ b = a +:+ c -> b = c.
Proof.
  induction a as [|x a IH]; [done |].
  change (String x (a +:+ b) = String x (a +:+ c) -> b = c).
  intros [= H]. auto.
Qed.

Lemma append_not_self (a b : string) : b <> "" -> a +:+ b <> a.
Proof.
  intros Hb H. apply Hb. apply (append_inj_l a).
  rewrite H. clear. induction a as [|x a IH]; [done |].
  change (String x a = String x (a +:+ "")). congruence.
Qed.

Lemma join_snoc (sep x : string) (l : list string) :
  l <> [] -> Tree.join sep (l ++ [x]) = Tree.join sep l +:+ sep +:+ x.
Proof.
  induction l as [|y l IH]; [done |]. intros _.
  destruct l as [|z l]; [done |].
  change (Tree.join sep ((y :: z :: l) ++ [x]))
    with (y +:+ sep +:+ Tree.join sep ((z :: l) ++ [x])).
  rewrite IH by done.
  change (Tree.join sep (y :: z :: l))
    with (y +:+ sep +:+ Tree.join sep (z :: l)).
  by rewrite !append_assoc.
Qed.

(** A read that misses no prototype member is the lookup. *)
Lemma get_own {A} (o : gmap string A) (k : string) (a : A) :
  o !! k = Some a -> get o k = Ret (Some a).
Proof. unfold get. by intros ->. Qed.

Lemma get_absent {A} (o : gmap string A) (k : string) :
  o !! k = None -> inherited k = false -> get o k = Ret None.
Proof. unfold get. by intros -> ->. Qed.

Lemma get_ret {A} (o : gmap string A) (k : string) (r : option A) :
  get o k = Ret r -> r = o !! k.
Proof.
  unfold get. destruct (o !! k) as [a|]; [by intros [= <-] |].
  destruct (inherited k); [done | by intros [= <-]].
Qed.

Lemma texts_snoc (l : list json) (x : json) (a : list string) (b : string) :
  Tree.texts l = Ret a -> Tree.join_item x = Ret b ->
  Tree.texts (l ++ [x]) = Ret (a ++ [b]).
Proof.
  revert a. induction l as [|y l IH]; intros a.
  - intros [= <-] Hx. cbn [app Tree.texts]. by rewrite Hx.
  - cbn [app Tree.texts].
    destruct (Tree.join_item y) as [ty|e]; [| done]. cbn [Js.bind].
    destruct (Tree.texts l) as [tl|e]; [| done]. cbn [Js.bind].
    intros [= <-] Hx. by rewrite (IH tl eq_refl Hx).
Qed.

Lemma texts_nil (l : list json) (a : list string) :
  Tree.texts l = Ret a -> a = [] -> l = [].
Proof.
  destruct l as [|y l]; [done |]. cbn [Tree.texts].
  destruct (Tree.join_item y) as [ty|e]; [| done]. cbn [Js.bind].
  destruct (Tree.texts l) as [tl|e]; [| done]. cbn [Js.bind].
  by intros [= <-].
Qed.

Lemma walk_parts (nodes : gmap string node) (fuel : nat) :
  forall cur parts,
  Tree.walk nodes fuel cur parts
  = walk_from parts (Tree.walk nodes fuel cur []).
Proof.
  induction fuel as [|fuel IH]; intros [n|] parts; cbn [Tree.walk walk_from];
    try done; try by rewrite app_nil_r.
  destruct (Tree.up nodes n) as [next|e]; [| done].
  rewrite (IH _ (parts ++ [name n])), (IH _ ([] ++ [name n])).
  destruct (Tree.walk nodes fuel next []) as [[more|e]|]; cbn [walk_from];
    try done.
  by rewrite <- app_assoc.
Qed.

Lemma walk_more_fuel (nodes : gmap string node) (fuel : nat) :
  forall cur acc r,
  Tree.walk nodes fuel cur acc = Some r ->
  Tree.walk nodes (S fuel) cur acc = Some r.
Proof.
  induction fuel as [|fuel IH]; intros [n|] acc r; try done.
  intros H. change (Tree.walk nodes (S fuel) (Some n) acc)
    with (match Tree.up nodes n with
          | Ret next => Tree.walk nodes fuel next (acc ++ [name n])
          | Throw e => Some (Throw e)
          end) in H.
  change (Tree.walk nodes (S (S fuel)) (Some n) acc)
    with (match Tree.up nodes n with
          | Ret next => Tree.walk nodes (S fuel) next (acc ++ [name n])
          | Throw e => Some (Throw e)
          end).
  destruct (Tree.up nodes n) as [next|e]; [| done].
  by apply IH.
Qed.

Lemma node_at_ret (nodes : gmap string node) (h : option string)
    (r : option node) :
  Tree.node_at nodes h = Ret r -> r = Tree.own_node nodes h.
Proof.
  unfold Tree.node_at, Tree.own_node. destruct h as [k|].
  - apply get_ret.
  - destruct (nodes !! "undefined"), (nodes !! "null"); try done.
    by intros [= <-].
Qed.

(** The parent that [getNodePath] steps to is the own property under the
    parent handle, else the one under the share origin. *)
Lemma up_ret (nodes : gmap string node) (n : node) (r : option node) :
  Tree.up nodes n = Ret r ->
  r = match Tree.own_node nodes (parent_handle n) with
      | Some p => Some p
      | None => Tree.own_node nodes (su_handle n)
      end.
Proof.
  unfold Tree.up.
  destruct (Tree.node_at nodes (parent_handle n)) as [p|e] eqn:Hp; [| done].
  apply node_at_ret in Hp as ->. cbn [Js.bind].
  destruct (Tree.own_node nodes (parent_handle n)) as [p|];
    [by intros [= <-] |].
  apply node_at_ret.
Qed.

Lemma up_returns (nodes : gmap string node) (n : node) (ph su : string) :
  parent_handle n = Some ph -> su_handle n = Some su ->
  inherited ph = false -> inherited su = false ->
  exists r, Tree.up nodes n = Ret r.
Proof.
  intros Hph Hsu Hp Hs. unfold Tree.up, Tree.node_at, get.
  rewrite Hph, Hsu, Hp.
  destruct (nodes !! ph); cbn [Js.bind]; [by eexists |].
  rewrite Hs. destruct (nodes !! su); by eexists.
Qed.

Lemma getNodePath_step (nodes : gmap string node) (n p : node)
    (fuel : nat) (pp s : string) :
  Tree.up nodes n = Ret (Some p) ->
  Tree.getNodePath nodes fuel p = Some (Ret pp) ->
  Tree.join_item (name n) = Ret s ->
  Tree.getNodePath nodes (S fuel) n = Some (Ret (pp +:+ "/" +:+ s)).
Proof.
  intros Hup Hp Hs. unfold Tree.getNodePath in *.
  change (Tree.walk nodes (S fuel) (Some n) [])
    with (match Tree.up nodes n with
          | Ret next => Tree.walk nodes fuel next ([] ++ [name n])
          | Throw e => Some (Throw e)
          end).
  rewrite Hup. cbn [app].
  rewrite (walk_parts nodes fuel (Some p) [name n]).
  destruct (Tree.walk nodes fuel (Some p) []) as [[ps|e]|] eqn:E;
    try done.
  cbn [walk_from].
  destruct (Tree.texts (rev ps)) as [l|e] eqn:Hl; [| done].
  cbn [Js.bind] in Hp. injection Hp as <-.
  cbn [app rev]. rewrite (texts_snoc _ _ _ _ Hl Hs). cbn [Js.bind].
  do 2 f_equal. apply join_snoc.
  intros ->. pose proof (texts_nil _ _ Hl eq_refl) as Hnil.
  destruct fuel as [|fuel]; [done |].
  change (Tree.walk nodes (S fuel) (Some p) [])
    with (match Tree.up nodes p with
          | Ret next => Tree.walk nodes fuel next ([] ++ [name p])
          | Throw e => Some (Throw e)
          end) in E.
  destruct (Tree.up nodes p) as [next|e]; [| done].
  rewrite walk_parts in E.
  destruct (Tree.walk nodes fuel next []) as [[qs|e]|]; try done.
  cbn [walk_from app] in E. injection E as <-.
  cbn [rev] in Hnil. by apply app_eq_nil in Hnil as [_ [=]].
Qed.

(** X19. The parent that [getNodePath] steps to is the node under the
    parent handle, else the node under the share origin.  The path of a
    node is the text of its name when it has no parent, and otherwise the
    path of that parent, a slash and the text of its name; giving the
    walk more steps than it needs does not change what it gives.  The
    step is taken for all handles that are strings and name no prototype
    member. *)
Theorem getNodePath_of_parent (nodes : gmap string node) (n : node)
    (fuel : nat) (s : string) :
  (forall r, Tree.up nodes n = Ret r ->
     r = match Tree.own_node nodes (parent_handle n) with
         | Some p => Some p
         | None => Tree.own_node nodes (su_handle n)
         end)
  /\ (forall ph su,
        parent_handle n = Some ph -> su_handle n = Some su ->
        inherited ph = false -> inherited su = false ->
        exists r, Tree.up nodes n = Ret r)
  /\ (Tree.up nodes n = Ret None ->
      Tree.join_item (name n) = Ret s ->
      Tree.getNodePath nodes (S fuel) n = Some (Ret s))
  /\ (forall p pp,
        Tree.up nodes n = Ret (Some p) ->
        Tree.getNodePath nodes fuel p = Some (Ret pp) ->
        Tree.join_item (name n) = Ret s ->
        Tree.getNodePath nodes (S fuel) n
        = Some (Ret (pp +:+ "/" +:+ s)))
  /\ (forall r,
        Tree.getNodePath nodes fuel n = Some r ->
        Tree.getNodePath nodes (S fuel) n = Some r).
Proof.
  split; [apply up_ret |]. split; [apply up_returns |].
  split; [| split].
  - intros Hup Hname. unfold Tree.getNodePath.
    change (Tree.walk nodes (S fuel) (Some n) [])
      with (match Tree.up nodes n with
            | Ret next => Tree.walk nodes fuel next ([] ++ [name n])
            | Throw e => Some (Throw e)
            end).
    rewrite Hup.
    replace (Tree.walk nodes fuel None ([] ++ [name n]))
      with (Some (Ret [name n])) by (by destruct fuel).
    cbn [rev app Tree.texts]. by rewrite Hname.
  - intros p pp Hup Hpp Hname.
    by apply (getNodePath_step nodes n p fuel pp s).
  - intros r. unfold Tree.getNodePath.
    destruct (Tree.walk nodes fuel (Some n) []) as [w|] eqn:E; [| done].
    by rewrite (walk_more_fuel _ _ _ _ _ E).
Qed.

(** X20. [getNodePath] does not return on a cycle: when a node belongs
    to a set of nodes each of which has its parent in the set, as a node
    that is its own parent does, no number of steps ends the walk. *)
Theorem getNodePath_cycle (nodes : gmap string node) (P : node -> Prop)
    (n : node) :
  (forall m, P m -> exists m', Tree.up nodes m = Ret (Some m') /\ P m') ->
  P n ->
  forall fuel, Tree.getNodePath nodes fuel n = None.
Proof.
  intros Hclosed Hn fuel. unfold Tree.getNodePath.
  assert (H : forall cur parts, P cur ->
            Tree.walk nodes fuel (Some cur) parts = None).
  { induction fuel as [|fuel IH]; intros cur parts Hcur; [done |].
    cbn [Tree.walk]. destruct (Hclosed cur Hcur) as (m' & -> & Hm').
    by apply IH. }
  by rewrite H.
Qed.









(** ** Saving, loading, opening and closing a session *)

Lemma to_string_of_string (s : string) : Buf.to_string (Buf.of_string s) = s.
Proof.
  unfold Buf.to_string, Buf.of_string. rewrite map_map.
  rewrite <- (string_of_list_ascii_of_string s) at 2. f_equal.
  rewrite <- (map_id (list_ascii_of_string s)) at 2.
  apply map_ext. intros c. rewrite N2Z.id. apply ascii_N_embedding.
Qed.

Lemma of_string_nil (s : string) : Buf.of_string s = [] -> s = "".
Proof. by destruct s. Qed.

Lemma loadSessionFile_stored (C : facade) (c : Session.credentials)
    (disk : gmap string (list Z)) (name : option string) (p : list Z) :
  length (sha256_digest C p) = 32%nat ->
  disk !! Session.getSessionFilePath C c name
  = Some (Native.aes_ctr C (Session.pk c)
            (Buf.slicebuf (Session.name_digest C c name) 0 8) 0
            (sha256_digest C p ++ p)) ->
  Session.loadSessionFile C c disk name = Some p.
Proof.
  intros Hlen Hd.
  rewrite (loadSessionFile_found C c disk name _ Hd).
  - cbv zeta. rewrite aes_ctr_involutive.
    rewrite drop_app_length', take_app_length' by done.
    by rewrite bool_decide_eq_true_2.
  - intros E. apply (f_equal length) in E.
    rewrite aes_ctr_length, length_app, Hlen in E. simpl in E. lia.
Qed.

(** What [save] leaves: the data with the time and the session id of the
    API object, and both files on a disk that takes them. *)
Lemma save_stored (C : facade) (s s' : Session.session) (now : Z)
    (disk disk' : gmap string (list Z)) (w : MegaAPI.world) :
  Session.save C s now disk w = (s', disk', true) ->
  writable C (Session.getSessionFilePath C (Session.cred s) (Some "fs"))
  = true ->
  let c := Session.cred s in
  let file name p :=
    Native.aes_ctr C (Session.pk c)
      (Buf.slicebuf (Session.name_digest C c name) 0 8) 0
      (sha256_digest C p ++ p) in
  Session.cred s' = c
  /\ Session.fs s' = Session.fs s
  /\ d_saved (Session.data s') = Some now
  /\ d_sid (Session.data s') = MegaAPI.sid w
  /\ d_sidParamName (Session.data s') = MegaAPI.sidParamName w
  /\ d_mk (Session.data s') = d_mk (Session.data s)
  /\ disk'
     = <[Session.getSessionFilePath C c None :=
           file None (Buf.of_string (jx_enc_session C (Session.data s')))]>
         (<[Session.getSessionFilePath C c (Some "fs") :=
              file (Some "fs") (Buf.of_string (jx_enc_fs C (Session.fs s)))]>
            disk).
Proof.
  unfold Session.save. intros H Hw. cbv zeta.
  destruct (Session.saveSessionFile C (Session.cred s) disk (Some "fs") _)
    as [disk1 ok1] eqn:E1.
  cbn [fst] in H.
  destruct (Session.saveSessionFile C (Session.cred s) disk1 None _)
    as [disk2 ok2] eqn:E2.
  injection H as <- <- ->. cbn.
  repeat (split; [done |]).
  assert (ok1 = true) as ->.
  { revert E1. unfold Session.saveSessionFile, Native.file_write.
    rewrite Hw. by intros [= _ <-]. }
  rewrite (saveSessionFile_stored _ _ _ _ _ _ E2).
  by rewrite (saveSessionFile_stored _ _ _ _ _ _ E1).
Qed.

Lemma load_save (C : facade) (s s' s0 : Session.session) (now : Z)
    (disk disk' : gmap string (list Z)) (w : MegaAPI.world)
    (f' : filesystem) :
  Session.save C s now disk w = (s', disk', true) ->
  writable C (Session.getSessionFilePath C (Session.cred s) (Some "fs"))
  = true ->
  Session.getSessionFilePath C (Session.cred s) (Some "fs")
  <> Session.getSessionFilePath C (Session.cred s) None ->
  length (sha256_digest C
            (Buf.of_string (jx_enc_session C (Session.data s')))) = 32%nat ->
  length (sha256_digest C
            (Buf.of_string (jx_enc_fs C (Session.fs s)))) = 32%nat ->
  jx_enc_session C (Session.data s') <> "" ->
  jx_enc_fs C (Session.fs s) <> "" ->
  jx_dec_session C (jx_enc_session C (Session.data s'))
  = Some (Session.data s') ->
  jx_dec_fs C (jx_enc_fs C (Session.fs s)) = Some f' ->
  Session.cred s0 = Session.cred s ->
  Session.load C s0 disk'
  = Ret ({| Session.cred := Session.cred s; Session.data := Session.data s';
            Session.fs := f' |}, true).
Proof.
  intros Hsave Hw Hpaths Hl1 Hl2 Hne1 Hne2 Hd1 Hd2 Hc.
  destruct (save_stored C s s' now disk disk' w Hsave Hw)
    as (Hc' & Hfs & _ & _ & _ & _ & Hdisk).
  unfold Session.load. rewrite Hc.
  rewrite (loadSessionFile_stored C (Session.cred s) disk' None
             (Buf.of_string (jx_enc_session C (Session.data s'))) Hl1)
    by (rewrite Hdisk; apply lookup_insert_eq).
  rewrite (loadSessionFile_stored C (Session.cred s) disk' (Some "fs")
             (Buf.of_string (jx_enc_fs C (Session.fs s))) Hl2)
    by (rewrite Hdisk, lookup_insert_ne by congruence;
        apply lookup_insert_eq).
  rewrite !to_string_of_string, Hd1, Hd2. cbn [Js.bind].
  assert (Ht : forall t, t <> "" -> Buf.truthy (Buf.of_string t) = true).
  { intros t Hne. destruct (Buf.of_string t) eqn:E; [| done].
    by apply of_string_nil in E. }
  by rewrite !Ht by done.
Qed.


(** X23. Within the hour after [save], [open] on the saved files settles
    without a request and without a timer, with the data that were saved
    and the filesystem that the saved text decodes to; the session id the
    API object holds is not touched. *)
Theorem open_after_save (C : facade) (s s' s0 : Session.session)
    (now now' later : Z) (disk disk' : gmap string (list Z))
    (w w0 : MegaAPI.world) (f' : filesystem) :
  Session.save C s now disk w = (s', disk', true) ->
  writable C (Session.getSessionFilePath C (Session.cred s) (Some "fs"))
  = true ->
  Session.getSessionFilePath C (Session.cred s) (Some "fs")
  <> Session.getSessionFilePath C (Session.cred s) None ->
  length (sha256_digest C
            (Buf.of_string (jx_enc_session C (Session.data s')))) = 32%nat ->
  length (sha256_digest C
            (Buf.of_string (jx_enc_fs C (Session.fs s)))) = 32%nat ->
  jx_enc_session C (Session.data s') <> "" ->
  jx_enc_fs C (Session.fs s) <> "" ->
  jx_dec_session C (jx_enc_session C (Session.data s'))
  = Some (Session.data s') ->
  jx_dec_fs C (jx_enc_fs C (Session.fs s)) = Some f' ->
  Session.cred s0 = Session.cred s ->
  now <> 0 ->
  now' - 3600000 < now ->
  Session.open C false now' later (s0, disk') w0
  = (Resolved tt,
     ({| Session.cred := Session.cred s; Session.data := Session.data s';
         Session.fs := f' |}, disk'), w0).
Proof.
  intros Hsave Hw Hpaths Hl1 Hl2 Hne1 Hne2 Hd1 Hd2 Hc Hnz Hfresh.
  unfold Session.open. cbn [fst snd].
  rewrite (load_save C s s' s0 now disk disk' w f') by done.
  set (s1 := {| Session.cred := _; Session.data := _; Session.fs := f' |}).
  assert (Hf : Session.isFresh s1 now' = true).
  { apply isFresh_iff. exists now. split; [| done].
    by destruct (save_stored C s s' now disk disk' w Hsave Hw)
      as (_ & _ & Hsaved & _). }
  by rewrite Hf.
Qed.

(** X24. After [close] no session loads: [load] returns false and leaves
    the session object as it was, whatever the disk held, so the next
    [open] logs in. *)
Theorem load_after_close (C : facade) (s s0 : Session.session)
    (later : Z) (disk : gmap string (list Z)) (now : Z) (force : bool)
    (w : MegaAPI.world) :
  Session.cred s0 = Session.cred s ->
  let disk' := snd (Session.close C (s, disk)) in
  Session.load C s0 disk' = Ret (s0, false)
  /\ Session.open C force now later (s0, disk') w
     = Session.loginAndGetUser C later (s0, disk') w.
Proof.
  intros Hc disk'.
  assert (Hl : Session.load C s0 disk' = Ret (s0, false)).
  { unfold Session.load, Session.loadSessionFile, Native.file_read.
    rewrite Hc. unfold disk', Session.close, Session.removeSessionFile,
      Native.file_remove. cbn [fst snd].
    destruct (decide (Session.getSessionFilePath C (Session.cred s) (Some "fs")
                      = Session.getSessionFilePath C (Session.cred s) None))
      as [E | E].
    - rewrite <- E. by rewrite lookup_delete_eq.
    - rewrite lookup_delete_ne by done. by rewrite lookup_delete_eq. }
  split; [done |].
  unfold Session.open. cbn [fst snd]. by rewrite Hl.
Qed.

(** ** What [open] sends *)

Lemma call_log (request : json) (w : MegaAPI.world) :
  exists more,
    MegaAPI.log (snd (MegaAPI.call request w))
    = MegaAPI.log w
      ++ MegaAPI.Http (MegaAPI.mk_url (MegaAPI.incr (MegaAPI.callId w))
                         (MegaAPI.sid w) (MegaAPI.sidParamName w)) [request]
         :: more.
Proof.
  destruct (callMulti_log [request] w) as (more & H & _). exists more.
  unfold MegaAPI.call, MegaAPI.done.
  by destruct (MegaAPI.callMulti [request] w) as [[r | ? ? | | ?] w'].
Qed.

Lemma call_callId (request : json) (w : MegaAPI.world) :
  MegaAPI.callId (snd (MegaAPI.call request w))
  = MegaAPI.incr (MegaAPI.callId w).
Proof.
  pose proof (callMulti_callId [request] w) as H.
  unfold MegaAPI.call, MegaAPI.done.
  by destruct (MegaAPI.callMulti [request] w) as [[r | ? ? | | ?] w'].
Qed.

Lemma getUser_world (w : MegaAPI.world) :
  snd (MegaAPI.getUser w) = snd (MegaAPI.call (JObj [("a", JStr "ug")]) w).
Proof.
  unfold MegaAPI.getUser, MegaAPI.done.
  by destruct (MegaAPI.call _ w) as [[r | ? ? | | ?] w'].
Qed.

Lemma open_getUser_world (C : facade) (later : Z) (st : Session.state)
    (w : MegaAPI.world) :
  snd (Session.open_getUser C later st w) = snd (MegaAPI.getUser w).
Proof.
  unfold Session.open_getUser.
  destruct (MegaAPI.getUser w) as [[res | ? ? | | ?] w']; try done.
  destruct (user <- prop res "user" ;; _) as [[[[user u] pubk] privk] | e];
    [| done].
  by destruct (Session.save C _ later (snd st) w') as [[s' disk'] ok].
Qed.

Lemma done_lift_log {A B} (r : result A) (f : A -> MegaAPI.M B)
    (w : MegaAPI.world) :
  (forall a w', MegaAPI.log (snd (f a w')) = MegaAPI.log w') ->
  MegaAPI.log (snd (MegaAPI.done (MegaAPI.lift r) f w)) = MegaAPI.log w.
Proof. intros Hf. destruct r as [a | e]; [apply Hf | done]. Qed.

Lemma defer_reject_log {A} (scope : list string) (code msg : string)
    (w : MegaAPI.world) :
  MegaAPI.log (snd (@MegaAPI.defer_reject A scope code msg w))
  = MegaAPI.log w.
Proof.
  unfold MegaAPI.defer_reject. by destruct (existsb _ scope).
Qed.

(** The first request of a login goes out without a session id. *)
Lemma open_login_log (C : facade) (st : Session.state) (w : MegaAPI.world) :
  exists req more,
    MegaAPI.log (snd (Session.open_login C st w))
    = MegaAPI.log w
      ++ MegaAPI.Http (MegaAPI.mk_url (MegaAPI.incr (MegaAPI.callId w))
                         None None) [req]
         :: more.
Proof.
  unfold Session.open_login.
  assert (He : exists req more,
            MegaAPI.log (snd (MegaAPI.loginEphemeral C
                                (Session.username (Session.cred (fst st)))
                                (Session.password (Session.cred (fst st))) w))
            = MegaAPI.log w
              ++ MegaAPI.Http (MegaAPI.mk_url (MegaAPI.incr (MegaAPI.callId w))
                                 None None) [req]
                 :: more).
  { unfold MegaAPI.loginEphemeral.
    destruct (call_log (JObj [("a", JStr "us");
                 ("user", JStr (Session.username (Session.cred (fst st))))])
                (MegaAPI.setSessionId None None w)) as (more & Hlog).
    cbn [MegaAPI.setSessionId MegaAPI.log MegaAPI.callId MegaAPI.sid
         MegaAPI.sidParamName] in Hlog.
    eexists _, more. unfold MegaAPI.done at 1.
    destruct (MegaAPI.call _ (MegaAPI.setSessionId None None w))
      as [[res | ? ? | | ?] w']; try exact Hlog.
    cbn [snd] in Hlog. rewrite <- Hlog.
    apply done_lift_log. intros [[mk tsid] ok] w2.
    destruct ok; cbn [negb]; [done | apply defer_reject_log]. }
  assert (Hl : exists req more,
            MegaAPI.log (snd (MegaAPI.login C
                                (Session.username (Session.cred (fst st)))
                                (Session.password (Session.cred (fst st))) w))
            = MegaAPI.log w
              ++ MegaAPI.Http (MegaAPI.mk_url (MegaAPI.incr (MegaAPI.callId w))
                                 None None) [req]
                 :: more).
  { unfold MegaAPI.login. cbv zeta.
    match goal with
    | |- context [MegaAPI.call ?r] =>
        destruct (call_log r (MegaAPI.setSessionId None None w))
          as (more & Hlog)
    end.
    cbn [MegaAPI.setSessionId MegaAPI.log MegaAPI.callId MegaAPI.sid
         MegaAPI.sidParamName] in Hlog.
    eexists _, more. unfold MegaAPI.done at 1.
    destruct (MegaAPI.call _ (MegaAPI.setSessionId None None w))
      as [[res | ? ? | | ?] w']; try exact Hlog.
    cbn [snd] in Hlog. rewrite <- Hlog.
    apply done_lift_log. intros [[[[mk csid] tsid] privk] u] w2.
    destruct (str_truthy csid).
    - destruct (negb (str_truthy _)); [apply defer_reject_log | done].
    - destruct (str_truthy tsid); [| done].
      apply done_lift_log. intros ok w3.
      destruct ok; cbn [negb]; [done | apply defer_reject_log]. }
  destruct (Session.isEphemeral (fst st)).
  - destruct He as (req & more & He). exists req, more.
    by destruct (MegaAPI.loginEphemeral C _ _ w) as [[r | ? ? | | ?] w'].
  - destruct Hl as (req & more & Hl). exists req, more.
    by destruct (MegaAPI.login C _ _ w) as [[r | ? ? | | ?] w'].
Qed.

Lemma loginAndGetUser_log (C : facade) (later : Z) (st : Session.state)
    (w : MegaAPI.world) :
  exists req more,
    MegaAPI.log (snd (Session.loginAndGetUser C later st w))
    = MegaAPI.log w
      ++ MegaAPI.Http (MegaAPI.mk_url (MegaAPI.incr (MegaAPI.callId w))
                         None None) [req]
         :: more.
Proof.
  destruct (open_login_log C st w) as (req & more & Hlog).
  unfold Session.loginAndGetUser.
  destruct (Session.open_login C st w) as [[[[] | ? ? | | ?] st'] w'];
    try by exists req, more.
  cbn [snd] in Hlog. rewrite open_getUser_world, getUser_world.
  destruct (call_log (JObj [("a", JStr "ug")]) w') as (more' & ->).
  rewrite Hlog. exists req. eexists. by rewrite <- app_assoc.
Qed.

(** X25. When the saved session is stale, or a check is forced, [open]
    asks for the user under the saved session id; when that request is
    rejected it logs in, and the login request carries no session id: for
    every rejection, the requests of [open] are the user request under the
    saved id and then a request whose URL has the next call id and no
    session parameter. *)
Theorem open_falls_back_to_login (C : facade) (force : bool)
    (now later : Z) (st : Session.state) (s1 : Session.session)
    (w : MegaAPI.world) (code : string) (msg : option string) :
  Session.load C (fst st) (snd st) = Ret (s1, true) ->
  Session.isFresh s1 now && negb force = false ->
  let w1 := MegaAPI.setSessionId (d_sid (Session.data s1))
              (d_sidParamName (Session.data s1)) w in
  fst (MegaAPI.getUser w1) = Rejected code msg ->
  Session.open C force now later st w
  = Session.loginAndGetUser C later (s1, snd st) (snd (MegaAPI.getUser w1))
  /\ exists retries req more,
       MegaAPI.log (snd (Session.open C force now later st w))
       = MegaAPI.log w
         ++ MegaAPI.Http (MegaAPI.mk_url (MegaAPI.incr (MegaAPI.callId w))
                            (d_sid (Session.data s1))
                            (d_sidParamName (Session.data s1)))
              [JObj [("a", JStr "ug")]]
            :: retries
         ++ MegaAPI.Http
              (MegaAPI.mk_url (MegaAPI.incr (MegaAPI.incr (MegaAPI.callId w)))
                 None None) [req]
            :: more.
Proof.
  intros Hload Hstale w1 Hrej.
  assert (Hopen : Session.open C force now later st w
            = Session.loginAndGetUser C later (s1, snd st)
                (snd (MegaAPI.getUser w1))).
  { unfold Session.open. rewrite Hload, Hstale. fold w1.
    unfold Session.open_getUser.
    destruct (MegaAPI.getUser w1) as [o w2]. cbn [fst snd] in *.
    by subst o. }
  split; [exact Hopen |].
  rewrite Hopen.
  destruct (loginAndGetUser_log C later (s1, snd st)
              (snd (MegaAPI.getUser w1))) as (req & more & ->).
  rewrite getUser_world, call_callId.
  destruct (call_log (JObj [("a", JStr "ug")]) w1) as (retries & ->).
  exists retries, req, more. cbn. by rewrite <- app_assoc.
Qed.

(** X26. After [openExportedFolder(n, mk)] the requests of the API object
    carry the folder handle as the parameter [n] instead of a session id,
    and the session holds the folder key and nothing that is fresh. *)
Theorem openExportedFolder_requests (n : string) (mk : list Z)
    (st : Session.state) (w : MegaAPI.world) (requests : list json)
    (now : Z) :
  n <> "" ->
  let opened := Exported.openExportedFolder n mk st w in
  (exists more,
     MegaAPI.log (snd (MegaAPI.callMulti requests (snd opened)))
     = MegaAPI.log w
       ++ MegaAPI.Http ("https://" +:+ MegaAPI.host +:+ "/cs?id="
                          +:+ pretty (MegaAPI.incr (MegaAPI.callId w))
                          +:+ "&n=" +:+ n) requests
          :: more)
  /\ d_mk (Session.data (fst (fst opened))) = Some mk
  /\ d_isExportedFolder (Session.data (fst (fst opened))) = true
  /\ Session.isFresh (fst (fst opened)) now = false.
Proof.
  intros Hn opened.
  split; [| done].
  destruct (callMulti_log requests (snd opened)) as (more & Hlog & _).
  exists more. rewrite Hlog. unfold opened, Exported.openExportedFolder.
  cbn [snd MegaAPI.setSessionId MegaAPI.log MegaAPI.callId MegaAPI.sid
       MegaAPI.sidParamName].
  unfold MegaAPI.mk_url.
  assert (Ht : str_truthy (Some n) = true) by by apply str_truthy_Some.
  rewrite Ht. change (str_truthy (Some "n")) with true. cbn [default].
  do 3 f_equal.
Qed.

(** ** The path map *)

Lemma register_cases (pathMap : gmap string node) (n : node)
    (path : string) (p : option string) (pm : gmap string node) :
  Tree.register pathMap n path = Ret (p, pm) ->
  (path = "" /\ p = None /\ pm = pathMap)
  \/ (path <> ""
      /\ exists q, p = Some q /\ q <> "" /\ pm = <[q := n]> pathMap).
Proof.
  unfold Tree.register.
  destruct (String.eqb_spec path "") as [-> | Hne]; cbn [negb].
  - intros [= <- <-]. by left.
  - destruct (get pathMap path) as [holder|e]; [| done]. cbn [Js.bind].
    destruct holder as [m|].
    + destruct (handle n) as [h|]; [| done]. cbn [Js.bind].
      intros [= <- <-]. right. split; [done |]. eexists.
      split; [done |]. split; [by destruct path | done].
    + cbn [Js.bind]. intros [= <- <-]. right. split; [done |].
      by exists path.
Qed.

(** X27. One round of [mapPaths]: a node with an empty path is not
    registered; a node whose path is free, and names no prototype member,
    is registered under it; a node whose path is held is registered under
    its path, a dot and its handle (a string), and the node that held the
    path keeps it. *)
Theorem register_keeps_holder (pathMap : gmap string node) (n : node)
    (path : string) :
  (path = "" -> Tree.register pathMap n path = Ret (None, pathMap))
  /\ (path <> "" -> pathMap !! path = None -> inherited path = false ->
      Tree.register pathMap n path
      = Ret (Some path, <[path := n]> pathMap))
  /\ (forall m h, path <> "" -> pathMap !! path = Some m ->
        handle n = Some h ->
        let p := path +:+ "." +:+ h in
        Tree.register pathMap n path = Ret (Some p, <[p := n]> pathMap)
        /\ <[p := n]> pathMap !! path = Some m
        /\ <[p := n]> pathMap !! p = Some n).
Proof.
  split; [| split].
  - intros ->. by unfold Tree.register.
  - intros Hne Hfree Hi. unfold Tree.register.
    destruct (String.eqb_spec path ""); [done |]. cbn [negb].
    by rewrite (get_absent _ _ Hfree Hi).
  - intros m h Hne Hheld Hh p. unfold Tree.register.
    destruct (String.eqb_spec path ""); [done |]. cbn [negb].
    rewrite (get_own _ _ _ Hheld), Hh. cbn [Js.bind]. fold p.
    split; [done |]. split; [| by rewrite lookup_insert_eq].
    rewrite lookup_insert_ne; [done |]. by apply append_not_self.
Qed.

Lemma mapPaths_from_keys (nodes : gmap string node) (fuel : nat)
    (entries : list (string * node)) :
  forall pathMap ps final,
  Tree.mapPaths_from nodes fuel entries pathMap = Some (Ret (ps, final)) ->
  length ps = length entries
  /\ (pathMap !! "" = None -> final !! "" = None)
  /\ (forall p, is_Some (pathMap !! p) -> is_Some (final !! p))
  /\ (forall p, In (Some p) ps -> is_Some (final !! p))
  /\ Forall2 (fun e p =>
                exists path,
                  Tree.getNodePath nodes fuel (snd e) = Some (Ret path)
                  /\ (p = None <-> path = ""))
       entries ps.
Proof.
  induction entries as [|[h n] entries IH]; intros pathMap ps final.
  - intros [= <- <-]. repeat split; try done.
  - cbn [Tree.mapPaths_from].
    destruct (Tree.getNodePath nodes fuel n) as [[path|e]|] eqn:Ep;
      try done.
    destruct (Tree.register pathMap n path) as [[p pm]|e] eqn:Er; [| done].
    destruct (Tree.mapPaths_from nodes fuel entries pm)
      as [[[ps' final']|e]|] eqn:E; try done.
    intros [= <- <-].
    destruct (IH _ _ _ E) as (Hlen & Hnil & Hmono & Hin & Hall).
    destruct (register_cases _ _ _ _ _ Er)
      as [(-> & -> & ->) | (Hne & q & -> & Hq & ->)].
    + split; [simpl; by rewrite Hlen |]. split; [done |]. split; [done |].
      split; [intros p [[=] | H]; by apply Hin |].
      constructor; [| done]. exists "". split; [exact Ep | done].
    + split; [simpl; by rewrite Hlen |].
      split; [intros H0; apply Hnil; by rewrite lookup_insert_ne |].
      split.
      { intros r Hr. apply Hmono.
        destruct (decide (q = r)) as [-> | Hqr];
          [by rewrite lookup_insert_eq | by rewrite lookup_insert_ne]. }
      split.
      { intros r [[= <-] | H]; [| by apply Hin].
        apply Hmono. by rewrite lookup_insert_eq. }
      constructor; [| done]. exists path. split; [exact Ep |].
      split; [done | by intros ->].
Qed.

(** X28. When [mapPaths] returns, the path map has no empty path, every
    node but those with an empty path has a path, and the map has an
    entry at each path a node was given. *)
Theorem mapPaths_keys (nodes : gmap string node) (fuel : nat)
    (entries : list (string * node)) (ps : list (option string))
    (final : gmap string node) :
  Tree.mapPaths nodes fuel entries = Some (Ret (ps, final)) ->
  final !! "" = None
  /\ (forall p, In (Some p) ps -> is_Some (final !! p))
  /\ Forall2 (fun e p =>
                exists path,
                  Tree.getNodePath nodes fuel (snd e) = Some (Ret path)
                  /\ (p = None <-> path = ""))
       entries ps.
Proof.
  unfold Tree.mapPaths. intros H.
  destruct (mapPaths_from_keys nodes fuel entries ∅ ps final H)
    as (_ & Hnil & _ & Hin & Hall).
  split; [by apply Hnil |]. by split.
Qed.

(** ** The theorems at sample inputs *)

Lemma tsOk_blob_witness :
  MegaAPI.tsOk Toy.C (Some Cases.tsid0) Cases.mk0 = Ret true.
Proof.
  apply (proj1 (tsOk_blob Toy.C Cases.mk0 Cases.ts0 eq_refl eq_refl eq_refl)).
Defined.

Lemma registerEphemeral_ts_accepted_witness :
  exists r w',
    Calls.registerEphemeral Toy.C "pw" Cases.mk0 Cases.ts0 Cases.registering
    = (Resolved r, w')
    /\ Calls.g_uh r = JStr "AAAAAAAAAAA"
    /\ MegaAPI.tsOk Toy.C (Some (ub64enc Toy.C (Calls.g_ts r))) (Calls.g_mk r)
       = Ret true.
Proof.
  destruct (registerEphemeral_ts_accepted Toy.C "pw" Cases.mk0 Cases.ts0
              Cases.registering (JStr "AAAAAAAAAAA") [] eq_refl eq_refl
              eq_refl eq_refl eq_refl)
    as (r & w' & H & Huh & _ & Hts & _).
  exists r, w'. split; [exact H |]. split; [exact Huh | exact Hts].
Defined.

Lemma loginEphemeral_after_register_witness :
  exists w',
    fst (MegaAPI.loginEphemeral Toy.C "AAAAAAAAAAA" "pw"
           Cases.ephemeral_login)
    = Resolved {| MegaAPI.r_uh := Some "AAAAAAAAAAA";
                  MegaAPI.r_sid := Some Cases.tsid0;
                  MegaAPI.r_email := None; MegaAPI.r_password := "pw";
                  MegaAPI.r_pk := aes_key_from_password Toy.C "pw";
                  MegaAPI.r_mk := Cases.mk0 |}
    /\ MegaAPI.sid w' = Some Cases.tsid0.
Proof.
  destruct (loginEphemeral_after_register Toy.C "AAAAAAAAAAA" "pw"
              Cases.mk0 Cases.ts0 Cases.ephemeral_login [] eq_refl eq_refl
              eq_refl eq_refl eq_refl)
    as (w' & H & Hsid & _).
  exists w'. split; [by rewrite H | exact Hsid].
Defined.

Lemma login_prefers_csid_witness :
  "CSID" <> ""
  /\ exists w',
       fst (MegaAPI.login Toy.C "Alice@Example.com" "pw" Cases.full_login)
       = Resolved {| MegaAPI.r_uh := Some "AAAAAAAAAAA";
                     MegaAPI.r_sid := Some "CSID";
                     MegaAPI.r_email := Some "Alice@Example.com";
                     MegaAPI.r_password := "pw";
                     MegaAPI.r_pk := aes_key_from_password Toy.C "pw";
                     MegaAPI.r_mk :=
                       aes_dec Toy.C (aes_key_from_password Toy.C "pw")
                         (ub64dec Toy.C "0123456789abcdef") |}
       /\ MegaAPI.sid w' = Some "CSID".
Proof.
  assert (H1 : "CSID" <> "") by discriminate.
  split; [exact H1 |].
  destruct (proj1 (login_prefers_csid Toy.C "Alice@Example.com" "pw"
                     "0123456789abcdef" "CSID" "PRIVK" "AAAAAAAAAAA" None
                     Cases.full_login [] H1 eq_refl) eq_refl)
    as (w' & H & Hsid & _).
  exists w'. split; [by rewrite H | exact Hsid].
Defined.

Lemma login_without_session_proof_witness :
  exists w',
    fst (MegaAPI.login Toy.C "Alice@Example.com" "pw" Cases.bare_login)
    = Resolved {| MegaAPI.r_uh := Some "AAAAAAAAAAA";
                  MegaAPI.r_sid := None;
                  MegaAPI.r_email := Some "Alice@Example.com";
                  MegaAPI.r_password := "pw";
                  MegaAPI.r_pk := aes_key_from_password Toy.C "pw";
                  MegaAPI.r_mk :=
                    aes_dec Toy.C (aes_key_from_password Toy.C "pw")
                      (ub64dec Toy.C "0123456789abcdef") |}
    /\ MegaAPI.sid w' = None.
Proof.
  destruct (login_without_session_proof Toy.C "Alice@Example.com" "pw"
              "0123456789abcdef" "AAAAAAAAAAA" Cases.bare_login [] eq_refl)
    as (w' & H & Hsid & _).
  exists w'. split; [by rewrite H | exact Hsid].
Defined.

Lemma getConfirmationData_checks_challenge_witness :
  exists d,
    fst (Calls.getConfirmationData Toy.C "code" "pw" Cases.confirming)
    = Resolved d
    /\ Calls.c_uh d = JStr "AAAAAAAAAAA".
Proof.
  destruct (proj1 (getConfirmationData_checks_challenge Toy.C "code" "pw"
                     "e" "n" "0123456789abcdef" "pppppppppppppppp"
                     (JStr "AAAAAAAAAAA") Cases.confirming [] eq_refl)
              eq_refl)
    as (d & H & _ & _ & _ & Huh).
  exists d. split; [exact H | exact Huh].
Defined.


Lemma shareFolder_authenticates_witness :
  exists ha ok,
    prop (Calls.share_request Toy.C (fun _ b => b) "HHHHHHHH" []
            Cases.mk0 Cases.sk0 None None None) "ha" = Ret (JStr ha)
    /\ Filesystem.load_ok Toy.C Cases.mk0
         [JObj [("h", JStr "HHHHHHHH"); ("ha", JStr ha); ("k", JStr ok)]]
         Session.empty_fs
       = Ret (Filesystem.setShareKey Session.empty_fs "HHHHHHHH" Cases.sk0).
Proof.
  destruct (shareFolder_authenticates Toy.C (fun _ b => b) "HHHHHHHH" []
              Cases.mk0 Cases.sk0 None None None Session.empty_fs
              eq_refl eq_refl)
    as (ha & ok & Hha & _ & Hload).
  exists ha, ok. split; [exact Hha | exact Hload].
Defined.

Lemma importNode_keeps_identity_witness :
  Filesystem.importNode Toy.C Toy.a_session Session.empty_fs
    Sample.colon_file
  = Ret (Some Cases.colon_linux, Session.empty_fs)
  /\ handle Cases.colon_linux = Some "FFFFFFFF"
  /\ parent_handle Cases.colon_linux = Some "PPPPPPPP".
Proof.
  assert (H : Filesystem.importNode Toy.C Toy.a_session Session.empty_fs
                Sample.colon_file
              = Ret (Some Cases.colon_linux, Session.empty_fs))
    by (vm_compute; reflexivity).
  split; [exact H |].
  destruct (importNode_keeps_identity Toy.C Toy.a_session Session.empty_fs
              Session.empty_fs Sample.colon_file Cases.colon_linux H)
    as (_ & _ & Hh & _ & Hp & _).
  split; [exact Hh | exact Hp].
Defined.

Lemma importNode_name_is_safe_witness :
  name Cases.colon_linux = JStr "a:b"
  /\ contains "/" "a:b" = false.
Proof.
  assert (H : Filesystem.importNode Toy.C Toy.a_session Session.empty_fs
                Sample.colon_file
              = Ret (Some Cases.colon_linux, Session.empty_fs))
    by (vm_compute; reflexivity).
  assert (Hn : name Cases.colon_linux = JStr "a:b") by reflexivity.
  assert (Hos : os Toy.C <> "windows") by discriminate.
  split; [exact Hn |].
  apply (proj2 (proj2 (importNode_name_is_safe Toy.C Toy.a_session
                         Session.empty_fs Session.empty_fs
                         Sample.colon_file Cases.colon_linux "a:b" H Hn))
           Hos).
Defined.

Lemma load_done_keeps_share_keys_witness :
  Filesystem.load_done Toy.C Toy.a_session Cases.keyed_fs Cases.one_share
  = Ret Cases.keyed_share_fs
  /\ share_keys Cases.keyed_fs !! "GGGGGGGG" = Some Cases.sk0
  /\ share_keys Cases.keyed_share_fs !! "GGGGGGGG" = Some Cases.sk0
  /\ share_keys Cases.keyed_share_fs !! "HHHHHHHH"
     = Some (aes_dec Toy.C [7] (ub64dec Toy.C "0123456789abcdef")).
Proof.
  assert (H : Filesystem.load_done Toy.C Toy.a_session Cases.keyed_fs
                Cases.one_share = Ret Cases.keyed_share_fs)
    by (vm_compute; reflexivity).
  assert (Hg : share_keys Cases.keyed_fs !! "GGGGGGGG" = Some Cases.sk0)
    by (vm_compute; reflexivity).
  split; [exact H |]. split; [exact Hg |]. split.
  - rewrite <- Hg.
    apply (proj2 (load_done_keeps_share_keys Toy.C Toy.a_session
                    Cases.keyed_fs Cases.keyed_share_fs Cases.one_share H)).
    intros oks ok [= <-] [<- | []]. discriminate.
  - vm_compute. reflexivity.
Defined.

Lemma getNodePath_cycle_witness :
  Tree.up Cases.looping Cases.loop = Ret (Some Cases.loop)
  /\ Tree.getNodePath Cases.looping 1000 Cases.loop = None.
Proof.
  assert (H : Tree.up Cases.looping Cases.loop = Ret (Some Cases.loop))
    by (vm_compute; reflexivity).
  split; [exact H |].
  apply (getNodePath_cycle Cases.looping (fun m => m = Cases.loop)
           Cases.loop).
  - intros m ->. exists Cases.loop. split; [exact H | reflexivity].
  - reflexivity.
Defined.


Lemma open_after_save_witness :
  Session.open Cases.nodes_only false 1700000060000 1700000060500
    (Sample.session0, Cases.shared_disk) (Toy.world0 Sample.flaky)
  = (Resolved tt, (Cases.restored, Cases.shared_disk),
     Toy.world0 Sample.flaky).
Proof.
  assert (H : Session.save Cases.nodes_only Cases.sharing 1700000000000 ∅
                Cases.logged_in
              = (Cases.sharing, Cases.shared_disk, true))
    by (vm_compute; reflexivity).
  assert (Hp : Session.getSessionFilePath Cases.nodes_only
                 (Session.cred Cases.sharing) (Some "fs")
               <> Session.getSessionFilePath Cases.nodes_only
                    (Session.cred Cases.sharing) None)
    by (vm_compute; discriminate).
  assert (H1 : jx_enc_session Cases.nodes_only (Session.data Cases.sharing)
               <> "") by discriminate.
  assert (H2 : jx_enc_fs Cases.nodes_only (Session.fs Cases.sharing) <> "")
    by (vm_compute; discriminate).
  assert (H3 : jx_dec_fs Cases.nodes_only
                 (jx_enc_fs Cases.nodes_only (Session.fs Cases.sharing))
               = Some Cases.bare_tree) by (vm_compute; reflexivity).
  assert (H4 : 1700000000000 <> 0) by lia.
  assert (H5 : 1700000060000 - 3600000 < 1700000000000) by lia.
  apply (open_after_save Cases.nodes_only Cases.sharing Cases.sharing
           Sample.session0 1700000000000 1700000060000 1700000060500 ∅
           Cases.shared_disk Cases.logged_in (Toy.world0 Sample.flaky)
           Cases.bare_tree H eq_refl Hp eq_refl eq_refl H1 H2 eq_refl H3
           eq_refl H4 H5).
Defined.

Lemma load_after_close_witness :
  Session.load Toy.C Sample.session0
    (snd (Session.close Toy.C (Sample.loaded, Cases.written_disk)))
  = Ret (Sample.session0, false).
Proof.
  apply (proj1 (load_after_close Toy.C Sample.loaded Sample.session0
                  1700000060500 Cases.written_disk 1700000060000 false
                  (Toy.world0 []) eq_refl)).
Defined.

Lemma open_falls_back_to_login_witness :
  Session.load Toy.C Sample.session0 Cases.written_disk
  = Ret (Sample.loaded, true)
  /\ Session.open Toy.C false 1800000000000 1800000000500
       (Sample.session0, Cases.written_disk) Cases.expired
     = Session.loginAndGetUser Toy.C 1800000000500
         (Sample.loaded, Cases.written_disk)
         (snd (MegaAPI.getUser
                 (MegaAPI.setSessionId (Some "sid0") None Cases.expired))).
Proof.
  assert (H : Session.load Toy.C
                (fst (Sample.session0, Cases.written_disk))
                (snd (Sample.session0, Cases.written_disk))
              = Ret (Sample.loaded, true)) by (vm_compute; reflexivity).
  split; [exact H |].
  apply (proj1 (open_falls_back_to_login Toy.C false 1800000000000
                  1800000000500 (Sample.session0, Cases.written_disk)
                  Sample.loaded Cases.expired (MegaAPI.getErrorName (-15))
                  (Some (MegaAPI.getErrorMessage (MegaAPI.getErrorName (-15))))
                  H eq_refl eq_refl)).
Defined.

Lemma openExportedFolder_requests_witness :
  exists more,
    MegaAPI.log
      (snd (MegaAPI.callMulti [Filesystem.f_request]
              (snd (Exported.openExportedFolder "NNNNNNNN" Cases.mk0
                      (Sample.session0, ∅) (Toy.world0 [])))))
    = MegaAPI.Http "https://g.api.mega.co.nz/cs?id=1&n=NNNNNNNN"
        [Filesystem.f_request]
      :: more.
Proof.
  assert (H : "NNNNNNNN" <> "") by discriminate.
  apply (proj1 (openExportedFolder_requests "NNNNNNNN" Cases.mk0
                  (Sample.session0, ∅) (Toy.world0 [])
                  [Filesystem.f_request] 0 H)).
Defined.

Lemma mapPaths_keys_witness :
  Tree.mapPaths Cases.small_nodes 10 Cases.small_tree
  = Some (Ret ([Some "Root"; Some "Root/a.txt"], Cases.small_paths))
  /\ Cases.small_paths !! "" = None.
Proof.
  assert (H : Tree.mapPaths Cases.small_nodes 10 Cases.small_tree
              = Some (Ret ([Some "Root"; Some "Root/a.txt"],
                           Cases.small_paths)))
    by (vm_compute; reflexivity).
  split; [exact H |].
  apply (proj1 (mapPaths_keys Cases.small_nodes 10 Cases.small_tree
                  [Some "Root"; Some "Root/a.txt"] Cases.small_paths H)).
Defined.

(** C6, at the input where the code departs from it: the fifteenth
    failure in a row that asks for a retry is not retried.  The call
    stays pending with the answer behind the failures unread, after
    fifteen requests and fourteen timers, the longest of 81 920 s. *)
Lemma callMulti_fifteenth_failure_not_retried :
  fst (MegaAPI.callMulti Sample.three Cases.stuck) = Pending
  /\ MegaAPI.script (snd (MegaAPI.callMulti Sample.three Cases.stuck))
     = [MegaAPI.Onload (Some (JArr [JStr "ok"]))]
  /\ Calls.requests_in
       (MegaAPI.log (snd (MegaAPI.callMulti Sample.three Cases.stuck)))
     = 15%nat
  /\ List.filter (fun e => negb (Calls.is_http e))
       (MegaAPI.log (snd (MegaAPI.callMulti Sample.three Cases.stuck)))
     = map (fun i => MegaAPI.Timer (10000 * 2 ^ Z.of_nat i)) (seq 0 14)
  /\ last (MegaAPI.log (snd (MegaAPI.callMulti Sample.three Cases.stuck)))
     = Some (MegaAPI.Http "https://g.api.mega.co.nz/cs?id=1" Sample.three).
Proof. repeat split; vm_compute; reflexivity. Qed.
